(** * Orchestration callbacks of the annual-report parser and the company profiler

    A shallow embedding of the Python sources
    - [annual_report_parser/agent.py], [loop_tools.py], [custom_tools.py]
    - [company_profiler/agent.py], [a2a_server.py]

    Python text is modelled as [string]: a sequence of code points below 256
    (the Latin-1 range of [str]).  Session state is a finite map from keys to
    Python values.  The standard-library pieces the callbacks lean on
    ([str] methods, [re], [json]) are modelled first, the callbacks after them,
    and the properties last. *)

From Stdlib Require Import ZArith Ascii DecimalString DecimalZ DecimalPos.
From stdpp Require Import gmap strings list.

Local Open Scope Z_scope.
Local Set Warnings "-register-all".

(* ===================================================================== *)
(** * Python [str] primitives                                             *)
(* ===================================================================== *)

Module PyStr.

(** The double quote, which a literal of this file never contains. *)
Definition dquote : ascii := "034"%char.

(** [q s] is [s] with every apostrophe turned into a double quote: the
    concrete JSON texts below are written with apostrophes and read through
    [q]. *)
Fixpoint q (s : string) : string :=
  match s with
  | EmptyString => EmptyString
  | String c r => String (if Ascii.eqb c "'" then dquote else c) (q r)
  end.

Definition code (c : ascii) : N := N_of_ascii c.

Definition between (lo hi : N) (c : ascii) : bool :=
  ((lo <=? code c) && (code c <=? hi))%N.

(** [str.isspace] on one code point of the Latin-1 range; also the class
    [\s] of [re] on [str] patterns. *)
Definition py_isspace (c : ascii) : bool :=
  between 9 13 c || between 28 32 c || (code c =? 133)%N || (code c =? 160)%N.

Definition is_digit (c : ascii) : bool := between 48 57 c.
Definition is_upper (c : ascii) : bool := between 65 90 c.
Definition is_lower (c : ascii) : bool := between 97 122 c.
Definition is_alpha (c : ascii) : bool := is_upper c || is_lower c.

(** [c in chars] for a one-character [c]. *)
Fixpoint mem (c : ascii) (chars : string) : bool :=
  match chars with
  | EmptyString => false
  | String d r => Ascii.eqb c d || mem c r
  end.

(** [str.lower] on one code point: A-Z, and the Latin-1 capitals
    U+00C0..U+00DE other than the multiplication sign U+00D7. *)
Definition lower_char (c : ascii) : ascii :=
  if is_upper c || (between 192 222 c && negb (code c =? 215)%N)
  then ascii_of_N (code c + 32) else c.

Fixpoint py_lower (s : string) : string :=
  match s with
  | EmptyString => EmptyString
  | String c r => String (lower_char c) (py_lower r)
  end.

(** [s.lstrip(chars)] and [s.rstrip(chars)], the character set given as a
    predicate. *)
Fixpoint lstrip_by (p : ascii → bool) (s : string) : string :=
  match s with
  | EmptyString => EmptyString
  | String c r => if p c then lstrip_by p r else s
  end.

Fixpoint rstrip_by (p : ascii → bool) (s : string) : string :=
  match s with
  | EmptyString => EmptyString
  | String c r =>
      match rstrip_by p r with
      | EmptyString => if p c then EmptyString else String c EmptyString
      | r' => String c r'
      end
  end.

Definition strip_by (p : ascii → bool) (s : string) : string :=
  rstrip_by p (lstrip_by p s).

(** [s.strip()], [s.lstrip(chars)], [s.rstrip(chars)], [s.strip(chars)]. *)
Definition py_strip (s : string) : string := strip_by py_isspace s.
Definition py_lstrip (chars s : string) : string := lstrip_by (λ c, mem c chars) s.
Definition py_rstrip (chars s : string) : string := rstrip_by (λ c, mem c chars) s.
Definition py_strip_chars (chars s : string) : string := strip_by (λ c, mem c chars) s.

(** [s.startswith(p)]. *)
Fixpoint startswith (p s : string) : bool :=
  match p, s with
  | EmptyString, _ => true
  | String a p', String b s' => Ascii.eqb a b && startswith p' s'
  | String _ _, EmptyString => false
  end.

(** [sub in s] on two strings. *)
Fixpoint py_in (sub s : string) : bool :=
  startswith sub s ||
  match s with
  | EmptyString => false
  | String _ r => py_in sub r
  end.

Fixpoint str_drop (n : nat) (s : string) : string :=
  match n, s with
  | O, _ => s
  | S n', String _ r => str_drop n' r
  | S _, EmptyString => EmptyString
  end.

Fixpoint str_take (n : nat) (s : string) : string :=
  match n, s with
  | S n', String c r => String c (str_take n' r)
  | _, _ => EmptyString
  end.

(** [s.split(sep)] for a non-empty [sep]: the text is cut at the leftmost
    occurrences of [sep], scanned left to right without overlap.  [skip]
    counts the characters of a separator just recognised that are still to
    be passed over; [cur] is the segment being read, reversed. *)
Fixpoint split_go (sep : string) (skip : nat) (cur : string) (s : string)
  : list string :=
  match s with
  | EmptyString => [String.rev cur]
  | String c r =>
      match skip with
      | S k => split_go sep k cur r
      | O =>
          if startswith sep s
          then String.rev cur :: split_go sep (String.length sep - 1) EmptyString r
          else split_go sep O (String c cur) r
      end
  end.

Definition py_split (sep s : string) : list string :=
  split_go sep O EmptyString s.

(** [sep.join(parts)]. *)
Fixpoint py_join (sep : string) (parts : list string) : string :=
  match parts with
  | [] => EmptyString
  | [p] => p
  | p :: ps => p +:+ sep +:+ py_join sep ps
  end.

End PyStr.
Import PyStr.

(* ===================================================================== *)
(** * Python [re]: a backtracking matcher                                 *)
(* ===================================================================== *)

Module Re.

(** The fragment of the pattern language the sources use.  [Star] is the
    greedy [*]; [Bol] is [^] and [Eol] is [$] (no MULTILINE flag: [^] holds
    at position 0, [$] at the end and before a final newline). *)
Inductive regex : Type :=
| Eps
| Chr (p : ascii → bool)
| Seq (r1 r2 : regex)
| Alt (r1 r2 : regex)
| Star (r : regex)
| Bol
| Eol.

Definition Plus (r : regex) : regex := Seq r (Star r).
Definition Opt (r : regex) : regex := Alt r Eps.

Definition chr (c : ascii) : regex := Chr (Ascii.eqb c).
(** One literal character under [re.IGNORECASE]. *)
Definition chr_ci (c : ascii) : regex :=
  Chr (λ d, Ascii.eqb (lower_char d) (lower_char c)).

Fixpoint lit (s : string) : regex :=
  match s with
  | EmptyString => Eps
  | String c r => Seq (chr c) (lit r)
  end.

Fixpoint lit_ci (s : string) : regex :=
  match s with
  | EmptyString => Eps
  | String c r => Seq (chr_ci c) (lit_ci r)
  end.

(** [rx r bol s k]: match [r] at the head of [s], then hand what is left
    to the continuation [k]; alternatives are tried in the order of
    Python's engine (left branch first, one more iteration of a star
    first), so the first success is the match [re] reports.  [bol] tells
    whether [s] starts at position 0.  An iteration of a star that consumes
    nothing is not repeated. *)
Fixpoint rx (r : regex) (bol : bool) (s : string)
    (k : bool → string → option string) {struct r} : option string :=
  match r with
  | Eps => k bol s
  | Chr p =>
      match s with
      | String c t => if p c then k false t else None
      | EmptyString => None
      end
  | Seq r1 r2 => rx r1 bol s (λ b' s', rx r2 b' s' k)
  | Alt r1 r2 =>
      match rx r1 bol s k with
      | Some x => Some x
      | None => rx r2 bol s k
      end
  | Star r1 =>
      (fix star (n : nat) (b : bool) (s : string) {struct n} : option string :=
         match n with
         | O => k b s
         | S n' =>
             match rx r1 b s
                     (λ b' s', if (String.length s' <? String.length s)%nat
                               then star n' b' s' else None) with
             | Some x => Some x
             | None => k b s
             end
         end) (String.length s) bol s
  | Bol => if bol then k bol s else None
  | Eol =>
      match s with
      | EmptyString => k bol s
      | String c EmptyString => if Ascii.eqb c "010" then k bol s else None
      | _ => None
      end
  end.

(** The match of [r] anchored at the head of [s]: what it consumed and
    what follows. *)
Definition match_at (r : regex) (bol : bool) (s : string)
  : option (string * string) :=
  match rx r bol s (λ _ rest, Some rest) with
  | Some rest => Some (str_take (String.length s - String.length rest) s, rest)
  | None => None
  end.

(** [re.search(r, s)]: the leftmost match, as [m.group()]. *)
Fixpoint search_go (r : regex) (bol : bool) (s : string) : option string :=
  match match_at r bol s with
  | Some (m, _) => Some m
  | None =>
      match s with
      | EmptyString => None
      | String _ t => search_go r false t
      end
  end.

Definition search (r : regex) (s : string) : option string := search_go r true s.

(** [re.findall(r, s)] for a pattern without capturing groups: the
    matches left to right, without overlap. *)
Fixpoint findall_go (r : regex) (bol : bool) (skip : nat) (s : string)
  : list string :=
  match s with
  | EmptyString =>
      match match_at r bol s with
      | Some (m, _) => [m]
      | None => []
      end
  | String _ t =>
      match skip with
      | S k => findall_go r false k t
      | O =>
          match match_at r bol s with
          | Some (m, _) => m :: findall_go r false (String.length m - 1) t
          | None => findall_go r false O t
          end
      end
  end.

Definition findall (r : regex) (s : string) : list string :=
  findall_go r true O s.

(** [re.sub(r, repl, s)] for a replacement text without group
    references. *)
Fixpoint sub_go (r : regex) (repl : string) (bol : bool) (skip : nat)
    (s : string) : string :=
  match s with
  | EmptyString =>
      match match_at r bol s with
      | Some _ => repl
      | None => EmptyString
      end
  | String c t =>
      match skip with
      | S k => sub_go r repl false k t
      | O =>
          match match_at r bol s with
          | Some (EmptyString, _) => repl +:+ String c (sub_go r repl false O t)
          | Some (m, _) => repl +:+ sub_go r repl false (String.length m - 1) t
          | None => String c (sub_go r repl false O t)
          end
      end
  end.

Definition sub (r : regex) (repl s : string) : string :=
  sub_go r repl true O s.

End Re.

(* ===================================================================== *)
(** * Python values and the [json] module                                 *)
(* ===================================================================== *)

Module Py.

(** The Python objects that session state and JSON documents hold.  A
    [dict] is kept in insertion order, with string keys (the only keys a
    JSON object has). *)
Inductive pyval : Type :=
| PyNone
| PyBool (b : bool)
| PyInt (z : Z)
| PyStr (s : string)
| PyList (l : list pyval)
| PyDict (d : list (string * pyval)).

(** Truth value of an object ([if x], [not x], [x and y]). *)
Definition truthy (v : pyval) : bool :=
  match v with
  | PyNone => false
  | PyBool b => b
  | PyInt z => negb (z =? 0)
  | PyStr s => negb (String.eqb s EmptyString)
  | PyList l => match l with [] => false | _ => true end
  | PyDict d => match d with [] => false | _ => true end
  end.

Definition is_str (v : pyval) : bool := match v with PyStr _ => true | _ => false end.
Definition is_list (v : pyval) : bool := match v with PyList _ => true | _ => false end.
Definition is_dict (v : pyval) : bool := match v with PyDict _ => true | _ => false end.

(** [d.get(k)] on the pairs of a dict. *)
Fixpoint dict_get (k : string) (d : list (string * pyval)) : option pyval :=
  match d with
  | [] => None
  | (k', v) :: r => if String.eqb k k' then Some v else dict_get k r
  end.

(** [d[k] = v]: a present key keeps its place and takes the new value, a
    new key goes last. *)
Fixpoint dict_set (k : string) (v : pyval) (d : list (string * pyval))
  : list (string * pyval) :=
  match d with
  | [] => [(k, v)]
  | (k', v') :: r =>
      if String.eqb k k' then (k, v) :: r else (k', v') :: dict_set k v r
  end.

(** [x == y].  [bool] is a subtype of [int] ([True == 1]); dicts compare
    as mappings, whatever the order of their keys. *)
Fixpoint py_eqb (x y : pyval) {struct x} : bool :=
  match x, y with
  | PyNone, PyNone => true
  | PyBool a, PyBool b => Bool.eqb a b
  | PyBool a, PyInt z | PyInt z, PyBool a => Z.b2z a =? z
  | PyInt a, PyInt b => a =? b
  | PyStr a, PyStr b => String.eqb a b
  | PyList a, PyList b =>
      (fix go (a b : list pyval) {struct a} : bool :=
         match a, b with
         | [], [] => true
         | u :: a', w :: b' => py_eqb u w && go a' b'
         | _, _ => false
         end) a b
  | PyDict a, PyDict b =>
      (length a =? length b)%nat &&
      (fix go (a : list (string * pyval)) {struct a} : bool :=
         match a with
         | [] => true
         | (k, u) :: a' =>
             match dict_get k b with
             | Some w => py_eqb u w && go a'
             | None => false
             end
         end) a
  | _, _ => false
  end.

(** [x in l] for a list [l]. *)
Definition list_contains (x : pyval) (l : list pyval) : bool :=
  existsb (py_eqb x) l.

End Py.
Import Py.

Module Json.

(** ** [json.loads]

    The decoder of CPython's [json] module on the integers-and-text
    fragment.  Two things lie outside the model and make [json_loads] answer
    [None] where Python would build a value: numerals with a fraction or an
    exponent and the constants NaN and Infinity (floating point), and
    [\uXXXX] escapes above U+00FF (text here is Latin-1). *)

(** JSON whitespace: space, tab, line feed, carriage return. *)
Definition is_ws (c : ascii) : bool :=
  (code c =? 32)%N || (code c =? 9)%N || (code c =? 10)%N || (code c =? 13)%N.

Definition skip_ws (s : string) : string := lstrip_by is_ws s.

Definition hex_val (c : ascii) : option N :=
  if is_digit c then Some (code c - 48)%N
  else if between 97 102 c then Some (code c - 87)%N
  else if between 65 70 c then Some (code c - 55)%N
  else None.

Definition hex4 (a b c d : ascii) : option N :=
  match hex_val a, hex_val b, hex_val c, hex_val d with
  | Some x, Some y, Some z, Some w => Some (((x * 16 + y) * 16 + z) * 16 + w)%N
  | _, _, _, _ => None
  end.

(** The character a one-letter escape stands for. *)
Definition unescape (e : ascii) : option ascii :=
  if Ascii.eqb e dquote then Some dquote
  else if Ascii.eqb e "\" then Some "\"%char
  else if Ascii.eqb e "/" then Some "/"%char
  else if Ascii.eqb e "b" then Some "008"%char
  else if Ascii.eqb e "f" then Some "012"%char
  else if Ascii.eqb e "n" then Some "010"%char
  else if Ascii.eqb e "r" then Some "013"%char
  else if Ascii.eqb e "t" then Some "009"%char
  else None.

(** [scanstring] in strict mode, from just after the opening quote: the
    decoded text and what follows the closing quote. *)
Fixpoint scanstring (s : string) : option (string * string) :=
  match s with
  | EmptyString => None
  | String c r =>
      if Ascii.eqb c dquote then Some (EmptyString, r)
      else if Ascii.eqb c "\" then
        match r with
        | String e r1 =>
            if Ascii.eqb e "u" then
              match r1 with
              | String h1 (String h2 (String h3 (String h4 r2))) =>
                  match hex4 h1 h2 h3 h4 with
                  | Some n =>
                      if (n <? 256)%N then
                        match scanstring r2 with
                        | Some (t, rest) => Some (String (ascii_of_N n) t, rest)
                        | None => None
                        end
                      else None
                  | None => None
                  end
              | _ => None
              end
            else
              match unescape e with
              | Some ch =>
                  match scanstring r1 with
                  | Some (t, rest) => Some (String ch t, rest)
                  | None => None
                  end
              | None => None
              end
        | EmptyString => None
        end
      else if (code c <? 32)%N then None
      else
        match scanstring r with
        | Some (t, rest) => Some (String c t, rest)
        | None => None
        end
  end.

Definition digit_cons (c : ascii) (d : Decimal.uint) : option Decimal.uint :=
  match code c with
  | 48%N => Some (Decimal.D0 d) | 49%N => Some (Decimal.D1 d)
  | 50%N => Some (Decimal.D2 d) | 51%N => Some (Decimal.D3 d)
  | 52%N => Some (Decimal.D4 d) | 53%N => Some (Decimal.D5 d)
  | 54%N => Some (Decimal.D6 d) | 55%N => Some (Decimal.D7 d)
  | 56%N => Some (Decimal.D8 d) | 57%N => Some (Decimal.D9 d)
  | _ => None
  end.

(** The longest run of decimal digits at the head of [s]. *)
Fixpoint scan_digits (s : string) : Decimal.uint * string :=
  match s with
  | EmptyString => (Decimal.Nil, s)
  | String c r =>
      if is_digit c then
        let '(d, rest) := scan_digits r in
        match digit_cons c d with
        | Some d' => (d', rest)
        | None => (Decimal.Nil, s)
        end
      else (Decimal.Nil, s)
  end.

Definition uint_eqb (a b : Decimal.uint) : bool :=
  if Decimal.uint_eq_dec a b then true else false.

(** An unsigned integer literal [0|[1-9][0-9]*] that no fraction or
    exponent follows. *)
Definition scan_nat (s : string) : option (Z * string) :=
  match scan_digits s with
  | (Decimal.Nil, _) => None
  | (d, rest) =>
      if uint_eqb (Decimal.unorm d) d then
        match rest with
        | String c _ =>
            if is_digit c || Ascii.eqb c "." || Ascii.eqb c "e" || Ascii.eqb c "E"
            then None else Some (Z.of_uint d, rest)
        | EmptyString => Some (Z.of_uint d, rest)
        end
      else None
  end.

Definition scan_number (s : string) : option (pyval * string) :=
  match s with
  | String c r =>
      if Ascii.eqb c "-" then
        match scan_nat r with
        | Some (z, rest) => Some (PyInt (- z), rest)
        | None => None
        end
      else
        match scan_nat s with
        | Some (z, rest) => Some (PyInt z, rest)
        | None => None
        end
  | EmptyString => None
  end.

(** [scan_once], [JSONArray] and [JSONObject].  Every call consumes at
    least one character before it recurses, so a fuel above the length of
    the text is never used up. *)
Fixpoint parse_value (n : nat) (s : string) {struct n} : option (pyval * string) :=
  match n with
  | O => None
  | S n =>
      match s with
      | EmptyString => None
      | String c r =>
          if Ascii.eqb c dquote then
            match scanstring r with
            | Some (t, rest) => Some (PyStr t, rest)
            | None => None
            end
          else if Ascii.eqb c "{" then
            match skip_ws r with
            | String c1 r1 =>
                if Ascii.eqb c1 "}" then Some (PyDict [], r1)
                else if Ascii.eqb c1 dquote then parse_members n r1 []
                else None
            | EmptyString => None
            end
          else if Ascii.eqb c "[" then
            match skip_ws r with
            | String c1 r1 =>
                if Ascii.eqb c1 "]" then Some (PyList [], r1)
                else parse_elems n (String c1 r1) []
            | EmptyString => None
            end
          else if startswith "null" s then Some (PyNone, str_drop 4 s)
          else if startswith "true" s then Some (PyBool true, str_drop 4 s)
          else if startswith "false" s then Some (PyBool false, str_drop 5 s)
          else scan_number s
      end
  end
with parse_elems (n : nat) (s : string) (acc : list pyval) {struct n}
  : option (pyval * string) :=
  match n with
  | O => None
  | S n =>
      match parse_value n s with
      | Some (v, r) =>
          match skip_ws r with
          | String c r1 =>
              if Ascii.eqb c "]" then Some (PyList (acc ++ [v]), r1)
              else if Ascii.eqb c "," then parse_elems n (skip_ws r1) (acc ++ [v])
              else None
          | EmptyString => None
          end
      | None => None
      end
  end
with parse_members (n : nat) (s : string) (acc : list (string * pyval)) {struct n}
  : option (pyval * string) :=
  match n with
  | O => None
  | S n =>
      match scanstring s with
      | Some (key, r) =>
          match skip_ws r with
          | String c0 r0 =>
              if Ascii.eqb c0 ":" then
                match parse_value n (skip_ws r0) with
                | Some (v, r1) =>
                    match skip_ws r1 with
                    | String c r2 =>
                        if Ascii.eqb c "}" then Some (PyDict (dict_set key v acc), r2)
                        else if Ascii.eqb c "," then
                          match skip_ws r2 with
                          | String c' r3 =>
                              if Ascii.eqb c' dquote
                              then parse_members n r3 (dict_set key v acc)
                              else None
                          | EmptyString => None
                          end
                        else None
                    | EmptyString => None
                    end
                | None => None
                end
              else None
          | EmptyString => None
          end
      | None => None
      end
  end.

(** [json.loads(s)]: [Some v] for the value Python returns, [None] where it
    raises [JSONDecodeError] (or leaves the model, see above). *)
Definition json_loads (s : string) : option pyval :=
  let s1 := skip_ws s in
  match parse_value (S (String.length s1)) s1 with
  | Some (v, rest) =>
      match skip_ws rest with
      | EmptyString => Some v
      | _ => None
      end
  | None => None
  end.

(** ** [json.dumps] *)

Definition hex_digit (n : N) : ascii :=
  if (n <? 10)%N then ascii_of_N (48 + n) else ascii_of_N (87 + n).

(** [ensure_ascii] escaping of one character. *)
Definition escape_char (c : ascii) : string :=
  if Ascii.eqb c dquote then String "\" (String dquote EmptyString)
  else if Ascii.eqb c "\" then "\\"
  else if Ascii.eqb c "010" then "\n"
  else if Ascii.eqb c "013" then "\r"
  else if Ascii.eqb c "009" then "\t"
  else if Ascii.eqb c "008" then "\b"
  else if Ascii.eqb c "012" then "\f"
  else if between 32 126 c then String c EmptyString
  else "\u00" +:+ String (hex_digit (code c / 16)) (String (hex_digit (code c mod 16)) EmptyString).

Fixpoint escape_body (s : string) : string :=
  match s with
  | EmptyString => EmptyString
  | String c r => escape_char c +:+ escape_body r
  end.

Definition encode_str (s : string) : string :=
  String dquote (escape_body s +:+ String dquote EmptyString).

Definition digits_string (d : Decimal.uint) : string := NilEmpty.string_of_uint d.

(** [repr] of an [int]. *)
Definition int_repr (z : Z) : string :=
  match Z.to_int z with
  | Decimal.Pos d => digits_string d
  | Decimal.Neg d => String "-" (digits_string d)
  end.

Fixpoint spaces (n : nat) : string :=
  match n with
  | O => EmptyString
  | S k => String " " (spaces k)
  end.

Definition newline : string := String "010" EmptyString.

(** The line break before an item at nesting [level], when [indent] is
    given. *)
Definition newline_indent (indent : option nat) (level : nat) : string :=
  match indent with
  | Some w => newline +:+ spaces (w * level)
  | None => EmptyString
  end.

(** What stands between two items: [", "] on one line, [","] and a line
    break when [indent] is given. *)
Definition item_sep (indent : option nat) (level : nat) : string :=
  match indent with
  | Some _ => "," +:+ newline_indent indent level
  | None => ", "
  end.

Fixpoint encode (indent : option nat) (level : nat) (v : pyval) {struct v} : string :=
  match v with
  | PyNone => "null"
  | PyBool true => "true"
  | PyBool false => "false"
  | PyInt z => int_repr z
  | PyStr s => encode_str s
  | PyList [] => "[]"
  | PyList l =>
      "[" +:+ newline_indent indent (S level)
      +:+ py_join (item_sep indent (S level)) (map (encode indent (S level)) l)
      +:+ newline_indent indent level +:+ "]"
  | PyDict [] => "{}"
  | PyDict d =>
      "{" +:+ newline_indent indent (S level)
      +:+ py_join (item_sep indent (S level))
            (map (λ kv, encode_str (fst kv) +:+ ": " +:+ encode indent (S level) (snd kv)) d)
      +:+ newline_indent indent level +:+ "}"
  end.

(** [json.dumps(v)] and [json.dumps(v, indent=w)]. *)
Definition json_dumps (v : pyval) : string := encode None O v.
Definition json_dumps_indent (w : nat) (v : pyval) : string := encode (Some w) O v.

End Json.
Import Json.

(* ===================================================================== *)
(** * Session state, exceptions and events                                *)
(* ===================================================================== *)

Module Session.

(** The session state: [ctx.session.state], [callback_context.state] and
    [tool_context.state] all name this one mapping. *)
Abbreviation state := (gmap string pyval).

(** [state.get(key, default)]. *)
Definition get (st : state) (key : string) (default : pyval) : pyval :=
  match st !! key with
  | Some v => v
  | None => default
  end.

(** A computation that may raise: [Raise e] carries the exception's class
    name. *)
Inductive result (A : Type) : Type :=
| Ok (a : A)
| Raise (e : string).
Global Arguments Ok {A} a.
Global Arguments Raise {A} e.

Global Instance result_ret : MRet result := λ A a, Ok a.
Global Instance result_bind : MBind result := λ A B f m,
  match m with
  | Ok a => f a
  | Raise e => Raise e
  end.

(** [x + 1] style addition, [x >= y], [len(x)], [x in c], [l.append(x)],
    [l[i]] on Python objects, with the exceptions of the dynamic typing. *)
Definition as_int (v : pyval) : option Z :=
  match v with
  | PyInt z => Some z
  | PyBool b => Some (Z.b2z b)
  | _ => None
  end.

Definition py_add (x y : pyval) : result pyval :=
  match as_int x, as_int y with
  | Some a, Some b => Ok (PyInt (a + b))
  | _, _ =>
      match x, y with
      | PyStr a, PyStr b => Ok (PyStr (a +:+ b))
      | PyList a, PyList b => Ok (PyList (a ++ b))
      | _, _ => Raise "TypeError"
      end
  end.

Fixpoint str_leb (a b : string) : bool :=
  match a, b with
  | EmptyString, _ => true
  | String _ _, EmptyString => false
  | String x a', String y b' =>
      if (code x <? code y)%N then true
      else if (code y <? code x)%N then false
      else str_leb a' b'
  end.

Definition py_ge (x y : pyval) : result bool :=
  match as_int x, as_int y with
  | Some a, Some b => Ok (b <=? a)
  | _, _ =>
      match x, y with
      | PyStr a, PyStr b => Ok (str_leb b a)
      | _, _ => Raise "TypeError"
      end
  end.

Definition py_len (x : pyval) : result Z :=
  match x with
  | PyStr s => Ok (Z.of_nat (String.length s))
  | PyList l => Ok (Z.of_nat (length l))
  | PyDict d => Ok (Z.of_nat (length d))
  | _ => Raise "TypeError"
  end.

Definition py_contains (x c : pyval) : result bool :=
  match c with
  | PyList l => Ok (list_contains x l)
  | PyStr s =>
      match x with
      | PyStr t => Ok (py_in t s)
      | _ => Raise "TypeError"
      end
  | PyDict d =>
      match x with
      | PyStr k => Ok (match dict_get k d with Some _ => true | None => false end)
      | PyList _ | PyDict _ => Raise "TypeError"
      | _ => Ok false
      end
  | _ => Raise "TypeError"
  end.

Definition py_append (c x : pyval) : result pyval :=
  match c with
  | PyList l => Ok (PyList (l ++ [x]))
  | _ => Raise "AttributeError"
  end.

(** [c[i]] on a list or a string, negative indices counting from the
    end. *)
Definition py_index (c i : pyval) : result pyval :=
  match c, as_int i with
  | PyList l, Some z =>
      let n := Z.of_nat (length l) in
      let z' := if z <? 0 then z + n else z in
      if (0 <=? z') && (z' <? n)
      then match l !! Z.to_nat z' with
           | Some v => Ok v
           | None => Raise "IndexError"
           end
      else Raise "IndexError"
  | PyStr s, Some z =>
      let n := Z.of_nat (String.length s) in
      let z' := if z <? 0 then z + n else z in
      if (0 <=? z') && (z' <? n)
      then Ok (PyStr (str_take 1 (str_drop (Z.to_nat z') s)))
      else Raise "IndexError"
  | PyDict _, _ => Raise "KeyError"
  | _, _ => Raise "TypeError"
  end.

(** What an [Event]'s text is built from: a literal, or one of the
    f-strings of the two control agents with the values it interpolates
    ([RetryAttempt n] is Retry attempt n of 5). *)
Inductive content : Type :=
| Text (s : string)
| RetryAttempt (attempt : pyval)
| AllProcessed (total processed : pyval)
| ProcessingCompany (position total name : pyval).

(** An ADK [Event], as far as the loop agents read it:
    [actions.escalate] asks the enclosing loop to stop. *)
Record event : Type := Event {
  author : string;
  body : content;
  escalate : bool
}.

End Session.
Import Session.

(* ===================================================================== *)
(** * annual_report_parser/agent.py: callbacks                            *)
(* ===================================================================== *)

Module Callbacks.
Import Re.

(** The class [[^...]] of the characters that are neither white space nor
    listed in [chars]. *)
Definition none_of (chars : string) : regex :=
  Chr (λ c, negb (py_isspace c || mem c chars)).

(** The characters [<], [>], the double quote, the apostrophe and the
    backquote, which no URL pattern lets into a URL. *)
Definition url_stop : string := String dquote "<>'`".

(** [pdf_patterns] of [process_finder_output], each compiled with
    [re.IGNORECASE].  With Q for the class of the characters that are
    neither white space nor in [url_stop]:
    - [https?://] one or more of Q minus the brackets, braces, bar,
      backslash and caret, then [\.pdf], then optionally [\?] and Q*;
    - [https?://] Q+ [/files/] Q+ [\.pdf];
    - [https?://] Q+ [/doc] Q* [\.pdf]. *)
Definition http_scheme : regex :=
  Seq (lit_ci "http") (Seq (Opt (chr_ci "s")) (lit_ci "://")).

Definition pdf_patterns : list regex :=
  [ Seq http_scheme
      (Seq (Plus (none_of (url_stop +:+ "[]{}|\^")))
         (Seq (lit_ci ".pdf")
            (Opt (Seq (chr "?") (Star (none_of url_stop))))));
    Seq http_scheme
      (Seq (Plus (none_of url_stop))
         (Seq (lit_ci "/files/")
            (Seq (Plus (none_of url_stop)) (lit_ci ".pdf"))));
    Seq http_scheme
      (Seq (Plus (none_of url_stop))
         (Seq (lit_ci "/doc")
            (Seq (Star (none_of url_stop)) (lit_ci ".pdf")))) ].

(** The characters the [url.rstrip(...)] of the source removes: the
    punctuation [.,;:!?)]], the apostrophe and the double quote. *)
Definition url_trailing : string := String dquote ".,;:!?)]'".

(** The two nested loops that fill [found_urls]: every match of every
    pattern, trimmed, kept when not seen before. *)
Definition add_url (found_urls : list string) (url : string) : list string :=
  let url := py_rstrip url_trailing url in
  if existsb (String.eqb url) found_urls then found_urls
  else found_urls ++ [url].

Definition collect_urls (finder_output : string) : list string :=
  foldl (λ found pattern, foldl add_url found (findall pattern finder_output))
        [] pdf_patterns.

Definition preferred_domains : list string :=
  ["investor"; "ir."; "annualreport"; "q4cdn"; "sec.gov"].

(** The inner [for domain in preferred_domains] with its [break]: the new
    value of [best_url] after one [url] has been looked at. *)
Fixpoint scan_domains (domains : list string) (url best_url : string) : string :=
  match domains with
  | [] => best_url
  | domain :: rest =>
      if py_in domain (py_lower url) then url
      else scan_domains rest url best_url
  end.

(** [best_url = found_urls[0]] followed by the outer
    [for url in found_urls]. *)
Definition choose_best_url (first : string) (found_urls : list string) : string :=
  foldl (λ best_url url, scan_domains preferred_domains url best_url)
        first found_urls.

Definition process_finder_output (st : state) : state :=
  let finder_output := get st "pdf_url_raw" (PyStr "") in
  let st := <["pdf_url" := PyStr ""]> st in
  let st := <["url_valid" := PyBool false]> st in
  match finder_output with
  | PyStr text =>
      if py_in "ERROR:" text || py_in "no pdf" (py_lower text)
      then <["finder_error" := finder_output]> st
      else
        match collect_urls text with
        | first :: rest =>
            <["pdf_url" := PyStr (choose_best_url first (first :: rest))]> st
        | [] =>
            <["finder_error" := PyStr "No PDF URL found in search results"]> st
        end
  | _ => st
  end.

(** The two patterns of [process_download_output]: a brace-free object
    text that holds the quoted word success, and a Windows path to a PDF
    (a letter, a colon, a slash or backslash, then one or more characters
    that are not white space, quotes, angle brackets or a bar, then
    [.pdf]). *)
Definition no_brace : regex := Chr (λ c, negb (mem c "{}")).

Definition success_object : regex :=
  Seq (chr "{")
    (Seq (Star no_brace)
       (Seq (lit (q "'success'"))
          (Seq (Star no_brace) (chr "}")))).

Definition windows_pdf_path : regex :=
  Seq (Chr is_alpha)
    (Seq (chr ":")
       (Seq (Chr (λ c, mem c "\/"))
          (Seq (Plus (none_of (String dquote "'<>|"))) (lit ".pdf")))).

Section Download.

(** [os.path.exists], the one reading of the file system. *)
Variable path_exists : string → bool.

(** [d.get(k)] and [d.get(k, default)] on a decoded JSON value; the value
    decoded from a match of [success_object] is always a dict. *)
Definition obj_get (v : pyval) (k : string) (default : pyval) : pyval :=
  match v with
  | PyDict d => match dict_get k d with Some x => x | None => default end
  | _ => default
  end.

Definition process_download_output (st : state) : state :=
  let download_result := get st "download_result" (PyStr "") in
  let st := <["pdf_file_path" := PyStr ""]> st in
  let st := <["download_success" := PyBool false]> st in
  match download_result with
  | PyStr text =>
      match search success_object text with
      | Some json_str =>
          match json_loads json_str with
          | Some result =>
              if truthy (obj_get result "success" PyNone)
                 && truthy (obj_get result "file_path" PyNone)
              then
                let st := <["pdf_file_path" := obj_get result "file_path" PyNone]> st in
                let st := <["pdf_file_size" := obj_get result "file_size_mb" (PyInt 0)]> st in
                <["download_success" := PyBool true]> st
              else
                <["download_error" :=
                    obj_get result "error" (PyStr "Unknown download error")]> st
          | None =>
              (* except json.JSONDecodeError *)
              if py_in ".pdf" (py_lower text) then
                match search windows_pdf_path text with
                | Some path =>
                    if path_exists path then
                      let st := <["pdf_file_path" := PyStr path]> st in
                      <["download_success" := PyBool true]> st
                    else st
                | None => st
                end
              else st
          end
      | None => st
      end
  | _ => st
  end.

End Download.

Definition combine_analysis_results (st : state) : state :=
  <["financial_analysis" := get st "raw_analysis" (PyStr "")]> st.

(** [^```[a-zA-Z]*\s*] and [\s*```$], the two substitutions that take a
    Markdown fence off a model reply. *)
Definition fence_open : regex :=
  Seq Bol (Seq (lit "```") (Seq (Star (Chr is_alpha)) (Star (Chr py_isspace)))).

Definition fence_close : regex :=
  Seq (Star (Chr py_isspace)) (Seq (lit "```") Eol).

Definition strip_fence (s : string) : string :=
  if startswith "```" s
  then sub fence_close "" (sub fence_open "" s)
  else s.

Definition format_final_output (st : state) : state :=
  let summary := get st "final_summary" (PyStr "") in
  match summary with
  | PyStr text =>
      let clean_summary := strip_fence (py_strip text) in
      match json_loads clean_summary with
      | Some parsed => <["structured_output" := PyStr (json_dumps_indent 2 parsed)]> st
      | None => <["structured_output" := summary]> st
      end
  | _ => st
  end.

Definition track_processed_company (st : state) : result state :=
  let company_name := get st "company_name" (PyStr "") in
  let processed := get st "processed_companies" (PyList []) in
  st ← (if truthy company_name then
          seen ← py_contains company_name processed;
          if negb seen then
            processed ← py_append processed company_name;
            mret (<["processed_companies" := processed]> st)
          else mret st
        else mret st);
  let current_index := get st "current_company_index" (PyInt 0) in
  next ← py_add current_index (PyInt 1);
  mret (<["current_company_index" := next]> st).

End Callbacks.
Import Callbacks.

(* ===================================================================== *)
(** * annual_report_parser: control agents, loops and tools               *)
(* ===================================================================== *)

Module Agents.

(** An agent run: the new state and the events it yields. *)
Definition agent : Type := state → result (state * list event).

(** An LLM [Agent] with an [output_key] and an [after_agent_callback]:
    the model's reply is stored under [output_key], then the callback
    runs.  The reply is the one thing the orchestration does not decide. *)
Definition llm_agent (name output_key : string)
    (after_agent_callback : state → result state) (reply : string) : agent :=
  λ st,
    st ← after_agent_callback (<[output_key := PyStr reply]> st);
    mret (st, [Event name (Text reply) false]).

Definition no_callback (st : state) : result state := Ok st.
Definition pure_callback (f : state → state) (st : state) : result state := Ok (f st).

Definition max_attempts : Z := 5.

(** [DownloadCheckerAgent._run_async_impl]. *)
Definition download_checker : agent :=
  λ st,
    let download_success := get st "download_success" (PyBool false) in
    let attempt := get st "pdf_find_attempt" (PyInt 0) in
    if truthy download_success then
      mret (st, [Event "download_checker"
                   (Text "PDF found and downloaded successfully.") true])
    else
      spent ← py_ge attempt (PyInt max_attempts);
      if spent : bool then
        mret (st, [Event "download_checker"
                     (Text "Failed to find PDF after 5 attempts.") true])
      else
        next ← py_add attempt (PyInt 1);
        mret (<["pdf_find_attempt" := next]> st,
              [Event "download_checker" (RetryAttempt next) false]).

(** [CompanyIteratorAgent._run_async_impl]. *)
Definition company_iterator : agent :=
  λ st,
    let company_list := get st "company_list" (PyList []) in
    let current_index := get st "current_company_index" (PyInt 0) in
    n ← py_len company_list;
    let total := get st "total_companies" (PyInt n) in
    all_done ← py_ge current_index total;
    if all_done : bool then
      let processed := get st "processed_companies" (PyList []) in
      mret (st, [Event "company_iterator" (AllProcessed total processed) true])
    else
      company_name ← py_index company_list current_index;
      let st := <["company_name" := company_name]> st in
      (* Reset per-company state *)
      let st := <["pdf_find_attempt" := PyInt 0]> st in
      let st := <["tried_urls" := PyList []]> st in
      let st := <["pdf_url" := PyStr ""]> st in
      let st := <["pdf_file_path" := PyStr ""]> st in
      let st := <["download_success" := PyBool false]> st in
      let st := <["raw_analysis" := PyStr ""]> st in
      let st := <["financial_analysis" := PyStr ""]> st in
      let st := <["final_summary" := PyStr ""]> st in
      position ← py_add current_index (PyInt 1);
      mret (st, [Event "company_iterator"
                   (ProcessingCompany position total company_name) false]).

(** ** loop_tools.py *)

(** [reset_company_state]: the new state and the dict the tool returns. *)
Definition reset_company_state (st : state) : state * pyval :=
  (* Reset retry counters *)
  let st := <["pdf_find_attempt" := PyInt 0]> st in
  let st := <["tried_urls" := PyList []]> st in
  (* Reset intermediate results *)
  let st := <["pdf_url" := PyStr ""]> st in
  let st := <["pdf_url_raw" := PyStr ""]> st in
  let st := <["pdf_file_path" := PyStr ""]> st in
  let st := <["download_result" := PyStr ""]> st in
  let st := <["raw_analysis" := PyStr ""]> st in
  let st := <["financial_analysis" := PyStr ""]> st in
  let st := <["final_summary" := PyStr ""]> st in
  let st := <["structured_output" := PyStr ""]> st in
  let company_name := get st "company_name" (PyStr "Unknown") in
  (st, PyDict [("status", PyStr "reset"); ("company", company_name)]).

(** [increment_retry_counter]. *)
Definition increment_retry_counter (st : state) : result (state * pyval) :=
  let current_attempt := get st "pdf_find_attempt" (PyInt 0) in
  new_attempt ← py_add current_attempt (PyInt 1);
  let st := <["pdf_find_attempt" := new_attempt]> st in
  let tried_urls := get st "tried_urls" (PyList []) in
  let current_url := get st "pdf_url" (PyStr "") in
  '(st, tried_urls) ←
     (if truthy current_url then
        seen ← py_contains current_url tried_urls;
        if negb seen then
          tried_urls ← py_append tried_urls current_url;
          mret (<["tried_urls" := tried_urls]> st, tried_urls)
        else mret (st, tried_urls)
      else mret (st, tried_urls));
  let max_retries := 5 in
  match as_int new_attempt with
  | Some a =>
      let remaining := max_retries - a in
      mret (st, PyDict [("attempt", new_attempt);
                        ("max_retries", PyInt max_retries);
                        ("remaining_retries", PyInt remaining);
                        ("should_continue", PyBool (0 <? remaining));
                        ("tried_urls", tried_urls)])
  | None => Raise "TypeError"
  end.

(** ** The ADK loop

    [LoopAgent] runs its sub-agents in order, pass after pass; a sub-agent
    one of whose events carries [escalate] ends the loop at once, and
    [max_iterations] passes end it otherwise. *)
Inductive loop_exit : Type :=
| Escalated
| MaxIterations.

Record loop_run : Type := LoopRun {
  final_state : state;
  events : list event;
  passes : nat;
  exit : loop_exit
}.

(** One pass: [Some] events up to and including the escalating
    sub-agent's, with [true] when one escalated. *)
Fixpoint run_sub_agents (sub_agents : list agent) (st : state)
  : result (state * list event * bool) :=
  match sub_agents with
  | [] => mret (st, [], false)
  | a :: rest =>
      '(st, evs) ← a st;
      if existsb escalate evs then mret (st, evs, true)
      else
        '(st, evs', esc) ← run_sub_agents rest st;
        mret (st, evs ++ evs', esc)
  end.

(** [remaining] counts the passes [max_iterations] still allows,
    [times_looped] the passes begun. *)
Fixpoint loop_agent (sub_agents : nat → list agent)
    (remaining times_looped : nat) (st : state) : result loop_run :=
  match remaining with
  | O => mret (LoopRun st [] times_looped MaxIterations)
  | S k =>
      '(st, evs, esc) ← run_sub_agents (sub_agents times_looped) st;
      if esc : bool then mret (LoopRun st evs (S times_looped) Escalated)
      else
        r ← loop_agent sub_agents k (S times_looped) st;
        mret (LoopRun (final_state r) (evs ++ events r) (passes r) (exit r))
  end.

Section RetryLoop.

Variable path_exists : string → bool.

(** What the three LLM stages of one pass reply. *)
Record replies : Type := Replies {
  finder_reply : string;
  validator_reply : string;
  downloader_reply : string
}.

Definition alternative_finder_agent (r : replies) : agent :=
  llm_agent "alternative_finder" "pdf_url_raw"
    (pure_callback process_finder_output) (finder_reply r).

Definition url_validator_agent (r : replies) : agent :=
  llm_agent "url_validator" "url_validation_result" no_callback (validator_reply r).

Definition downloader_agent (r : replies) : agent :=
  llm_agent "pdf_downloader" "download_result"
    (pure_callback (process_download_output path_exists)) (downloader_reply r).

(** [pdf_find_retry_loop]: finder, validator, downloader, checker, with
    [max_iterations=5].  [oracle i] gives the replies of pass [i]. *)
Definition pdf_find_retry_loop (oracle : nat → replies) (st : state)
  : result loop_run :=
  loop_agent
    (λ i, [alternative_finder_agent (oracle i);
           url_validator_agent (oracle i);
           downloader_agent (oracle i);
           download_checker])
    5 0 st.

End RetryLoop.

End Agents.
Import Agents.

(* ===================================================================== *)
(** * annual_report_parser/custom_tools.py: the Pinecone namespace        *)
(* ===================================================================== *)

Module Tools.
Import Re.

(** The class [[^a-zA-Z0-9_-]]. *)
Definition namespace_keep (c : ascii) : bool :=
  is_alpha c || is_digit c || mem c "_-".

Definition not_namespace_char : regex := Chr (λ c, negb (namespace_keep c)).

(** The namespace [store_in_pinecone] builds from [company_name]. *)
Definition store_namespace (company_name : string) : string :=
  py_strip_chars "_" (sub not_namespace_char "_" (py_lower company_name)).

(** The namespace [search_pinecone] builds from [company_filter]. *)
Definition search_namespace (company_filter : string) : string :=
  if negb (String.eqb company_filter "")
  then py_strip_chars "_" (sub not_namespace_char "_" (py_lower company_filter))
  else "".

End Tools.
Import Tools.

(* ===================================================================== *)
(** * company_profiler: the envelope parser, the fan-in and the server    *)
(* ===================================================================== *)

Module Profiler.
Import Re.

(** The delimiter between A2UI messages. *)
Definition a2ui_delimiter : string := "---a2ui_JSON---".

(** The pattern [\{[\s\S]*\}] (a brace, anything, a brace). *)
Definition json_object : regex :=
  Seq (chr "{") (Seq (Star (Chr (λ _, true))) (chr "}")).

(** The [try] block over one stripped, non-empty segment: [Some parsed]
    when the segment adds a message, [None] when it is passed over (no
    match, a [JSONDecodeError], or a value that is no dict). *)
Definition decode_object (part : string) : option pyval :=
  match search json_object part with
  | Some json_str =>
      match json_loads json_str with
      | Some parsed => if is_dict parsed then Some parsed else None
      | None => None
      end
  | None => None
  end.

(** The body of the [for part in parts] loop of agent.py, on the
    accumulator [messages]. *)
Definition agent_step (messages : list pyval) (part : string) : list pyval :=
  let part := py_strip part in
  if String.eqb part "" then messages                  (* continue *)
  else
    match decode_object part with
    | Some parsed => messages ++ [parsed]
    | None => messages
    end.

(** The same loop body in a2a_server.py, which first takes Markdown
    fence characters off both ends:
    [part.strip().lstrip("```json").rstrip("```").strip()]. *)
Definition unfence (part : string) : string :=
  py_strip (py_rstrip "```" (py_lstrip "```json" (py_strip part))).

Definition server_step (messages : list pyval) (part : string) : list pyval :=
  let part := py_strip part in
  if String.eqb part "" then messages
  else
    match decode_object (unfence part) with
    | Some parsed => messages ++ [parsed]
    | None => messages
    end.

(** The loop over the segments of [text] cut at [delimiter]. *)
Definition extract_with (step : list pyval → string → list pyval)
    (delimiter text : string) : list pyval :=
  foldl step [] (py_split delimiter text).

(** [extract_a2ui_messages] of agent.py and of a2a_server.py. *)
Definition extract_a2ui_messages (text : string) : list pyval :=
  extract_with agent_step a2ui_delimiter text.

Definition server_extract_a2ui_messages (text : string) : list pyval :=
  extract_with server_step a2ui_delimiter text.

(** [process_a2ui_output]. *)
Definition process_a2ui_output (st : state) : state :=
  match get st "a2ui_output" (PyStr "") with
  | PyStr text =>
      match extract_a2ui_messages text with
      | [] => st
      | messages =>
          let st := <["a2ui_messages" := PyList messages]> st in
          <["a2ui_output_parsed" := PyStr (json_dumps (PyList messages))]> st
      end
  | _ => st
  end.

(** ** Fan-out and fan-in *)

(** The state key [company_data_i] of gatherer [i]. *)
Definition shard_key (i : nat) : string :=
  "company_data_" +:+ int_repr (Z.of_nat i).

(** The body of [for i in range(5)] in [combine_company_data], on the
    accumulator [all_companies]. *)
Definition combine_step (st : state) (all_companies : list pyval) (i : nat)
  : list pyval :=
  match get st (shard_key i) (PyStr "[]") with
  | PyStr text =>
      match json_loads text with
      | Some (PyList parsed) => all_companies ++ parsed     (* extend *)
      | Some _ => all_companies
      | None => all_companies                               (* continue *)
      end
  | _ => all_companies
  end.

Definition combined_companies (st : state) : list pyval :=
  foldl (combine_step st) [] (seq 0 5).

Definition combine_company_data (st : state) : state :=
  <["company_data" := PyStr (json_dumps (PyList (combined_companies st)))]> st.

(** [parallel_research]: the five gatherers run concurrently and each
    stores its reply under its own [output_key].  [completion] is the
    order in which the workers finish; a worker whose task fails stores
    nothing ([reply i = None]). *)
Definition gatherer_done (reply : nat → option string) (st : state) (i : nat)
  : state :=
  match reply i with
  | Some text => <[shard_key i := PyStr text]> st
  | None => st
  end.

Definition parallel_research (reply : nat → option string)
    (completion : list nat) (st : state) : state :=
  foldl (gatherer_done reply) st completion.

(** ** a2a_server.py: [handle_message] *)

(** [d.get(k, default)] on an object that has to be a dict. *)
Definition py_get (d : pyval) (k : string) (default : pyval) : result pyval :=
  match d with
  | PyDict l => Ok (match dict_get k l with Some v => v | None => default end)
  | _ => Raise "AttributeError"
  end.

(** [for part in parts]: the items the loop visits. *)
Definition py_iter (v : pyval) : result (list pyval) :=
  match v with
  | PyList l => Ok l
  | PyStr s => Ok (map (λ c, PyStr (String c "")) (String.list_ascii_of_string s))
  | PyDict d => Ok (map (λ kv, PyStr (fst kv)) d)
  | _ => Raise "TypeError"
  end.

(** The loop that picks the query out of the message parts, with its two
    [break]s: the text of the first text part, or the dump of the first
    data part that holds a userAction. *)
Fixpoint find_query (parts : list pyval) : result pyval :=
  match parts with
  | [] => Ok (PyStr "")
  | part :: rest =>
      kind ← py_get part "kind" PyNone;
      if py_eqb kind (PyStr "text") then py_get part "text" (PyStr "")
      else if py_eqb kind (PyStr "data") then
        data ← py_get part "data" (PyDict []);
        has ← py_contains (PyStr "userAction") data;
        if has : bool then Ok (PyStr (json_dumps data))
        else find_query rest
      else find_query rest
  end.

(** An event of the runner, as [handle_message] reads it. *)
Record run_event : Type := RunEvent {
  is_final_response : bool;
  ev_author : string;
  ev_parts : list string     (* the [text] of each content part, empty when it has none *)
}.

(** The [async for event in runner.run_async(...)] loop, on
    [final_response_content] ([None] at first). *)
Fixpoint last_response (evs : list run_event) (final : option string)
  : option string :=
  match evs with
  | [] => final
  | ev :: rest =>
      if is_final_response ev then
        match ev_parts ev with
        | [] => last_response rest final
        | ps =>
            let text_content :=
              py_join newline (filter (λ t, t ≠ "") ps) in
            if py_in a2ui_delimiter text_content
               || String.eqb (ev_author ev) "a2ui_generator"
            then Some text_content                      (* break *)
            else
              match final with
              | Some (String _ _) => last_response rest final
              | _ => last_response rest (Some text_content)
              end
        end
      else last_response rest final
  end.

(** [s.split(sep, 1)] when [sep] occurs in [s]: what stands before the
    first occurrence and what stands after it. *)
Fixpoint split_once (sep s : string) : string * string :=
  if startswith sep s then (EmptyString, str_drop (String.length sep) s)
  else
    match s with
    | EmptyString => (EmptyString, EmptyString)
    | String c r => let '(a, b) := split_once sep r in (String c a, b)
    end.

Inductive response : Type :=
| JSONResponse (content : pyval) (status_code : Z).

(** What one call of [handle_message] does: the response, and the
    queries it handed to the pipeline agent's runner. *)
Record handled : Type := Handled {
  reply : response;
  agent_queries : list string
}.

Section Server.

(** The two constants of [company_profiler.a2ui_extension]. *)
Variable A2UI_EXTENSION_URI A2UI_MIME_TYPE : string.

(** The pipeline behind [runner.run_async]: the events of a run, or the
    text of the exception it raised. *)
Variable run_agent : string → string + list run_event.

(** An inbound request: the decoded body (or the text of the exception
    [request.json()] raised), the [X-A2A-Extensions] header, and the three
    [uuid4] values the handler may draw. *)
Record request : Type := Request {
  json_body : string + pyval;
  extensions_header : string;
  fresh_request_id : string;
  fresh_task_id : string;
  fresh_context_id : string
}.

Definition text_part (text : string) : pyval :=
  PyDict [("kind", PyStr "text"); ("text", PyStr text)].

Definition data_part (msg : pyval) : pyval :=
  PyDict [("kind", PyStr "data"); ("data", msg); ("mimeType", PyStr A2UI_MIME_TYPE)].

Definition rpc_error (request_id : pyval) (code : Z) (message : string) : response :=
  JSONResponse
    (PyDict [("jsonrpc", PyStr "2.0"); ("id", request_id);
             ("error", PyDict [("code", PyInt code); ("message", PyStr message)])])
    200.

Definition response_parts (a2ui_requested : bool) (final : option string)
  : list pyval :=
  match final with
  | Some (String c r as final_response_content) =>
      if py_in a2ui_delimiter final_response_content && a2ui_requested then
        let '(text, json_part) := split_once a2ui_delimiter final_response_content in
        (if String.eqb (py_strip text) "" then [] else [text_part (py_strip text)])
        ++ map data_part (server_extract_a2ui_messages (a2ui_delimiter +:+ json_part))
      else [text_part final_response_content]
  | _ => [text_part "I'm sorry, I encountered an error processing your request."]
  end.

Definition handle_message (req : request) : result handled :=
  match json_body req with
  | inl e =>
      Ok (Handled
            (JSONResponse (PyDict [("error", PyDict [("message", PyStr e)])]) 400)
            [])
  | inr body =>
      _method ← py_get body "method" (PyStr "");
      params ← py_get body "params" (PyDict []);
      request_id ← py_get body "id" (PyStr (fresh_request_id req));
      let a2ui_requested := py_in A2UI_EXTENSION_URI (extensions_header req) in
      message_data ← py_get params "message" (PyDict []);
      parts ← py_get message_data "parts" (PyList []);
      items ← py_iter parts;
      query ← find_query items;
      if negb (truthy query) then
        Ok (Handled (rpc_error request_id (-32600) "No message content provided") [])
      else
        match query with
        | PyStr query =>
            task_id ← py_get params "id" (PyStr (fresh_task_id req));
            let context_id := fresh_context_id req in
            match run_agent query with
            | inl e =>
                Ok (Handled
                      (rpc_error request_id (-32603) ("Agent execution failed: " +:+ e))
                      [query])
            | inr evs =>
                let final := last_response evs None in
                Ok (Handled
                      (JSONResponse
                         (PyDict
                            [("jsonrpc", PyStr "2.0"); ("id", request_id);
                             ("result",
                              PyDict
                                [("kind", PyStr "task"); ("id", task_id);
                                 ("contextId", PyStr context_id);
                                 ("status",
                                  PyDict
                                    [("state", PyStr "input-required");
                                     ("message",
                                      PyDict
                                        [("role", PyStr "agent");
                                         ("parts",
                                          PyList (response_parts a2ui_requested final))])])])])
                         200)
                      [query])
            end
        | _ => Raise "TypeError"    (* query[:100], Part.from_text(text=query) *)
        end
  end.

End Server.

End Profiler.
Import Profiler.

(* ===================================================================== *)
(** * The specification's wording, for comparison with the code           *)
(* ===================================================================== *)

Module Wording.

(** Section 4.3: the first balanced object of a segment, found by
    scanning for the first opening brace and its matching closing brace,
    nested braces counted.  [close_at depth s] is the text of [s] up to the
    brace that closes [depth + 1] open levels. *)
Fixpoint close_at (depth : nat) (s : string) : option string :=
  match s with
  | EmptyString => None
  | String c r =>
      if Ascii.eqb c "{" then String c <$> close_at (S depth) r
      else if Ascii.eqb c "}" then
        match depth with
        | O => Some (String c EmptyString)
        | S d => String c <$> close_at d r
        end
      else String c <$> close_at depth r
  end.

Fixpoint first_balanced_object (s : string) : option string :=
  match s with
  | EmptyString => None
  | String c r =>
      if Ascii.eqb c "{" then String c <$> close_at O r
      else first_balanced_object r
  end.

(** Section 4.3 with that extraction in place of the pattern search. *)
Definition balanced_decode (part : string) : option pyval :=
  match first_balanced_object part with
  | Some json_str =>
      match json_loads json_str with
      | Some parsed => if is_dict parsed then Some parsed else None
      | None => None
      end
  | None => None
  end.

(** Section 6: the namespace key, the identifier lowercased with every
    non-alphanumeric character replaced by an underscore. *)
Fixpoint replace_non_alnum (s : string) : string :=
  match s with
  | EmptyString => EmptyString
  | String c r =>
      String (if is_alpha c || is_digit c then c else "_"%char) (replace_non_alnum r)
  end.

Definition namespace_key (identifier : string) : string :=
  replace_non_alnum (py_lower identifier).

(** Section 4.2, step 3: a candidate is trusted when it contains a string
    of the allow-list; the first trusted candidate wins, the first
    candidate when none is trusted. *)
Definition trusted (url : string) : bool :=
  existsb (λ domain, py_in domain (py_lower url)) preferred_domains.

Definition first_match_wins (first : string) (candidates : list string) : string :=
  match filter (λ u, trusted u = true) candidates with
  | u :: _ => u
  | [] => first
  end.

End Wording.
Import Wording.

(* ===================================================================== *)
(** * Runs and inputs the properties are stated on                        *)
(* ===================================================================== *)

Module Scenarios.

(** A pass whose download fails: read off the downloader's reply alone,
    [process_download_output] leaves [download_success] false. *)
Definition acquisition_fails (path_exists : string → bool) (r : replies) : Prop :=
  get (process_download_output path_exists
         (<["download_result" := PyStr (downloader_reply r)]> ∅))
      "download_success" (PyBool false) = PyBool false.

(** The sub-agents of one pass of [pdf_find_retry_loop] and the events of
    a pass that ends with the checker asking for retry number [n]. *)
Definition pass_agents (path_exists : string → bool) (r : replies) : list agent :=
  [alternative_finder_agent r; url_validator_agent r;
   downloader_agent path_exists r; download_checker].

Definition pass_events (r : replies) (n : Z) : list event :=
  [Event "alternative_finder" (Text (finder_reply r)) false;
   Event "url_validator" (Text (validator_reply r)) false;
   Event "pdf_downloader" (Text (downloader_reply r)) false;
   Event "download_checker" (RetryAttempt (PyInt n)) false].

(** An item for which no PDF is ever found, on a machine without files. *)
Definition never_found (_ : nat) : replies :=
  Replies "ERROR: No PDF found" "URL_INVALID: no url"
          (q "{'success': false, 'error': 'No PDF URL provided'}").

Definition no_files (_ : string) : bool := false.

Definition item_selected : state :=
  <["pdf_find_attempt" := PyInt 0]> (<["company_name" := PyStr "B"]> ∅).

(** The stage outputs that [reset_company_state] clears and
    [company_iterator] does not write. *)
Definition stage_outputs : list string :=
  ["pdf_url_raw"; "download_result"; "structured_output"].

(** The state of a run over the work list A, B once A has been processed
    and tracked, and the state [company_iterator] turns it into. *)
Definition after_first_item : state :=
  <["company_list" := PyList [PyStr "A"; PyStr "B"]]>
  (<["total_companies" := PyInt 2]>
  (<["current_company_index" := PyInt 1]>
  (<["processed_companies" := PyList [PyStr "A"]]>
  (<["company_name" := PyStr "A"]>
  (<["pdf_find_attempt" := PyInt 2]>
  (<["pdf_url_raw" := PyStr "https://investor.a.example/annual-report.pdf"]>
  (<["download_result" := PyStr (q "{'success': true, 'file_path': 'a.pdf'}")]>
  (<["download_success" := PyBool true]>
  (<["final_summary" := PyStr (q "{'company_name': 'A'}")]>
  (<["structured_output" :=
       PyStr (json_dumps_indent 2 (PyDict [("company_name", PyStr "A")]))]>
   ∅)))))))))).

Definition second_item_selected : state :=
  <["final_summary" := PyStr ""]>
  (<["financial_analysis" := PyStr ""]>
  (<["raw_analysis" := PyStr ""]>
  (<["download_success" := PyBool false]>
  (<["pdf_file_path" := PyStr ""]>
  (<["pdf_url" := PyStr ""]>
  (<["tried_urls" := PyList []]>
  (<["pdf_find_attempt" := PyInt 0]>
  (<["company_name" := PyStr "B"]> after_first_item)))))))).

(** A state in which the current item is already in the processed list. *)
Definition tracked_demo : state :=
  <["company_name" := PyStr "Apple Inc."]>
  (<["processed_companies" := PyList [PyStr "Apple Inc."]]>
  (<["current_company_index" := PyInt 0]> ∅)).

(** A message part that carries no query: a dict that is no text part and,
    when it is a data part, holds a dict payload (or none) without the key
    userAction. *)
Definition silent_part (part : pyval) : bool :=
  match part with
  | PyDict d =>
      match dict_get "kind" d with
      | Some (PyStr kind) =>
          if String.eqb kind "text" then false
          else if String.eqb kind "data" then
            match dict_get "data" d with
            | None => true
            | Some (PyDict payload) =>
                match dict_get "userAction" payload with
                | Some _ => false
                | None => true
                end
            | Some _ => false
            end
          else true
      | _ => true
      end
  | _ => false
  end.

(** [params.get("message", {}).get("parts", [])] of a request body. *)
Definition message_parts (body : pyval) : result pyval :=
  params ← py_get body "params" (PyDict []);
  message_data ← py_get params "message" (PyDict []);
  py_get message_data "parts" (PyList []).

Definition file_only_request : pyval :=
  PyDict [("jsonrpc", PyStr "2.0"); ("id", PyInt 7); ("method", PyStr "message/send");
          ("params",
           PyDict [("message",
                    PyDict [("role", PyStr "user");
                            ("parts",
                             PyList [PyDict [("kind", PyStr "file")];
                                     PyDict [("kind", PyStr "data");
                                             ("data", PyDict [("clicked", PyInt 1)])]])])])].

Definition two_trusted_reply : string :=
  "Found https://investor.acme.example/ar2024.pdf and https://ir.acme.example/files/ar2024.pdf".

(** [s] with every character outside the class [a-zA-Z0-9_-] turned into
    an underscore. *)
Fixpoint underscore_others (s : string) : string :=
  match s with
  | EmptyString => EmptyString
  | String c r =>
      String (if namespace_keep c then c else "_"%char) (underscore_others r)
  end.

Fixpoint all_chars (p : ascii → bool) (s : string) : bool :=
  match s with
  | EmptyString => true
  | String c r => p c && all_chars p r
  end.

(** The characters a namespace is made of: [a-z], [0-9], [_] and [-]. *)
Definition namespace_char (c : ascii) : bool :=
  is_lower c || is_digit c || mem c "_-".

(** What shard [i] adds to the merged list: the loop body on an empty
    accumulator. *)
Definition shard_items (st : state) (i : nat) : list pyval := combine_step st [] i.

(** A gatherer's reply for three companies, and a fan-out in which worker
    2 fails. *)
Definition three_companies (tag : string) : string :=
  q ("[{'name': '" +:+ tag +:+ "-a', 'ticker': 'N/A'}, {'name': '" +:+ tag
     +:+ "-b', 'ticker': 'N/A'}, {'name': '" +:+ tag +:+ "-c', 'ticker': 'N/A'}]").

Definition worker_2_fails (i : nat) : option string :=
  if (i =? 2)%nat then None else Some (three_companies (int_repr (Z.of_nat i))).

Definition all_workers_reply (i : nat) : option string :=
  Some (three_companies (int_repr (Z.of_nat i))).

Definition agent_decode (part : string) : option pyval :=
  let part := py_strip part in
  if String.eqb part "" then None else decode_object part.

Definition server_decode (part : string) : option pyval :=
  let part := py_strip part in
  if String.eqb part "" then None else decode_object (unfence part).

Definition non_empty_segment (part : string) : bool :=
  negb (String.eqb (py_strip part) "").

(** What follows the last closing brace of [s], when [s] has one. *)
Fixpoint after_last_close (s : string) : option string :=
  match s with
  | EmptyString => None
  | String c t =>
      match after_last_close t with
      | Some rest => Some rest
      | None => if Ascii.eqb c "}" then Some t else None
      end
  end.

(** The scenario of the specification, with the delimiter of the code
    and with the delimiter the specification writes. *)
Definition scenario_blob : string :=
  q "---a2ui_JSON---{bad json---a2ui_JSON---{'k':1}---a2ui_JSON---".

Definition scenario_blob_sep : string :=
  q "---SEP---{bad json---SEP---{'k':1}---SEP---".

Definition two_objects : string := q "{'a':1} {'b':2}".

(** The fuel [parse_value] needs for a text that encodes [v]: one unit per
    container and per item. *)
Fixpoint fuel_of (v : pyval) : nat :=
  match v with
  | PyList l => S (list_sum (map (λ x, S (fuel_of x)) l))
  | PyDict d => S (list_sum (map (λ kv, S (fuel_of (snd kv))) d))
  | _ => O
  end.

(** A dict as [json.loads] builds them: no key twice, at any depth. *)
Fixpoint distinct_keys (v : pyval) : bool :=
  match v with
  | PyList l => forallb distinct_keys l
  | PyDict d =>
      bool_decide (NoDup (map fst d)) && forallb (λ kv, distinct_keys (snd kv)) d
  | _ => true
  end.

(** What may follow an encoded value: nothing, or a character that cannot
    continue a numeral. *)
Definition ends_value (rest : string) : bool :=
  match rest with
  | EmptyString => true
  | String c _ =>
      negb (is_digit c || Ascii.eqb c "." || Ascii.eqb c "e" || Ascii.eqb c "E")
  end.

(** The characters a JSON value starts with. *)
Definition value_start (c : ascii) : bool :=
  Ascii.eqb c dquote || Ascii.eqb c "{" || Ascii.eqb c "[" || Ascii.eqb c "n"
  || Ascii.eqb c "t" || Ascii.eqb c "f" || Ascii.eqb c "-" || is_digit c.

(** [sep +:+ p] for every [p] of [ps]: what [py_join] puts after the first
    item. *)
Fixpoint join_tail (sep : string) (ps : list string) : string :=
  match ps with
  | [] => EmptyString
  | p :: ps => sep +:+ p +:+ join_tail sep ps
  end.

(** One [key: value] entry of an encoded dict. *)
Definition encode_entry (indent : option nat) (level : nat) (kv : string * pyval) : string :=
  encode_str (fst kv) +:+ ": " +:+ encode indent level (snd kv).

(** What is left of [s] after a closing brace at its head, as the greedy
    object pattern continues once its star has stopped. *)
Definition close_then_rest (b : bool) (s : string) : option string :=
  Re.rx (Re.chr "}") b s (λ _ rest, Some rest).

(** A text that is not empty and does not end in white space. *)
Definition clean_end (s : string) : Prop :=
  s ≠ "" ∧ rstrip_by py_isspace s = s.

(** The dict [parse_members] builds from the pairs it reads, in order. *)
Definition set_all (acc pairs : list (string * pyval)) : list (string * pyval) :=
  foldl (λ a kv, dict_set (fst kv) (snd kv) a) acc pairs.

(** [core] is the text of one JSON value [v]: it starts with the first
    character of the value, ends with its last, and is read back as [v]
    whatever follows it. *)
Definition value_core (core : string) (v : pyval) : Prop :=
  clean_end core
  ∧ (∃ c t, core = String c t ∧ value_start c = true)
  ∧ ∀ m r', (String.length core ≤ m)%nat → ends_value r' = true →
            parse_value m (core +:+ r') = Some (v, r').

(** The same for the items of an array after its opening bracket, up to
    the closing one, and for the members of an object after the quote
    that opens its first key. *)
Definition elems_core (core : string) (l : list pyval) : Prop :=
  clean_end core
  ∧ ∀ m r' acc, (String.length core ≤ m)%nat →
                parse_elems m (core +:+ r') acc = Some (PyList (acc ++ l), r').

Definition members_core (core : string) (pairs : list (string * pyval)) : Prop :=
  clean_end core
  ∧ ∀ m r' acc, (String.length core ≤ m)%nat →
                parse_members m (core +:+ r') acc = Some (PyDict (set_all acc pairs), r').

(** A summary as the summarizer may leave it: JSON with white space around
    it, and the value [json.loads] reads from it. *)
Definition summary_text : string :=
  q "  {'company_name': 'A', 'revenue': [12, -3, 0], 'audited': true, 'notes': null}  ".

Definition summary_value : pyval :=
  PyDict [("company_name", PyStr "A");
          ("revenue", PyList [PyInt 12; PyInt (-3); PyInt 0]);
          ("audited", PyBool true);
          ("notes", PyNone)].

Definition summarized : state :=
  <["final_summary" := PyStr summary_text]> (<["company_name" := PyStr "A"]> ∅).

(* SCENARIOS-END *)
End Scenarios.
Import Scenarios.
Import Re.

(* ===================================================================== *)
(** * annual_report_parser/agent.py: the input parser and the pipeline    *)
(* ===================================================================== *)

Module Intake.

(** [repr] of a [str] in the Latin-1 range: apostrophes around the text,
    double quotes when the text holds an apostrophe and no double quote;
    the quote in use and the backslash take a backslash, tab, line feed and
    carriage return their letter, every other character that is not
    printable its [\xhh] form. *)
Definition printable (c : ascii) : bool :=
  between 32 126 c || (between 161 255 c && negb (code c =? 173)%N).

Definition repr_char (quote c : ascii) : string :=
  if Ascii.eqb c quote || Ascii.eqb c "\" then String "\" (String c EmptyString)
  else if Ascii.eqb c "009" then "\t"
  else if Ascii.eqb c "010" then "\n"
  else if Ascii.eqb c "013" then "\r"
  else if printable c then String c EmptyString
  else "\x" +:+ String (hex_digit (code c / 16))
                 (String (hex_digit (code c mod 16)) EmptyString).

Fixpoint repr_body (quote : ascii) (s : string) : string :=
  match s with
  | EmptyString => EmptyString
  | String c r => repr_char quote c +:+ repr_body quote r
  end.

Definition str_repr (s : string) : string :=
  let quote := if mem "'" s && negb (mem dquote s) then dquote else "'"%char in
  String quote (repr_body quote s +:+ String quote EmptyString).

(** [repr(v)]. *)
Fixpoint py_repr (v : pyval) {struct v} : string :=
  match v with
  | PyNone => "None"
  | PyBool true => "True"
  | PyBool false => "False"
  | PyInt z => int_repr z
  | PyStr s => str_repr s
  | PyList l => "[" +:+ py_join ", " (map py_repr l) +:+ "]"
  | PyDict d =>
      "{" +:+ py_join ", " (map (λ kv, str_repr (fst kv) +:+ ": " +:+ py_repr (snd kv)) d)
      +:+ "}"
  end.

(** [str(v)]. *)
Definition py_str (v : pyval) : string :=
  match v with
  | PyStr s => s
  | _ => py_repr v
  end.

(** [[str(c).strip() for c in items if c]]. *)
Definition company_names (items : list pyval) : list pyval :=
  map (λ c, PyStr (py_strip (py_str c))) (filter (λ c, truthy c = true) items).

(** The companies [parse_company_list] reads off the model's output. *)
Definition output_companies (llm_output : pyval) : list pyval :=
  match llm_output with
  | PyStr text =>
      let text := strip_fence (py_strip text) in
      match json_loads text with
      | Some (PyList parsed) => company_names parsed
      | Some _ => []
      | None =>
          (* except json.JSONDecodeError *)
          if negb (String.eqb text "") then [PyStr text] else []
      end
  | PyList items => company_names items
  | _ => []
  end.

(** The fallback on the user's own input when that gave nothing. *)
Definition or_user_input (st : state) (companies : list pyval) : list pyval :=
  match companies with
  | [] =>
      match get st "user_input" (PyStr "") with
      | PyStr user_input =>
          if negb (String.eqb (py_strip user_input) "")
          then [PyStr (py_strip user_input)]
          else []
      | _ => []
      end
  | _ => companies
  end.

Definition parse_company_list (st : state) : state :=
  let llm_output := get st "parsed_companies" (PyStr "") in
  let companies := or_user_input st (output_companies llm_output) in
  match companies with
  | [] => <["pipeline_error" := PyStr "ERROR: No company names provided."]> st
  | _ =>
      let st := <["company_list" := PyList companies]> st in
      let st := <["current_company_index" := PyInt 0]> st in
      let st := <["total_companies" := PyInt (Z.of_nat (length companies))]> st in
      <["processed_companies" := PyList []]> st
  end.

(** ** The agents of the pipeline

    A [SequentialAgent] runs its sub-agents in order and hands on every
    event they yield; it does not look at [escalate]. *)
Fixpoint sequential_agent (sub_agents : list agent) : agent :=
  λ st,
    match sub_agents with
    | [] => mret (st, [])
    | a :: rest =>
        '(st, evs) ← a st;
        '(st, evs') ← sequential_agent rest st;
        mret (st, evs ++ evs')
    end.

(** A [LoopAgent] seen from the agent that holds it: the state it leaves
    and the events of its passes. *)
Definition loop_as_agent (run : state → result loop_run) : agent :=
  λ st, r ← run st; mret (final_state r, events r).

Definition company_input_parser (reply : string) : agent :=
  llm_agent "company_input_parser" "parsed_companies"
    (pure_callback parse_company_list) reply.

Definition analyst_agent (reply : string) : agent :=
  llm_agent "report_analyst" "raw_analysis"
    (pure_callback combine_analysis_results) reply.

Definition summarizer_agent (reply : string) : agent :=
  llm_agent "output_summarizer" "final_summary"
    (pure_callback format_final_output) reply.

Definition storage_agent (reply : string) : agent :=
  llm_agent "data_storage" "storage_result" track_processed_company reply.

Section Pipeline.

Variable path_exists : string → bool.

(** What the models reply while one company is processed: the replies of
    the passes of the retry loop, then those of the three stages after
    it. *)
Record company_replies : Type := CompanyReplies {
  retry_replies : nat → replies;
  analyst_reply : string;
  summarizer_reply : string;
  storage_reply : string
}.

Definition single_company_pipeline (r : company_replies) : agent :=
  sequential_agent
    [company_iterator;
     loop_as_agent (pdf_find_retry_loop path_exists (retry_replies r));
     analyst_agent (analyst_reply r);
     summarizer_agent (summarizer_reply r);
     storage_agent (storage_reply r)].

(** [company_orchestrator_loop], [max_iterations=50]; [oracle i] gives
    the replies of pass [i]. *)
Definition company_orchestrator_loop (oracle : nat → company_replies) (st : state)
  : result loop_run :=
  loop_agent (λ i, [single_company_pipeline (oracle i)]) 50 0 st.

End Pipeline.

End Intake.
Import Intake.

(* ===================================================================== *)
(** * company_profiler/agent.py: the market identifier's callback         *)
(* ===================================================================== *)

Module Market.

(** The closing [if "company_list" not in state or not state["company_list"]]. *)
Definition ensure_company_list (st : state) : state :=
  match st !! "company_list" with
  | Some v => if truthy v then st else <["company_list" := PyStr "[]"]> st
  | None => <["company_list" := PyStr "[]"]> st
  end.

Definition validate_market_identifier_output (st : state) : state :=
  let company_list := get st "company_list" (PyStr "") in
  match company_list with
  | PyStr text =>
      if startswith "ERROR:" text || py_in "No companies found" text
      then <["pipeline_error" := company_list]> st            (* return *)
      else
        ensure_company_list
          match json_loads text with
          | Some (PyList ((_ :: _) as parsed)) =>
              <["company_list" := PyStr (json_dumps (PyList (take 15 parsed)))]> st
          | Some _ =>
              <["pipeline_error" :=
                  PyStr "ERROR: Market Identifier returned invalid company list format."]> st
          | None =>
              <["pipeline_error" :=
                  PyStr "ERROR: Market Identifier output is not valid JSON."]> st
          end
  | _ => ensure_company_list st
  end.

End Market.
Import Market.

(* ===================================================================== *)
(** * annual_report_parser/custom_tools.py: the URL tools                 *)
(* ===================================================================== *)

Module UrlTools.
Import Re.

(** [s.endswith(suffix)]. *)
Definition endswith (suffix s : string) : bool :=
  (String.length suffix <=? String.length s)%nat
  && String.eqb (str_drop (String.length s - String.length suffix) s) suffix.

(** [url_pattern] of [extract_pdf_url_from_search_results], compiled with
    [re.IGNORECASE]: [https?://], one or more characters that are neither
    white space, angle brackets, quotes nor parentheses, then either
    [\.pdf] and an optional query, or [/pdf/] and what follows it. *)
Definition url_body : regex := Plus (none_of (String dquote "<>'()")).

(** The class of the two tails: no white space, angle bracket or quote. *)
Definition url_tail : regex := none_of (String dquote "<>'").

Definition url_pattern : regex :=
  Alt (Seq http_scheme
         (Seq url_body
            (Seq (lit_ci ".pdf") (Opt (Seq (chr "?") (Star url_tail))))))
      (Seq http_scheme
         (Seq url_body
            (Seq (lit_ci "/pdf/") (Star url_tail)))).

Definition cleaned_urls (search_results : string) : list string :=
  map (py_rstrip ".,;:!?") (findall url_pattern search_results).

Definition is_pdf_url (u : string) : bool := endswith ".pdf" (py_lower u).

Definition extract_pdf_url_from_search_results (search_results : string) : pyval :=
  match cleaned_urls search_results with
  | (first :: _) as cleaned =>
      let pdf_urls := filter (λ u, is_pdf_url u = true) cleaned in
      let best_url := match pdf_urls with u :: _ => u | [] => first end in
      PyDict [("success", PyBool true);
              ("pdf_url", PyStr best_url);
              ("all_urls", PyList (PyStr <$> take 5 cleaned))]
  | [] =>
      PyDict [("success", PyBool false);
              ("error", PyStr "No PDF URLs found in search results");
              ("all_urls", PyList [])]
  end.

(** What [requests.head] or [requests.get] comes back with: a response
    (its status and its [Content-Type] header, when it has one), or one of
    the exceptions the tool catches. *)
Inductive http_reply : Type :=
| HttpResponse (status_code : Z) (content_type : option string)
| HttpTimeout
| HttpError (e : string)
| OtherError (e : string).

Section Http.

Variable http_head http_get : string → http_reply.

Definition has_http_scheme (url : string) : bool :=
  startswith "http://" url || startswith "https://" url.

Definition not_valid (error : string) : pyval :=
  PyDict [("valid", PyBool false); ("accessible", PyBool false); ("error", PyStr error)].

(** The dict built from the final response, or from the exception. *)
Definition validation (url : string) (r : http_reply) : pyval :=
  match r with
  | HttpResponse status_code header =>
      let content_type := py_lower (default EmptyString header) in
      let is_pdf := py_in "pdf" content_type || endswith ".pdf" (py_lower url) in
      let is_accessible := status_code =? 200 in
      PyDict [("valid", PyBool (is_pdf && is_accessible));
              ("accessible", PyBool is_accessible);
              ("status_code", PyInt status_code);
              ("content_type", PyStr content_type);
              ("url", PyStr url)]
  | HttpTimeout => not_valid "URL validation timed out"
  | HttpError e => not_valid ("URL validation failed: " +:+ e)
  | OtherError e => not_valid ("Unexpected error during validation: " +:+ e)
  end.

(** [validate_pdf_url]: the dict it returns and the requests it sent, as
    (method, URL) pairs. *)
Definition validate_pdf_url (url : string) : pyval * list (string * string) :=
  if String.eqb url "" || negb (has_http_scheme url)
  then (not_valid ("Invalid URL format: " +:+ url), [])
  else
    match http_head url with
    | (HttpResponse status_code _) as response =>
        if status_code =? 405
        then (validation url (http_get url), [("HEAD", url); ("GET", url)])
        else (validation url response, [("HEAD", url)])
    | raised => (validation url raised, [("HEAD", url)])
    end.

End Http.

End UrlTools.
Import UrlTools.

(* ===================================================================== *)
(** * Inputs the further properties are stated on                         *)
(* ===================================================================== *)

Module Cases.

(** A text no JSON document starts like: after JSON white space it is
    empty, or its first character opens no JSON value and neither NaN nor
    Infinity. *)
Definition never_json (text : string) : bool :=
  match skip_ws text with
  | EmptyString => true
  | String c _ => negb (value_start c || Ascii.eqb c "N" || Ascii.eqb c "I")
  end.

End Cases.
Import Cases.

Module MarketCases.

(** A market identifier's answer with seventeen companies. *)
Definition seventeen : list pyval :=
  (λ i, PyStr ("Company " +:+ int_repr (Z.of_nat i))) <$> seq 1 17.

Definition long_list : state :=
  <["company_list" := PyStr (json_dumps_indent 2 (PyList seventeen))]> ∅.

Definition prose_answer : state :=
  <["company_list" := PyStr "Here are the top companies: Apple, Microsoft"]> ∅.

End MarketCases.
Import MarketCases.

Module IntakeCases.

(** The parser model's answer inside a Markdown fence, with an empty
    name, a number and a null among the names. *)
Definition fenced_names : string :=
  "```json" +:+ newline
  +:+ q "[' Apple Inc. ', '', 12, null, 'Tesla, Inc.']" +:+ newline +:+ "```".

Definition names_given : state :=
  <["parsed_companies" := PyStr fenced_names]>
  (<["current_company_index" := PyInt 7]>
  (<["processed_companies" := PyList [PyStr "Old Co."]]> ∅)).

Definition comma_separated : state :=
  <["parsed_companies" := PyStr "  Apple, Microsoft, Tesla "]> ∅.

Definition nothing_given : state :=
  <["parsed_companies" := PyStr "  "]> ∅.

Definition quoted_name : state :=
  <["parsed_companies" := PyStr (q "'Apple'")]>
  (<["user_input" := PyStr " analyse Apple "]> ∅).

End IntakeCases.
Import IntakeCases.

Module LoopCases.

(** The ten keys [reset_company_state] writes. *)
Definition reset_keys : list string :=
  ["pdf_find_attempt"; "tried_urls"; "pdf_url"; "pdf_url_raw"; "pdf_file_path";
   "download_result"; "raw_analysis"; "financial_analysis"; "final_summary";
   "structured_output"].

(** A state left by a company whose download succeeded. *)
Definition after_success : state :=
  <["download_success" := PyBool true]>
  (<["pdf_find_attempt" := PyInt 1]>
  (<["company_name" := PyStr "A"]> ∅)).

(** A second attempt on a URL that differs from the first one tried. *)
Definition second_try : state :=
  <["pdf_find_attempt" := PyInt 1]>
  (<["tried_urls" := PyList [PyStr "https://a.example/r.pdf"]]>
  (<["pdf_url" := PyStr "https://b.example/r.pdf"]> ∅)).

End LoopCases.
Import LoopCases.

Module RoundCases.

(** The first and the last step of [single_company_pipeline] on the
    keys of the outer iteration: the iterator selects, the storage
    agent's callback tracks. *)
Definition select_and_track (st : state) : result state :=
  '(st, _) ← company_iterator st;
  track_processed_company st.

Fixpoint rounds (k : nat) (st : state) : result state :=
  match k with
  | O => Ok st
  | S k => st ← select_and_track st; rounds k st
  end.

(** The keys of the outer iteration when the first [i] names of the work
    list [names] have been processed. *)
Definition at_position (names : list string) (i : nat) (st : state) : Prop :=
  st !! "company_list" = Some (PyList (PyStr <$> names))
  ∧ st !! "total_companies" = Some (PyInt (Z.of_nat (length names)))
  ∧ st !! "current_company_index" = Some (PyInt (Z.of_nat i))
  ∧ st !! "processed_companies" = Some (PyList (PyStr <$> take i names)).

(** A pass whose download succeeds: the downloader's reply holds a
    brace-free JSON object with a truthy success and the truthy
    [file_path] [path]. *)
Definition acquisition_succeeds (r : replies) (path : pyval) : Prop :=
  ∃ m result,
    search success_object (downloader_reply r) = Some m
    ∧ json_loads m = Some result
    ∧ truthy (obj_get result "success" PyNone) = true
    ∧ obj_get result "file_path" PyNone = path
    ∧ truthy path = true.

Definition found_message : event :=
  Event "download_checker" (Text "PDF found and downloaded successfully.") true.

(** An item whose PDF is found on the third pass. *)
Definition found_on_third (i : nat) : replies :=
  if (i <? 2)%nat then never_found i
  else Replies "https://investor.b.example/ar.pdf" "URL_VALID"
         (q "Saved. {'success': true, 'file_path': '/tmp/ar.pdf'}").

End RoundCases.
Import RoundCases.

Module ServerCases.

(** An event that ends the reading of the run: a final response with
    content parts whose text holds the A2UI delimiter, or that the A2UI
    generator wrote. *)
Definition response_text (ev : run_event) : string :=
  py_join newline (filter (λ t, t ≠ "") (ev_parts ev)).

Definition decisive (ev : run_event) : bool :=
  is_final_response ev
  && match ev_parts ev with [] => false | _ => true end
  && (py_in a2ui_delimiter (response_text ev)
      || String.eqb (ev_author ev) "a2ui_generator").

(** An event that leaves no answer: not a final response, or one
    without content parts. *)
Definition no_answer (ev : run_event) : bool :=
  negb (is_final_response ev) || match ev_parts ev with [] => true | _ => false end.

Definition apology : string :=
  "I'm sorry, I encountered an error processing your request.".

(** The JSON-RPC reply that carries a task. *)
Definition task_reply (request_id task_id : pyval) (context_id : string)
    (parts : list pyval) : response :=
  JSONResponse
    (PyDict
       [("jsonrpc", PyStr "2.0"); ("id", request_id);
        ("result",
         PyDict
           [("kind", PyStr "task"); ("id", task_id);
            ("contextId", PyStr context_id);
            ("status",
             PyDict
               [("state", PyStr "input-required");
                ("message",
                 PyDict [("role", PyStr "agent"); ("parts", PyList parts)])])])])
    200.

(** A request with an attachment, a greeting and a click, in this order;
    a run of three events whose second carries the cards; a run that
    yields no final response. *)
Definition mixed_parts : list pyval :=
  [PyDict [("kind", PyStr "file")];
   PyDict [("kind", PyStr "text"); ("text", PyStr "Profile the EV market")];
   PyDict [("kind", PyStr "data");
           ("data", PyDict [("userAction", PyDict [("name", PyStr "open")])])]].

Definition text_request : pyval :=
  PyDict [("jsonrpc", PyStr "2.0"); ("id", PyInt 7); ("method", PyStr "message/send");
          ("params",
           PyDict [("message",
                    PyDict [("role", PyStr "user"); ("parts", PyList mixed_parts)])])].

Definition cards_run : list run_event :=
  [RunEvent true "market_identifier" ["Tesla, BYD"];
   RunEvent true "a2ui_generator" ["Here you go"; ""; "---a2ui_JSON---{}"];
   RunEvent true "a2ui_generator" ["late"]].

Definition silent_run (_ : string) : string + list run_event :=
  inr [RunEvent false "market_identifier" ["thinking"]; RunEvent true "data_summarizer" []].

End ServerCases.
Import ServerCases.

Module Patterns.

(** The texts a pattern stands for: the language of the regular
    expression, anchors read as the empty text. *)
Inductive matches : regex → string → Prop :=
| matches_eps : matches Eps EmptyString
| matches_chr (p : ascii → bool) (c : ascii) :
    p c = true → matches (Chr p) (String c EmptyString)
| matches_seq (r1 r2 : regex) (a b : string) :
    matches r1 a → matches r2 b → matches (Seq r1 r2) (a +:+ b)
| matches_alt_l (r1 r2 : regex) (a : string) :
    matches r1 a → matches (Alt r1 r2) a
| matches_alt_r (r1 r2 : regex) (a : string) :
    matches r2 a → matches (Alt r1 r2) a
| matches_star_nil (r : regex) : matches (Star r) EmptyString
| matches_star_more (r : regex) (a b : string) :
    matches r a → matches (Star r) b → matches (Star r) (a +:+ b)
| matches_bol : matches Bol EmptyString
| matches_eol : matches Eol EmptyString.

(** A text that opens with [http://] or [https://], in any letter
    case, and goes on. *)
Definition web_link (u : string) : Prop :=
  ∃ scheme rest,
    u = scheme +:+ rest
    ∧ (py_lower scheme = "http://" ∨ py_lower scheme = "https://")
    ∧ rest ≠ "".

(** A web link that holds [.pdf], in any letter case, after at least
    one character. *)
Definition pdf_link (u : string) : Prop :=
  ∃ scheme body ext tail,
    u = scheme +:+ body +:+ ext +:+ tail
    ∧ (py_lower scheme = "http://" ∨ py_lower scheme = "https://")
    ∧ body ≠ ""
    ∧ py_lower ext = ".pdf".

End Patterns.
Import Patterns.

Module UrlCases.

(** A finder's answer that names the same report twice and another one
    once. *)
Definition finder_answer : string :=
  "See https://www.acme.example/reports/AR-2024.PDF, or (again) "
  +:+ "https://www.acme.example/reports/AR-2024.PDF; "
  +:+ "older: HTTP://ir.acme.example/files/ar2023.pdf?download=1.".

Definition finder_replied : state :=
  <["pdf_url_raw" := PyStr finder_answer]> (<["finder_error" := PyStr "stale"]> ∅).

End UrlCases.
Import UrlCases.

Module PipelineCases.

(** The keys the four agents of the retry loop write. *)
Definition retry_keys : list string :=
  ["pdf_url_raw"; "pdf_url"; "url_valid"; "finder_error"; "url_validation_result";
   "download_result"; "pdf_file_path"; "download_success"; "pdf_file_size";
   "download_error"; "pdf_find_attempt"].

(** A run over two companies in which the first report is found on the
    third pass. *)
Definition two_companies : state :=
  <["company_list" := PyList [PyStr "A Corp"; PyStr "B Corp"]]>
  (<["total_companies" := PyInt 2]>
  (<["current_company_index" := PyInt 0]>
  (<["processed_companies" := PyList []]> ∅))).

Definition first_found (_ : nat) : company_replies :=
  CompanyReplies found_on_third "Revenue grew." (q "{'company_name': 'A Corp'}") "stored".

End PipelineCases.
Import PipelineCases.

(* ===================================================================== *)
(** * Properties                                                          *)
(* ===================================================================== *)

(** ** Session state *)

Ltac solve_keys := compute_done.

Lemma get_insert_eq (st : state) k v d : get (<[k := v]> st) k d = v.
Proof. unfold get. by rewrite lookup_insert_eq. Qed.

Lemma get_insert_ne (st : state) k k' v d :
  k ≠ k' → get (<[k := v]> st) k' d = get st k' d.
Proof. intros. unfold get. by rewrite lookup_insert_ne. Qed.
Lemma track_spec (st : state) (seen : list pyval) (i : Z) :
  get st "processed_companies" (PyList []) = PyList seen →
  as_int (get st "current_company_index" (PyInt 0)) = Some i →
  let name := get st "company_name" (PyStr "") in
  ∃ st',
    track_processed_company st = Ok st'
    ∧ st' !! "current_company_index" = Some (PyInt (i + 1))
    ∧ get st' "processed_companies" (PyList []) =
        PyList (if truthy name && negb (list_contains name seen)
                then seen ++ [name] else seen)
    ∧ (list_contains name seen = true →
       st' !! "processed_companies" = st !! "processed_companies").
Proof.
  intros Hseen Hidx name. unfold track_processed_company.
  fold name. rewrite Hseen. cbn [py_contains py_append].
  destruct (truthy name) eqn:Ht; cbn [mbind result_bind mret result_ret andb].
  - destruct (list_contains name seen) eqn:Hc; cbn [negb mbind result_bind mret result_ret].
    + unfold py_add. rewrite Hidx. cbn.
      eexists. split; [reflexivity|].
      rewrite lookup_insert_eq, get_insert_ne by done.
      rewrite lookup_insert_ne by done. auto.
    + rewrite get_insert_ne by done. unfold py_add. rewrite Hidx. cbn.
      eexists. split; [reflexivity|].
      rewrite lookup_insert_eq, get_insert_ne, get_insert_eq by done.
      split; [done|]. split; [done|]. discriminate.
  - unfold py_add. rewrite Hidx. cbn.
    eexists. split; [reflexivity|].
    rewrite lookup_insert_eq, get_insert_ne by done.
    rewrite lookup_insert_ne by done. auto.
Qed.

(** C7.  The Tracked step, whatever [download_success] says about the
    item: the index grows by exactly one, the processed list takes the
    name only when it is non-empty and not yet in it, and re-adding a
    processed name leaves the list as it was. *)
Theorem tracked_step (st : state) (outcome : pyval) (seen : list pyval) (i : Z) :
  get st "processed_companies" (PyList []) = PyList seen →
  as_int (get st "current_company_index" (PyInt 0)) = Some i →
  let name := get st "company_name" (PyStr "") in
  ∃ st',
    track_processed_company (<["download_success" := outcome]> st) = Ok st'
    ∧ st' !! "current_company_index" = Some (PyInt (i + 1))
    ∧ get st' "processed_companies" (PyList []) =
        PyList (if truthy name && negb (list_contains name seen)
                then seen ++ [name] else seen)
    ∧ (list_contains name seen = true →
       st' !! "processed_companies" = st !! "processed_companies").
Proof.
  intros Hseen Hidx name.
  destruct (track_spec (<["download_success" := outcome]> st) seen i)
    as (st' & Hrun & Hi & Hp & Hsame).
  - by rewrite get_insert_ne.
  - by rewrite get_insert_ne.
  - exists st'. rewrite !get_insert_ne in * by done.
    rewrite lookup_insert_ne in Hsame by done. auto.
Qed.


Lemma tracked_step_witness :
  ∃ st',
    track_processed_company (<["download_success" := PyBool false]> tracked_demo) = Ok st'
    ∧ st' !! "current_company_index" = Some (PyInt (0 + 1))
    ∧ get st' "processed_companies" (PyList []) =
        PyList (if truthy (get tracked_demo "company_name" (PyStr ""))
                   && negb (list_contains (get tracked_demo "company_name" (PyStr ""))
                              [PyStr "Apple Inc."])
                then [PyStr "Apple Inc."] ++ [get tracked_demo "company_name" (PyStr "")]
                else [PyStr "Apple Inc."])
    ∧ (list_contains (get tracked_demo "company_name" (PyStr "")) [PyStr "Apple Inc."] = true →
       st' !! "processed_companies" = tracked_demo !! "processed_companies").
Proof.
  apply (tracked_step tracked_demo (PyBool false) [PyStr "Apple Inc."] 0);
    vm_compute; reflexivity.
Defined.

Lemma company_iterator_frame (st st' : state) (evs : list event) (k : string) :
  company_iterator st = Ok (st', evs) →
  k ∉ ["company_name"; "pdf_find_attempt"; "tried_urls"; "pdf_url"; "pdf_file_path";
       "download_success"; "raw_analysis"; "financial_analysis"; "final_summary"] →
  st' !! k = st !! k.
Proof.
  unfold company_iterator. intros H Hk.
  destruct (py_len _) as [n|]; cbn in H; [|done].
  destruct (py_ge _ _) as [[]|]; cbn in H; [by inversion H| |done].
  destruct (py_index _ _) as [name|]; cbn in H; [|done].
  destruct (py_add _ _) as [pos|]; cbn in H; [|done].
  inversion H; subst; clear H.
  rewrite !lookup_insert_ne; [done|..]; intros <-; apply Hk; solve_keys.
Qed.

Lemma process_finder_output_frame (st : state) (k : string) :
  k ∉ ["pdf_url"; "url_valid"; "finder_error"] →
  process_finder_output st !! k = st !! k.
Proof.
  intros Hk. unfold process_finder_output.
  assert (Hne : ∀ k', k' ∈ ["pdf_url"; "url_valid"; "finder_error"] → k' ≠ k)
    by (intros k' Hin <-; done).
  repeat (first [ rewrite lookup_insert_ne by (apply Hne; solve_keys)
                | match goal with |- context [match ?x with _ => _ end] => destruct x end ]);
    done.
Qed.

Lemma process_download_output_frame pe (st : state) (k : string) :
  k ∉ ["pdf_file_path"; "download_success"; "pdf_file_size"; "download_error"] →
  process_download_output pe st !! k = st !! k.
Proof.
  intros Hk. unfold process_download_output.
  assert (Hne : ∀ k', k' ∈ ["pdf_file_path"; "download_success"; "pdf_file_size"; "download_error"] → k' ≠ k)
    by (intros k' Hin <-; done).
  repeat (first [ rewrite lookup_insert_ne by (apply Hne; solve_keys)
                | match goal with |- context [match ?x with _ => _ end] => destruct x end ]);
    done.
Qed.

(** Whether a download succeeded is read off the downloader's reply alone. *)
Lemma download_success_of_reply pe (st : state) (d : pyval) :
  get (process_download_output pe st) "download_success" d =
  get (process_download_output pe
         (<["download_result" := get st "download_result" (PyStr "")]> ∅))
      "download_success" d.
Proof.
  unfold process_download_output. rewrite get_insert_eq.
  repeat (first [ progress rewrite ?get_insert_eq, ?get_insert_ne by done
                | match goal with |- context [match ?x with _ => _ end] => destruct x end ]);
    done.
Qed.


Section RetryFacts.
Variable path_exists : string → bool.

Lemma pass_events_checker (r : replies) (n : Z) :
  filter (λ e, author e = "download_checker") (pass_events r n)
  = [Event "download_checker" (RetryAttempt (PyInt n)) false].
Proof. reflexivity. Qed.

Lemma failing_pass (r : replies) (st : state) (n : Z) :
  get st "pdf_find_attempt" (PyInt 0) = PyInt n →
  n < 5 →
  acquisition_fails path_exists r →
  ∃ st',
    run_sub_agents (pass_agents path_exists r) st = Ok (st', pass_events r (n + 1), false)
    ∧ get st' "pdf_find_attempt" (PyInt 0) = PyInt (n + 1).
Proof.
  intros Hn Hlt Hfail.
  unfold pass_agents, run_sub_agents, alternative_finder_agent, url_validator_agent,
    downloader_agent, llm_agent, pure_callback, no_callback.
  cbn [mbind result_bind mret result_ret existsb escalate orb].
  set (st1 := process_finder_output _).
  set (st2 := <["url_validation_result" := _]> st1).
  set (st3 := process_download_output _ _).
  assert (Hatt : get st3 "pdf_find_attempt" (PyInt 0) = PyInt n).
  { unfold get, st3. rewrite process_download_output_frame by solve_keys.
    rewrite lookup_insert_ne by done. unfold st2. rewrite lookup_insert_ne by done.
    unfold st1. rewrite process_finder_output_frame by solve_keys.
    rewrite lookup_insert_ne by done. exact Hn. }
  assert (Hdl : get st3 "download_success" (PyBool false) = PyBool false).
  { unfold st3. rewrite download_success_of_reply, get_insert_eq. exact Hfail. }
  unfold download_checker. rewrite Hdl, Hatt. cbn [truthy].
  unfold py_ge, py_add, max_attempts. cbn [as_int].
  destruct (5 <=? n) eqn:Hle; [lia|].
  cbn [mbind result_bind mret result_ret existsb escalate orb app].
  eexists. split; [reflexivity|]. by rewrite get_insert_eq.
Qed.

Lemma failing_passes (oracle : nat → replies) (k : nat) :
  ∀ (t : nat) (st : state) (n : Z),
    get st "pdf_find_attempt" (PyInt 0) = PyInt n →
    n + Z.of_nat k ≤ 5 →
    (∀ i, (t ≤ i < t + k)%nat → acquisition_fails path_exists (oracle i)) →
    ∃ r,
      loop_agent (λ i, pass_agents path_exists (oracle i)) k t st = Ok r
      ∧ passes r = (t + k)%nat
      ∧ exit r = MaxIterations
      ∧ Forall (λ e, escalate e = false) (events r)
      ∧ body <$> filter (λ e, author e = "download_checker") (events r)
        = (λ j, RetryAttempt (PyInt (n + 1 + Z.of_nat j))) <$> seq 0 k
      ∧ get (final_state r) "pdf_find_attempt" (PyInt 0) = PyInt (n + Z.of_nat k).
Proof.
  induction k as [|k IH]; intros t st n Hn Hle Hfail.
  - eexists. cbn. split; [reflexivity|]. cbn. rewrite Nat.add_0_r, Z.add_0_r. auto.
  - destruct (failing_pass (oracle t) st n Hn ltac:(lia) (Hfail t ltac:(lia)))
      as (st1 & Hpass & Hn1).
    destruct (IH (S t) st1 (n + 1) Hn1 ltac:(lia)) as (r & Hr & Hp & He & Hall & Hck & Hfin).
    { intros i Hi. apply Hfail. lia. }
    cbn [loop_agent]. rewrite Hpass. cbn [mbind result_bind mret result_ret].
    rewrite Hr. cbn [mbind result_bind mret result_ret].
    eexists. split; [reflexivity|]. cbn [passes exit events final_state].
    split; [lia|]. split; [done|]. split.
    { apply Forall_app. split; [|done]. unfold pass_events. repeat constructor. }
    split.
    { rewrite filter_app, fmap_app, Hck, pass_events_checker.
      cbn [seq fmap list_fmap app]. rewrite <- seq_shift, <- list_fmap_compose.
      f_equal; [cbn; do 2 f_equal; lia|]. apply list_fmap_ext. intros ? j _. cbn. do 2 f_equal. lia. }
    rewrite Hfin. f_equal. lia.
Qed.

End RetryFacts.





(** C5.  Selecting the next item leaves [pdf_url_raw], [download_result]
    and [structured_output] as the previous item set them, whereas
    [reset_company_state] would clear all three. *)
Theorem select_next_keeps_stage_outputs (st st' : state) (evs : list event) :
  company_iterator st = Ok (st', evs) →
  Forall (λ k, st' !! k = st !! k) stage_outputs
  ∧ Forall (λ k, (reset_company_state st).1 !! k = Some (PyStr "")) stage_outputs.
Proof.
  intros Hrun. split.
  - repeat constructor; eapply company_iterator_frame; try eassumption; solve_keys.
  - unfold reset_company_state. cbn [fst]. repeat constructor; by simplify_map_eq.
Qed.


Lemma select_next_keeps_stage_outputs_witness :
  Forall (λ k, second_item_selected !! k = after_first_item !! k) stage_outputs
  ∧ Forall (λ k, (reset_company_state after_first_item).1 !! k = Some (PyStr ""))
      stage_outputs.
Proof.
  apply (select_next_keeps_stage_outputs after_first_item second_item_selected
           [Event "company_iterator"
              (ProcessingCompany (PyInt 2) (PyInt 2) (PyStr "B")) false]).
  vm_compute. reflexivity.
Defined.

Lemma stale_after_select_next :
  second_item_selected !! "structured_output"
  = Some (PyStr (json_dumps_indent 2 (PyDict [("company_name", PyStr "A")])))
  ∧ second_item_selected !! "pdf_url_raw"
    = Some (PyStr "https://investor.a.example/annual-report.pdf")
  ∧ second_item_selected !! "download_result"
    = Some (PyStr (q "{'success': true, 'file_path': 'a.pdf'}")).
Proof. vm_compute. auto. Qed.

Lemma py_eqb_str_r (v : pyval) (s : string) :
  py_eqb v (PyStr s) = match v with PyStr a => String.eqb a s | _ => false end.
Proof. by destruct v. Qed.

Lemma find_query_silent (parts : list pyval) :
  Forall (λ p, silent_part p = true) parts →
  find_query parts = Ok (PyStr "").
Proof.
  induction 1 as [|part parts Hp _ IH]; [done|].
  destruct part as [| | | |l|d]; try discriminate Hp.
  cbn [find_query py_get mbind result_bind].
  cbn [silent_part] in Hp.
  destruct (dict_get "kind" d) as [kind|] eqn:Hk.
  - rewrite !py_eqb_str_r. destruct kind as [| | |kind| |]; try exact IH.
    destruct (String.eqb kind "text"); [discriminate|].
    destruct (String.eqb kind "data"); [|exact IH].
    destruct (dict_get "data" d) as [[| | | | |payload]|]; try discriminate Hp.
    + cbn. destruct (dict_get "userAction" payload); [discriminate|]. exact IH.
    + cbn. exact IH.
  - cbn. exact IH.
Qed.



(** ** The finder's choice among candidates *)

Lemma scan_domains_spec (domains : list string) (url best : string) :
  scan_domains domains url best =
  if existsb (λ domain, py_in domain (py_lower url)) domains then url else best.
Proof.
  induction domains as [|d ds IH]; [done|].
  cbn [scan_domains existsb]. destruct (py_in d (py_lower url)); [done|exact IH].
Qed.

Lemma choose_best_url_last (urls : list string) :
  ∀ best, choose_best_url best urls =
          default best (last (filter (λ u, trusted u = true) urls)).
Proof.
  unfold choose_best_url.
  induction urls as [|u us IH]; intros best; [done|].
  cbn [foldl]. rewrite IH, scan_domains_spec. fold (trusted u).
  rewrite filter_cons. destruct (decide (trusted u = true)) as [Ht|Ht].
  - rewrite Ht. rewrite last_cons. by destruct (last _).
  - apply not_true_is_false in Ht. by rewrite Ht.
Qed.

(** C6.  When the finder's raw text holds several URL candidates,
    [process_finder_output] stores the LAST candidate that contains a
    trusted domain, and the first candidate of all when none does: the
    loop over the candidates never stops at the first trusted one. *)
Theorem finder_takes_last_trusted (st : state) (text first : string) (rest : list string) :
  get st "pdf_url_raw" (PyStr "") = PyStr text →
  py_in "ERROR:" text || py_in "no pdf" (py_lower text) = false →
  collect_urls text = first :: rest →
  process_finder_output st !! "pdf_url"
  = Some (PyStr (default first
                   (last (filter (λ u, trusted u = true) (first :: rest))))).
Proof.
  intros Hraw Hok Hurls. unfold process_finder_output.
  rewrite Hraw, Hok, Hurls, lookup_insert_eq, choose_best_url_last. done.
Qed.

Lemma finder_takes_last_trusted_witness :
  process_finder_output (<["pdf_url_raw" := PyStr two_trusted_reply]> ∅) !! "pdf_url"
  = Some (PyStr (default "https://investor.acme.example/ar2024.pdf"
                   (last (filter (λ u, trusted u = true)
                            ["https://investor.acme.example/ar2024.pdf";
                             "https://ir.acme.example/files/ar2024.pdf"])))).
Proof.
  apply (finder_takes_last_trusted (<["pdf_url_raw" := PyStr two_trusted_reply]> ∅)
           two_trusted_reply); vm_compute; reflexivity.
Defined.

Lemma first_trusted_candidate_loses :
  collect_urls two_trusted_reply
  = ["https://investor.acme.example/ar2024.pdf";
     "https://ir.acme.example/files/ar2024.pdf"]
  ∧ trusted "https://investor.acme.example/ar2024.pdf" = true
  ∧ first_match_wins "https://investor.acme.example/ar2024.pdf"
      (collect_urls two_trusted_reply)
    = "https://investor.acme.example/ar2024.pdf"
  ∧ process_finder_output (<["pdf_url_raw" := PyStr two_trusted_reply]> ∅) !! "pdf_url"
    = Some (PyStr "https://ir.acme.example/files/ar2024.pdf").
Proof. vm_compute. auto. Qed.

(** ** Strings *)

Lemma match_at_chr (p : ascii → bool) (b : bool) (c : ascii) (t : string) :
  match_at (Chr p) b (String c t) =
  if p c then Some (String c EmptyString, t) else None.
Proof.
  unfold match_at. cbn [rx]. destruct (p c); [|done].
  replace (String.length (String c t) - String.length t)%nat with 1%nat
    by (cbn [String.length]; lia).
  done.
Qed.

Lemma sub_chr_underscore (p : ascii → bool) (s : string) :
  ∀ b, sub_go (Chr p) "_" b 0 s =
       (fix go (s : string) : string :=
          match s with
          | EmptyString => EmptyString
          | String c r => String (if p c then "_"%char else c) (go r)
          end) s.
Proof.
  induction s as [|c t IH]; intros b; [done|].
  cbn [sub_go]. rewrite match_at_chr. destruct (p c); cbn; by rewrite IH.
Qed.

Lemma sub_not_namespace_char (s : string) :
  sub not_namespace_char "_" s = underscore_others s.
Proof.
  unfold sub, not_namespace_char. rewrite sub_chr_underscore.
  induction s as [|c t IH]; [done|].
  cbn [underscore_others]. rewrite <- IH. by destruct (namespace_keep c).
Qed.

Lemma lstrip_by_head (p : ascii → bool) (s : string) :
  match lstrip_by p s with
  | String c _ => p c = false
  | EmptyString => True
  end.
Proof.
  induction s as [|c t IH]; [done|]. cbn. destruct (p c) eqn:Hc; [exact IH|done].
Qed.

Lemma rstrip_by_idem (p : ascii → bool) (s : string) :
  rstrip_by p (rstrip_by p s) = rstrip_by p s.
Proof.
  induction s as [|c t IH]; [done|]. cbn [rstrip_by].
  destruct (rstrip_by p t) as [|d t'] eqn:Ht.
  - destruct (p c) eqn:Hc; [done|]. cbn. by rewrite Hc.
  - change (match rstrip_by p (String d t') with
            | EmptyString => if p c then EmptyString else String c EmptyString
            | String _ _ as r' => String c r'
            end = String c (String d t')).
    by rewrite IH.
Qed.

Lemma rstrip_by_head (p : ascii → bool) (c : ascii) (t : string) :
  p c = false → ∃ t', rstrip_by p (String c t) = String c t'.
Proof.
  intros Hc. cbn. destruct (rstrip_by p t); rewrite ?Hc; eauto.
Qed.

Lemma strip_by_idem (p : ascii → bool) (s : string) :
  strip_by p (strip_by p s) = strip_by p s.
Proof.
  unfold strip_by. pose proof (lstrip_by_head p s) as Hh.
  destruct (lstrip_by p s) as [|c t]; [done|].
  destruct (rstrip_by_head p c t Hh) as [t' Ht']. rewrite Ht'.
  cbn [lstrip_by]. rewrite Hh, <- Ht'. apply rstrip_by_idem.
Qed.

Lemma all_chars_lstrip (ok p : ascii → bool) (s : string) :
  all_chars ok s = true → all_chars ok (lstrip_by p s) = true.
Proof.
  induction s as [|c t IH]; [done|]. cbn [lstrip_by].
  destruct (p c); [|done]. cbn. intros [_ ?]%andb_prop. auto.
Qed.

Lemma all_chars_rstrip (ok p : ascii → bool) (s : string) :
  all_chars ok s = true → all_chars ok (rstrip_by p s) = true.
Proof.
  induction s as [|c t IH]; [done|]. cbn [all_chars rstrip_by].
  intros [Hc Ht]%andb_prop. specialize (IH Ht).
  destruct (rstrip_by p t); [destruct (p c); cbn; by rewrite ?Hc|].
  cbn [all_chars] in *. by rewrite Hc.
Qed.

Lemma lower_char_namespace (c : ascii) :
  namespace_char (if namespace_keep (lower_char c) then lower_char c else "_"%char) = true.
Proof. destruct c as [[] [] [] [] [] [] [] []]; reflexivity. Qed.

Lemma underscore_lower_chars (s : string) :
  all_chars namespace_char (underscore_others (py_lower s)) = true.
Proof.
  induction s as [|c t IH]; [done|].
  cbn [py_lower underscore_others all_chars]. by rewrite lower_char_namespace.
Qed.

(** C9.  The namespace of a company name is its lower-cased text with
    every character other than [a-z], [0-9], [_] and [-] replaced by [_],
    and then the underscores at both ends stripped; it is a function of
    the name alone, holds only such characters, and has no underscore left
    to strip. *)
Theorem namespace_of_identifier (company_name : string) :
  store_namespace company_name
  = py_strip_chars "_" (underscore_others (py_lower company_name))
  ∧ all_chars namespace_char (store_namespace company_name) = true
  ∧ py_strip_chars "_" (store_namespace company_name) = store_namespace company_name.
Proof.
  unfold store_namespace. rewrite sub_not_namespace_char. split; [done|]. split.
  - unfold py_strip_chars, strip_by.
    apply all_chars_rstrip, all_chars_lstrip, underscore_lower_chars.
  - apply strip_by_idem.
Qed.

Lemma namespace_keeps_hyphen_drops_edges :
  store_namespace "Coca-Cola Co." = "coca-cola_co"
  ∧ namespace_key "Coca-Cola Co." = "coca_cola_co_".
Proof. vm_compute. auto. Qed.

(** ** Fan-in *)

Lemma combine_step_app (st : state) (acc : list pyval) (i : nat) :
  combine_step st acc i = acc ++ shard_items st i.
Proof.
  unfold shard_items, combine_step.
  repeat (match goal with |- context [match ?x with _ => _ end] => destruct x end);
    by rewrite ?app_nil_r.
Qed.

Lemma foldl_combine_step (st : state) (shards : list nat) :
  ∀ acc, foldl (combine_step st) acc shards
         = acc ++ concat (shard_items st <$> shards).
Proof.
  induction shards as [|i l IH]; intros acc; cbn; [by rewrite app_nil_r|].
  by rewrite IH, combine_step_app, app_assoc.
Qed.

Lemma combined_companies_concat (st : state) :
  combined_companies st = concat (shard_items st <$> seq 0 5).
Proof. unfold combined_companies. by rewrite foldl_combine_step. Qed.

Lemma digits_string_inj (a b : Decimal.uint) :
  digits_string a = digits_string b → a = b.
Proof.
  intros H. apply (f_equal NilEmpty.uint_of_string) in H.
  unfold digits_string in H. rewrite !NilEmpty.usu in H. congruence.
Qed.

Lemma int_repr_of_nat_inj (i j : nat) :
  int_repr (Z.of_nat i) = int_repr (Z.of_nat j) → i = j.
Proof.
  unfold int_repr. intros H.
  assert (Z.to_int (Z.of_nat i) = Z.to_int (Z.of_nat j)) as Heq.
  { destruct (Z.to_int (Z.of_nat i)) eqn:Hi, (Z.to_int (Z.of_nat j)) eqn:Hj.
    - f_equal. by apply digits_string_inj.
    - exfalso. destruct (Z.of_nat j) eqn:Hz; try discriminate Hj. lia.
    - exfalso. destruct (Z.of_nat i) eqn:Hz; try discriminate Hi. lia.
    - injection H as H. f_equal. by apply digits_string_inj. }
  apply DecimalZ.to_int_inj in Heq. lia.
Qed.

Lemma shard_key_inj (i j : nat) : shard_key i = shard_key j → i = j.
Proof.
  unfold shard_key. intros H. apply int_repr_of_nat_inj.
  by eapply (inj (String.app "company_data_")).
Qed.

Lemma gatherer_done_lookup (reply : nat → option string) (st : state) (j i : nat) :
  gatherer_done reply st j !! shard_key i =
  if decide (j = i)
  then match reply i with Some text => Some (PyStr text) | None => st !! shard_key i end
  else st !! shard_key i.
Proof.
  unfold gatherer_done. destruct (decide (j = i)) as [->|Hne].
  - destruct (reply i); [by rewrite lookup_insert_eq|done].
  - destruct (reply j); [|done]. rewrite lookup_insert_ne; [done|].
    intros H. by apply shard_key_inj in H.
Qed.

Lemma parallel_research_lookup (reply : nat → option string) (completion : list nat) :
  ∀ (st : state) (i : nat),
    parallel_research reply completion st !! shard_key i =
    if decide (i ∈ completion)
    then match reply i with Some text => Some (PyStr text) | None => st !! shard_key i end
    else st !! shard_key i.
Proof.
  unfold parallel_research.
  induction completion as [|j l IH]; intros st i; [done|].
  cbn [foldl]. rewrite IH, gatherer_done_lookup.
  destruct (decide (i ∈ l)) as [Hin|Hin], (decide (j = i)) as [->|Hne],
    (decide (i ∈ _ :: l)) as [Hc|Hc];
    try (exfalso; apply Hc, elem_of_cons; by auto);
    try (exfalso; apply elem_of_cons in Hc as [?|?]; by subst);
    by destruct (reply i).
Qed.

Lemma shard_items_ext (st1 st2 : state) (i : nat) :
  st1 !! shard_key i = st2 !! shard_key i → shard_items st1 i = shard_items st2 i.
Proof. unfold shard_items, combine_step, get. by intros ->. Qed.




(** ** The envelope parser *)



Lemma agent_step_decode (messages : list pyval) (part : string) :
  agent_step messages part = messages ++ option_list (agent_decode part).
Proof.
  unfold agent_step, agent_decode. destruct (String.eqb _ _); cbn; [by rewrite app_nil_r|].
  destruct (decode_object _); cbn; by rewrite ?app_nil_r.
Qed.

Lemma server_step_decode (messages : list pyval) (part : string) :
  server_step messages part = messages ++ option_list (server_decode part).
Proof.
  unfold server_step, server_decode. destruct (String.eqb _ _); cbn; [by rewrite app_nil_r|].
  destruct (decode_object _); cbn; by rewrite ?app_nil_r.
Qed.

Section Envelope.
Variable step : list pyval → string → list pyval.
Variable decode : string → option pyval.
Hypothesis step_decode : ∀ messages part,
  step messages part = messages ++ option_list (decode part).
Hypothesis decode_non_empty : ∀ part, is_Some (decode part) → non_empty_segment part = true.

Lemma foldl_step_omap (parts : list string) :
  ∀ acc, foldl step acc parts = acc ++ omap decode parts.
Proof.
  induction parts as [|p ps IH]; intros acc; cbn [foldl omap list_omap].
  - by rewrite app_nil_r.
  - rewrite IH, step_decode, <- app_assoc. by destruct (decode p).
Qed.

Lemma length_omap_decoded (parts : list string) :
  length (omap decode parts) = length (filter (λ p, is_Some (decode p)) parts).
Proof.
  induction parts as [|p ps IH]; [done|]. cbn [omap list_omap]. rewrite filter_cons.
  destruct (decode p) eqn:Hp.
  - rewrite decide_True by eauto. cbn. by rewrite IH.
  - rewrite decide_False by (by intros [? ?]). exact IH.
Qed.

Lemma length_omap_non_empty (parts : list string) :
  (length (omap decode parts)
   ≤ length (filter (λ p, non_empty_segment p = true) parts))%nat.
Proof.
  induction parts as [|p ps IH]; [done|]. cbn [omap list_omap]. rewrite filter_cons.
  destruct (decode p) eqn:Hp.
  - rewrite decide_True by (apply decode_non_empty; rewrite Hp; eauto). cbn. lia.
  - destruct (decide _); cbn; lia.
Qed.

Lemma extract_with_spec (delimiter text : string) (before after : list string) (part : string) :
  let parts := py_split delimiter text in
  extract_with step delimiter text = omap decode parts
  ∧ length (extract_with step delimiter text)
    = length (filter (λ p, is_Some (decode p)) parts)
  ∧ (length (extract_with step delimiter text)
     ≤ length (filter (λ p, non_empty_segment p = true) parts))%nat
  ∧ foldl step [] (before ++ part :: after)
    = foldl step [] before ++ option_list (decode part) ++ foldl step [] after.
Proof.
  intros parts. unfold extract_with. fold parts. rewrite !foldl_step_omap. cbn [app].
  split; [done|]. split; [apply length_omap_decoded|]. split; [apply length_omap_non_empty|].
  rewrite omap_app. cbn [omap list_omap]. by destruct (decode part).
Qed.

End Envelope.

Lemma agent_decode_non_empty (part : string) :
  is_Some (agent_decode part) → non_empty_segment part = true.
Proof.
  unfold agent_decode, non_empty_segment. destruct (String.eqb _ _); [by intros [? ?]|done].
Qed.

Lemma server_decode_non_empty (part : string) :
  is_Some (server_decode part) → non_empty_segment part = true.
Proof.
  unfold server_decode, non_empty_segment. destruct (String.eqb _ _); [by intros [? ?]|done].
Qed.


(** ** Strings *)

Lemma append_cons (c : ascii) (a b : string) :
  String c a +:+ b = String c (a +:+ b).
Proof. reflexivity. Qed.

Lemma append_nil_l (s : string) : "" +:+ s = s.
Proof. reflexivity. Qed.

Lemma append_nil_r (s : string) : s +:+ "" = s.
Proof. induction s as [|c s IH]; [done|]. by rewrite append_cons, IH. Qed.

Lemma append_assoc (a b c : string) : (a +:+ b) +:+ c = a +:+ b +:+ c.
Proof. induction a as [|x a IH]; [done|]. by rewrite !append_cons, IH. Qed.

Lemma length_append (a b : string) :
  String.length (a +:+ b) = (String.length a + String.length b)%nat.
Proof. induction a as [|x a IH]; [done|]. rewrite append_cons. cbn. by rewrite IH. Qed.

Lemma str_take_length_append (a b : string) :
  str_take (String.length a) (a +:+ b) = a.
Proof.
  induction a as [|x a IH]; [by destruct b|]. rewrite append_cons. cbn. by rewrite IH.
Qed.

Lemma str_take_append (a b : string) :
  str_take (String.length (a +:+ b) - String.length b) (a +:+ b) = a.
Proof.
  rewrite length_append.
  replace (String.length a + String.length b - String.length b)%nat
    with (String.length a) by lia.
  apply str_take_length_append.
Qed.

(** ** The greedy object pattern *)

Lemma star_any_last_close (n : nat) :
  ∀ (s : string) (b : bool),
    (String.length s ≤ n)%nat →
    (fix star (n : nat) (b : bool) (s : string) {struct n} : option string :=
       match n with
       | O => close_then_rest b s
       | S n' =>
           match rx (Chr (λ _, true)) b s
                   (λ b' s', if (String.length s' <? String.length s)%nat
                             then star n' b' s' else None) with
           | Some x => Some x
           | None => close_then_rest b s
           end
       end) n b s
    = after_last_close s.
Proof.
  induction n as [|n IH]; intros s b Hlen.
  - destruct s; [done|]. cbn in Hlen. lia.
  - destruct s as [|c t]; [done|]. cbn [String.length] in Hlen.
    cbn [rx]. cbn [String.length].
    replace (String.length t <? S (String.length t))%nat with true
      by (symmetry; apply Nat.ltb_lt; lia).
    rewrite IH by lia.
    cbn [after_last_close]. destruct (after_last_close t); [done|].
    unfold close_then_rest, chr. cbn [rx]. by rewrite Ascii.eqb_sym.
Qed.

Lemma match_at_json_object (b : bool) (s : string) :
  match_at json_object b s =
  match s with
  | String c t =>
      if Ascii.eqb c "{" then
        match after_last_close t with
        | Some rest => Some (str_take (String.length s - String.length rest) s, rest)
        | None => None
        end
      else None
  | EmptyString => None
  end.
Proof.
  unfold match_at, json_object, chr. destruct s as [|c t]; [done|].
  cbn [rx]. rewrite (Ascii.eqb_sym "{" c). destruct (Ascii.eqb c "{"); [|done].
  change (rx (Star (Chr (λ _, true))) false t
            (λ b' s', rx (Chr (Ascii.eqb "}")) b' s' (λ _ rest, Some rest)))
    with ((fix star (n : nat) (b : bool) (s : string) {struct n} : option string :=
       match n with
       | O => close_then_rest b s
       | S n' =>
           match rx (Chr (λ _, true)) b s
                   (λ b' s', if (String.length s' <? String.length s)%nat
                             then star n' b' s' else None) with
           | Some x => Some x
           | None => close_then_rest b s
           end
       end) (String.length t) false t).
  by rewrite star_any_last_close.
Qed.

Lemma after_last_close_tail (c : ascii) (t : string) :
  after_last_close (String c t) = None → after_last_close t = None.
Proof. cbn. by destruct (after_last_close t). Qed.

Lemma search_go_no_close (s : string) :
  ∀ b, after_last_close s = None → search_go json_object b s = None.
Proof.
  induction s as [|c t IH]; intros b Hs; [done|].
  cbn [search_go]. rewrite match_at_json_object.
  rewrite (after_last_close_tail _ _ Hs), IH by (by eapply after_last_close_tail).
  by destruct (Ascii.eqb c "{").
Qed.

Lemma after_last_close_split (s rest : string) :
  after_last_close s = Some rest →
  ∃ mid, s = mid +:+ "}" +:+ rest ∧ mem "}" rest = false.
Proof.
  revert rest. induction s as [|c t IH]; intros rest; [done|]. cbn [after_last_close].
  destruct (after_last_close t) as [r|] eqn:Ht.
  - intros [= <-]. destruct (IH r eq_refl) as (mid & -> & Hr).
    exists (String c mid). by rewrite append_cons.
  - destruct (Ascii.eqb_spec c "}") as [->|]; [|done]. intros [= <-].
    exists "". split; [done|]. clear IH.
    induction t as [|d t IH]; [done|]. cbn [after_last_close] in Ht. cbn [mem].
    destruct (after_last_close t); [done|].
    rewrite Ascii.eqb_sym. destruct (Ascii.eqb d "}"); [done|]. by apply IH.
Qed.

Lemma search_json_object_greedy (part : string) :
  ∀ b m,
    search_go json_object b part = Some m →
    ∃ pre mid post,
      part = pre +:+ "{" +:+ mid +:+ "}" +:+ post
      ∧ m = "{" +:+ mid +:+ "}"
      ∧ mem "{" pre = false
      ∧ mem "}" post = false.
Proof.
  induction part as [|c t IH]; intros b m; [done|].
  cbn [search_go]. rewrite match_at_json_object.
  destruct (Ascii.eqb_spec c "{") as [->|Hc].
  - destruct (after_last_close t) as [rest|] eqn:Ht.
    + intros [= <-]. destruct (after_last_close_split _ _ Ht) as (mid & -> & Hrest).
      exists "", mid, rest. rewrite !append_nil_l. split; [done|]. split; [|done].
      replace (String "{" (mid +:+ "}" +:+ rest)) with (("{" +:+ mid +:+ "}") +:+ rest)
        by (by rewrite !append_assoc).
      replace (S (String.length (mid +:+ "}" +:+ rest)) - String.length rest)%nat
        with (String.length ("{" +:+ mid +:+ "}"))
        by (rewrite !length_append; cbn [String.length]; lia).
      apply str_take_length_append.
    + by rewrite search_go_no_close.
  - intros (pre & mid & post & -> & -> & Hpre & Hpost)%IH.
    exists (String c pre), mid, post. split; [done|]. split; [done|]. split; [|done].
    cbn [mem]. rewrite Ascii.eqb_sym. by apply Ascii.eqb_neq in Hc as ->.
Qed.

Lemma after_last_close_append (mid post : string) :
  mem "}" post = false → after_last_close (mid +:+ "}" +:+ post) = Some post.
Proof.
  intros Hpost.
  assert (Hnone : after_last_close post = None).
  { induction post as [|d t IH]; [done|]. cbn [mem] in Hpost.
    apply orb_false_elim in Hpost as [Hd Ht]. cbn [after_last_close].
    rewrite (IH Ht). rewrite Ascii.eqb_sym in Hd. by rewrite Hd. }
  induction mid as [|c mid IH].
  - rewrite append_nil_l. change ("}" +:+ post) with (String "}" post).
    cbn [after_last_close]. by rewrite Hnone.
  - rewrite append_cons. cbn [after_last_close]. by rewrite IH.
Qed.

Lemma search_json_object_found (pre mid post : string) :
  mem "{" pre = false →
  mem "}" post = false →
  ∀ b, search_go json_object b (pre +:+ "{" +:+ mid +:+ "}" +:+ post)
       = Some ("{" +:+ mid +:+ "}").
Proof.
  intros Hpre Hpost. induction pre as [|c pre IH]; intros b.
  - rewrite append_nil_l. change ("{" +:+ mid +:+ "}" +:+ post)
      with (String "{" (mid +:+ "}" +:+ post)).
    cbn [search_go]. rewrite match_at_json_object. cbn [Ascii.eqb Bool.eqb].
    rewrite after_last_close_append by done.
    replace (String.length (String "{" (mid +:+ "}" +:+ post)) - String.length post)%nat
      with (String.length ("{" +:+ mid +:+ "}"))
      by (cbn [String.length]; rewrite !length_append; cbn [String.length]; lia).
    replace (String "{" (mid +:+ "}" +:+ post)) with (("{" +:+ mid +:+ "}") +:+ post)
      by (by rewrite !append_assoc).
    by rewrite str_take_length_append.
  - cbn [mem] in Hpre. apply orb_false_elim in Hpre as [Hc Hpre].
    rewrite append_cons. cbn [search_go]. rewrite match_at_json_object.
    rewrite Ascii.eqb_sym in Hc. rewrite Hc. by apply IH.
Qed.

(** C4.  What a segment's object pattern matches is the text from the
    first opening brace to the LAST closing brace of the segment, and that
    text is what is handed to [json.loads]; on the blob with a bad segment
    followed by a good one, both parsers and both delimiters give the one
    decoded message. *)
Theorem envelope_parser_takes_first_to_last_brace (part m : string) :
  (search json_object part = Some m
   ↔ ∃ pre mid post,
       part = pre +:+ "{" +:+ mid +:+ "}" +:+ post
       ∧ m = "{" +:+ mid +:+ "}"
       ∧ mem "{" pre = false
       ∧ mem "}" post = false)
  ∧ (search json_object part = Some m →
     decode_object part
     = match json_loads m with
       | Some parsed => if is_dict parsed then Some parsed else None
       | None => None
       end)
  ∧ extract_a2ui_messages scenario_blob = [PyDict [("k", PyInt 1)]]
  ∧ server_extract_a2ui_messages scenario_blob = [PyDict [("k", PyInt 1)]]
  ∧ extract_with agent_step "---SEP---" scenario_blob_sep = [PyDict [("k", PyInt 1)]]
  ∧ extract_with server_step "---SEP---" scenario_blob_sep = [PyDict [("k", PyInt 1)]].
Proof.
  split; [split|split].
  - apply search_json_object_greedy.
  - intros (pre & mid & post & -> & -> & Hpre & Hpost).
    by apply search_json_object_found.
  - intros Hm. unfold decode_object. by rewrite Hm.
  - vm_compute. auto.
Qed.

Lemma first_balanced_object_is_not_what_is_parsed :
  search json_object two_objects = Some two_objects
  ∧ first_balanced_object two_objects = Some (q "{'a':1}")
  ∧ extract_a2ui_messages two_objects = []
  ∧ balanced_decode two_objects = Some (PyDict [("a", PyInt 1)]).
Proof. vm_compute. auto. Qed.

(** ** JSON: strings *)

Lemma scanstring_escape_char (c : ascii) (t : string) :
  scanstring (escape_char c +:+ t) =
  match scanstring t with
  | Some (u, rest) => Some (String c u, rest)
  | None => None
  end.
Proof. destruct c as [[] [] [] [] [] [] [] []]; reflexivity. Qed.

Lemma scanstring_escape_body (s rest : string) :
  scanstring (escape_body s +:+ String dquote rest) = Some (s, rest).
Proof.
  induction s as [|c s IH]; [done|].
  cbn [escape_body]. rewrite append_assoc, scanstring_escape_char, IH. done.
Qed.

(** ** JSON: numbers *)

Lemma scan_digits_digits_string (d : Decimal.uint) (rest : string) :
  match rest with String c _ => is_digit c = false | EmptyString => True end →
  scan_digits (digits_string d +:+ rest) = (d, rest).
Proof.
  intros Hrest. unfold digits_string.
  induction d; cbn [NilEmpty.string_of_uint];
    try (rewrite append_cons; cbn [scan_digits]; rewrite IHd; reflexivity).
  rewrite append_nil_l. destruct rest as [|c t]; [done|]. cbn. by rewrite Hrest.
Qed.

Lemma ends_value_not_digit (rest : string) :
  ends_value rest = true →
  match rest with String c _ => is_digit c = false | EmptyString => True end.
Proof.
  destruct rest as [|c t]; [done|]. cbn. intros H%negb_true_iff.
  by apply orb_false_elim in H as [[[? _]%orb_false_elim _]%orb_false_elim _].
Qed.

Lemma unorm_to_uint (p : positive) :
  Decimal.unorm (Pos.to_uint p) = Pos.to_uint p.
Proof.
  rewrite <- (DecimalPos.Unsigned.to_of (Pos.to_uint p)).
  by rewrite DecimalPos.Unsigned.of_to.
Qed.

Lemma scan_nat_to_uint (p : positive) (rest : string) :
  ends_value rest = true →
  scan_nat (digits_string (Pos.to_uint p) +:+ rest) = Some (Z.pos p, rest).
Proof.
  intros Hrest. unfold scan_nat.
  rewrite scan_digits_digits_string by (by apply ends_value_not_digit).
  pose proof (DecimalPos.Unsigned.to_uint_nonnil p) as Hnil.
  destruct (Pos.to_uint p) eqn:Hp; [done|..];
    rewrite <- Hp; unfold uint_eqb; rewrite unorm_to_uint;
    (destruct (Decimal.uint_eq_dec _ _); [|done]);
    (assert (Z.of_uint (Pos.to_uint p) = Z.pos p) as ->
       by (unfold Z.of_uint; by rewrite DecimalPos.Unsigned.of_to));
    (destruct rest as [|c t]; [done|]); cbn in Hrest;
    apply negb_true_iff in Hrest; by rewrite Hrest.
Qed.

Lemma scan_nat_zero (rest : string) :
  ends_value rest = true →
  scan_nat ("0" +:+ rest) = Some (0, rest).
Proof.
  intros Hrest. unfold scan_nat.
  change ("0" +:+ rest) with (digits_string (Decimal.D0 Decimal.Nil) +:+ rest).
  rewrite scan_digits_digits_string by (by apply ends_value_not_digit).
  cbn. destruct rest as [|c t]; [done|]. cbn in Hrest.
  apply negb_true_iff in Hrest. by rewrite Hrest.
Qed.

Lemma digits_string_head (p : positive) :
  ∃ c t, digits_string (Pos.to_uint p) = String c t ∧ is_digit c = true.
Proof.
  pose proof (DecimalPos.Unsigned.to_uint_nonnil p) as Hnil.
  unfold digits_string. destruct (Pos.to_uint p); [done|..]; cbn; eauto.
Qed.

Lemma scan_number_int_repr (z : Z) (rest : string) :
  ends_value rest = true →
  scan_number (int_repr z +:+ rest) = Some (PyInt z, rest).
Proof.
  intros Hrest. unfold int_repr. destruct z as [|p|p]; cbn [Z.to_int].
  - change (digits_string Decimal.zero) with "0".
    change ("0" +:+ rest) with (String "0" rest). unfold scan_number.
    cbn [Ascii.eqb Bool.eqb]. change (String "0" rest) with ("0" +:+ rest).
    by rewrite scan_nat_zero.
  - destruct (digits_string_head p) as (c & t & Hd & Hc).
    unfold scan_number. rewrite Hd, append_cons.
    assert (Ascii.eqb c "-" = false) as ->.
    { destruct c as [[] [] [] [] [] [] [] []]; try done; by vm_compute in Hc. }
    rewrite <- append_cons, <- Hd. by rewrite scan_nat_to_uint.
  - rewrite append_cons. unfold scan_number. cbn [Ascii.eqb Bool.eqb].
    by rewrite scan_nat_to_uint.
Qed.

Lemma int_repr_head (z : Z) :
  ∃ c t, int_repr z = String c t ∧ (is_digit c || Ascii.eqb c "-") = true.
Proof.
  unfold int_repr. destruct z as [|p|p]; cbn [Z.to_int].
  - by exists "0"%char, "".
  - destruct (digits_string_head p) as (c & t & -> & Hc). exists c, t. by rewrite Hc.
  - by exists "-"%char, (digits_string (Pos.to_uint p)).
Qed.

(** ** JSON: the encoder's output *)

Lemma py_join_cons (sep p : string) (ps : list string) :
  py_join sep (p :: ps) = p +:+ join_tail sep ps.
Proof.
  revert p. induction ps as [|p' ps IH]; intros p.
  - cbn. by rewrite append_nil_r.
  - change (py_join sep (p :: p' :: ps)) with (p +:+ sep +:+ py_join sep (p' :: ps)).
    by rewrite IH.
Qed.

Lemma value_start_facts (c : ascii) :
  value_start c = true →
  is_ws c = false ∧ py_isspace c = false
  ∧ Ascii.eqb c "]" = false ∧ Ascii.eqb c "}" = false ∧ Ascii.eqb c "`" = false.
Proof. destruct c as [[] [] [] [] [] [] [] []]; vm_compute; intros; done. Qed.

Lemma number_start_facts (c : ascii) :
  (is_digit c || Ascii.eqb c "-") = true →
  value_start c = true
  ∧ Ascii.eqb c dquote = false ∧ Ascii.eqb c "{" = false ∧ Ascii.eqb c "[" = false
  ∧ Ascii.eqb "n" c = false ∧ Ascii.eqb "t" c = false ∧ Ascii.eqb "f" c = false.
Proof. destruct c as [[] [] [] [] [] [] [] []]; vm_compute; intros; done. Qed.

Lemma encode_head (indent : option nat) (level : nat) (v : pyval) :
  ∃ c t, encode indent level v = String c t ∧ value_start c = true.
Proof.
  destruct v as [|[]|z|s|[|x xs]|[|kv d]]; try (by eexists _, _).
  destruct (int_repr_head z) as (c & t & Hz & Hc). exists c, t. split; [done|].
  by apply number_start_facts.
Qed.

Lemma skip_ws_head (c : ascii) (t : string) :
  is_ws c = false → skip_ws (String c t) = String c t.
Proof. intros H. unfold skip_ws. cbn. by rewrite H. Qed.

Lemma skip_ws_encode (indent : option nat) (level : nat) (v : pyval) (rest : string) :
  skip_ws (encode indent level v +:+ rest) = encode indent level v +:+ rest.
Proof.
  destruct (encode_head indent level v) as (c & t & -> & Hc).
  rewrite append_cons. apply skip_ws_head. by apply value_start_facts.
Qed.

Lemma skip_ws_spaces (n : nat) (t : string) :
  skip_ws (spaces n +:+ t) = skip_ws t.
Proof. induction n as [|n IH]; [done|]. cbn [spaces]. by rewrite append_cons. Qed.

Lemma skip_ws_newline_indent (indent : option nat) (level : nat) (t : string) :
  skip_ws (newline_indent indent level +:+ t) = skip_ws t.
Proof.
  destruct indent as [w|]; [|done]. unfold newline_indent, newline.
  rewrite append_assoc, append_cons, append_nil_l.
  change (skip_ws (String "010" ?x)) with (skip_ws x). apply skip_ws_spaces.
Qed.

Lemma ends_value_head (c : ascii) (t : string) :
  (is_ws c || Ascii.eqb c "," || Ascii.eqb c "]" || Ascii.eqb c "}") = true →
  ends_value (String c t) = true.
Proof. destruct c as [[] [] [] [] [] [] [] []]; vm_compute; intros; done. Qed.

Lemma item_sep_skip (indent : option nat) (level : nat) (t : string) :
  ∃ r, item_sep indent level +:+ t = String "," r ∧ skip_ws r = skip_ws t.
Proof.
  destruct indent as [w|].
  - exists (newline_indent (Some w) level +:+ t). split.
    + unfold item_sep. by rewrite append_assoc.
    + apply skip_ws_newline_indent.
  - by exists (String " " t).
Qed.

Lemma close_skip (indent : option nat) (level : nat) (c : ascii) (rest : string) :
  is_ws c = false →
  skip_ws (newline_indent indent level +:+ String c rest) = String c rest.
Proof. intros Hc. rewrite skip_ws_newline_indent. by apply skip_ws_head. Qed.

Lemma ends_value_close (indent : option nat) (level : nat) (c : ascii) (rest : string) :
  (Ascii.eqb c "]" || Ascii.eqb c "}") = true →
  ends_value (newline_indent indent level +:+ String c rest) = true.
Proof.
  intros Hc. destruct indent as [w|].
  - unfold newline_indent, newline. by rewrite append_assoc.
  - rewrite append_nil_l. apply ends_value_head.
    apply orb_prop in Hc as [-> | ->]; by rewrite ?orb_true_r.
Qed.

Lemma ends_value_item_sep (indent : option nat) (level : nat) (t : string) :
  ends_value (item_sep indent level +:+ t) = true.
Proof. destruct (item_sep_skip indent level t) as (r & -> & _). done. Qed.

Lemma encode_entry_append (indent : option nat) (level : nat)
    (k : string) (v : pyval) (t : string) :
  encode_entry indent level (k, v) +:+ t
  = String dquote (escape_body k +:+ String dquote (": " +:+ encode indent level v +:+ t)).
Proof.
  unfold encode_entry, encode_str. cbn [fst snd].
  by rewrite !append_cons, !append_assoc, append_cons, append_nil_l.
Qed.

Lemma dict_set_fresh (k : string) (v : pyval) (acc : list (string * pyval)) :
  k ∉ map fst acc → dict_set k v acc = acc ++ [(k, v)].
Proof.
  induction acc as [|[k' v'] acc IH]; [done|]. cbn [map fst dict_set app].
  intros Hk. apply not_elem_of_cons in Hk as [Hne Hk].
  destruct (String.eqb_spec k k'); [done|]. by rewrite IH.
Qed.

Section RoundTrip.

Variable indent : option nat.
Variable N : nat.
Hypothesis parse_smaller : ∀ m v level rest,
  (m ≤ N)%nat → (fuel_of v < m)%nat → distinct_keys v = true → ends_value rest = true →
  parse_value m (encode indent level v +:+ rest) = Some (v, rest).

Lemma parse_elems_encode (level level' : nat) (rest : string) (xs : list pyval) :
  ∀ (x : pyval) (acc : list pyval) (m : nat),
    (S m ≤ N)%nat →
    (list_sum (map (λ x, S (fuel_of x)) (x :: xs)) < S m)%nat →
    forallb distinct_keys (x :: xs) = true →
    parse_elems (S m)
      (encode indent level x
       +:+ join_tail (item_sep indent level) (map (encode indent level) xs)
       +:+ newline_indent indent level' +:+ String "]" rest) acc
    = Some (PyList (acc ++ x :: xs), rest).
Proof.
  induction xs as [|y ys IH]; intros x acc m Hm Hfuel Hkeys;
    cbn [map list_sum foldr fold_right forallb] in Hfuel, Hkeys;
    apply andb_prop in Hkeys as [Hx Hkeys]; cbn [parse_elems map join_tail].
  - rewrite append_nil_l.
    rewrite parse_smaller; [|lia|lia|done|by apply ends_value_close].
    by rewrite close_skip.
  - rewrite !append_assoc.
    rewrite parse_smaller; [|lia|lia|done|by apply ends_value_item_sep].
    destruct (item_sep_skip indent level
                (encode indent level y
                 +:+ join_tail (item_sep indent level) (map (encode indent level) ys)
                 +:+ newline_indent indent level' +:+ String "]" rest))
      as (r & -> & Hr).
    rewrite skip_ws_head by done. cbn [Ascii.eqb Bool.eqb].
    rewrite Hr, skip_ws_encode.
    destruct m as [|m]; [lia|].
    rewrite IH; [|lia|cbn [map list_sum foldr fold_right]; lia|done].
    by rewrite <- app_assoc.
Qed.

Lemma parse_members_encode (level level' : nat) (rest : string)
    (d : list (string * pyval)) :
  ∀ (k : string) (v : pyval) (acc : list (string * pyval)) (m : nat),
    (S m ≤ N)%nat →
    (list_sum (map (λ kv, S (fuel_of (snd kv))) ((k, v) :: d)) < S m)%nat →
    NoDup (map fst (acc ++ (k, v) :: d)) →
    forallb (λ kv, distinct_keys (snd kv)) ((k, v) :: d) = true →
    parse_members (S m)
      (escape_body k
       +:+ String dquote
             (": " +:+ encode indent level v
              +:+ join_tail (item_sep indent level) (map (encode_entry indent level) d)
              +:+ newline_indent indent level' +:+ String "}" rest)) acc
    = Some (PyDict (acc ++ (k, v) :: d), rest).
Proof.
  induction d as [|[k' v'] d IH]; intros k v acc m Hm Hfuel Hnd Hkeys;
    cbn [map list_sum foldr fold_right forallb fst snd] in Hfuel, Hkeys;
    apply andb_prop in Hkeys as [Hv Hkeys]; cbn [parse_members map join_tail];
    rewrite scanstring_escape_body;
    change (": " +:+ ?t) with (String ":" (String " " t));
    rewrite skip_ws_head by done; cbn [Ascii.eqb Bool.eqb];
    change (skip_ws (String " " ?t)) with (skip_ws t);
    rewrite skip_ws_encode.
  - rewrite append_nil_l.
    rewrite parse_smaller; [|lia|lia|done|by apply ends_value_close].
    rewrite close_skip by done. cbn [Ascii.eqb Bool.eqb].
    rewrite dict_set_fresh; [done|].
    rewrite map_app in Hnd. apply NoDup_app in Hnd as (_ & Hnd & _).
    intros Hin. apply (Hnd _ Hin). cbn. apply elem_of_cons. by left.
  - rewrite !append_assoc.
    rewrite parse_smaller; [|lia|lia|done|by apply ends_value_item_sep].
    destruct (item_sep_skip indent level
                (encode_entry indent level (k', v')
                 +:+ join_tail (item_sep indent level) (map (encode_entry indent level) d)
                 +:+ newline_indent indent level' +:+ String "}" rest))
      as (r & -> & Hr).
    rewrite skip_ws_head by done. cbn [Ascii.eqb Bool.eqb].
    rewrite Hr, encode_entry_append, skip_ws_head by done.
    replace (Ascii.eqb dquote dquote) with true by done.
    assert (Hfresh : dict_set k v acc = acc ++ [(k, v)]).
    { apply dict_set_fresh. rewrite map_app in Hnd.
      apply NoDup_app in Hnd as (_ & Hnd & _).
      intros Hin. apply (Hnd _ Hin). cbn. apply elem_of_cons. by left. }
    rewrite Hfresh. destruct m as [|m]; [lia|].
    rewrite IH; [|lia|cbn [map list_sum foldr fold_right fst snd]; lia| |done].
    + by rewrite <- app_assoc.
    + by rewrite <- app_assoc.
Qed.

End RoundTrip.

Ltac eqb_eval :=
  repeat match goal with
         | |- context [Ascii.eqb ?a ?b] =>
             let v := eval vm_compute in (Ascii.eqb a b) in
             match v with
             | true => change (Ascii.eqb a b) with true
             | false => change (Ascii.eqb a b) with false
             end
         end;
  cbv iota.

Lemma parse_encode (indent : option nat) (n : nat) :
  ∀ (v : pyval) (level : nat) (rest : string),
    (fuel_of v < n)%nat → distinct_keys v = true → ends_value rest = true →
    parse_value n (encode indent level v +:+ rest) = Some (v, rest).
Proof.
  induction n as [n IHn] using lt_wf_ind. intros v level rest Hfuel Hkeys Hrest.
  destruct n as [|n]; [lia|].
  assert (Hsmaller : ∀ m v level rest,
    (m ≤ n)%nat → (fuel_of v < m)%nat → distinct_keys v = true → ends_value rest = true →
    parse_value m (encode indent level v +:+ rest) = Some (v, rest)).
  { intros m ? ? ? Hm. apply IHn. lia. }
  destruct v as [|[]|z|s|[|x xs]|[|[k v] d]]; try reflexivity.
  - (* int *)
    cbn [encode]. destruct (int_repr_head z) as (c & t & Hz & Hc).
    apply number_start_facts in Hc as (_ & Hq & Hb & Hk & Hn & Ht & Hf).
    pose proof (scan_number_int_repr z rest Hrest) as Hscan.
    rewrite Hz, append_cons in *. cbn [parse_value startswith].
    by rewrite Hq, Hb, Hk, Hn, Ht, Hf.
  - (* str *)
    cbn [encode]. unfold encode_str.
    rewrite append_cons, append_assoc, append_cons, append_nil_l.
    cbn [parse_value]. replace (Ascii.eqb dquote dquote) with true by done.
    by rewrite scanstring_escape_body.
  - (* list *)
    change (encode indent level (PyList (x :: xs)))
      with ("[" +:+ newline_indent indent (S level)
            +:+ py_join (item_sep indent (S level))
                  (map (encode indent (S level)) (x :: xs))
            +:+ newline_indent indent level +:+ "]").
    cbn [fuel_of distinct_keys] in Hfuel, Hkeys.
    rewrite append_cons, append_nil_l, append_cons, !append_assoc.
    cbn [parse_value]. eqb_eval.
    rewrite skip_ws_newline_indent. cbn [map]. rewrite py_join_cons, !append_assoc.
    rewrite skip_ws_encode.
    destruct (encode_head indent (S level) x) as (c & t & Hx & Hc).
    apply value_start_facts in Hc as (_ & _ & Hc & _).
    rewrite Hx, append_cons, Hc, <- append_cons, <- Hx.
    destruct n as [|m]; [lia|].
    change ("]" +:+ rest) with (String "]" rest).
    apply (parse_elems_encode indent (S m) Hsmaller _ _ _ _ _ []); [lia|lia|done].
  - (* dict *)
    change (encode indent level (PyDict ((k, v) :: d)))
      with ("{" +:+ newline_indent indent (S level)
            +:+ py_join (item_sep indent (S level))
                  (map (encode_entry indent (S level)) ((k, v) :: d))
            +:+ newline_indent indent level +:+ "}").
    cbn [fuel_of distinct_keys] in Hfuel, Hkeys.
    apply andb_prop in Hkeys as [Hnd%bool_decide_eq_true Hvals].
    rewrite append_cons, append_nil_l, append_cons, !append_assoc.
    cbn [parse_value]. eqb_eval.
    rewrite skip_ws_newline_indent. cbn [map]. rewrite py_join_cons, !append_assoc.
    rewrite encode_entry_append, skip_ws_head by done. eqb_eval.
    destruct n as [|m]; [lia|].
    change ("}" +:+ rest) with (String "}" rest).
    apply (parse_members_encode indent (S m) Hsmaller _ _ _ _ _ _ []); [lia|lia|done|done].
Qed.

(** ** Induction on Python values *)

Lemma pyval_nested_ind (P : pyval → Prop) :
  P PyNone →
  (∀ b, P (PyBool b)) →
  (∀ z, P (PyInt z)) →
  (∀ s, P (PyStr s)) →
  (∀ l, Forall P l → P (PyList l)) →
  (∀ d, Forall (λ kv, P (snd kv)) d → P (PyDict d)) →
  ∀ v, P v.
Proof.
  intros HN HB HI HS HL HD.
  fix IH 1. intros [| b | z | s | l | d]; [done..| |].
  - apply HL. induction l as [|x l IHl]; constructor; [apply IH|exact IHl].
  - apply HD. induction d as [|[k x] d IHd]; constructor; [apply IH|exact IHd].
Qed.

Lemma length_join_tail (sep : string) (ps : list string) :
  String.length (join_tail sep ps)
  = list_sum (map (λ p, String.length sep + String.length p)%nat ps).
Proof.
  induction ps as [|p ps IH]; [done|]. cbn [join_tail map list_sum foldr fold_right].
  rewrite !length_append, IH. unfold list_sum. lia.
Qed.

Lemma length_item_sep (indent : option nat) (level : nat) :
  (1 ≤ String.length (item_sep indent level))%nat.
Proof.
  destruct indent; unfold item_sep; rewrite ?length_append; cbn [String.length]; lia.
Qed.

Lemma fuel_of_le_length (indent : option nat) (v : pyval) :
  ∀ level, (fuel_of v ≤ String.length (encode indent level v))%nat.
Proof.
  induction v as [| | | |l IH|d IH] using pyval_nested_ind; intros level;
    cbn [fuel_of]; try lia.
  - destruct l as [|x xs]; [cbv; lia|].
    change (encode indent level (PyList (x :: xs)))
      with ("[" +:+ newline_indent indent (S level)
            +:+ py_join (item_sep indent (S level))
                  (map (encode indent (S level)) (x :: xs))
            +:+ newline_indent indent level +:+ "]").
    cbn [map]. rewrite py_join_cons, !length_append, length_join_tail.
    cbn [String.length map list_sum foldr fold_right].
    apply Forall_cons in IH as [Hx IH]. specialize (Hx (S level)).
    pose proof (length_item_sep indent (S level)) as Hsep.
    assert (list_sum (map (λ x, S (fuel_of x)) xs)
            ≤ list_sum (map (λ p, String.length (item_sep indent (S level)) + String.length p)
                          (map (encode indent (S level)) xs)))%nat as Hsum.
    { clear Hx. induction IH as [|y ys Hy _ IHys]; [done|].
      cbn [map list_sum foldr fold_right]. specialize (Hy (S level)).
      unfold list_sum in IHys. lia. }
    unfold list_sum in *. lia.
  - destruct d as [|[k x] d]; [cbv; lia|].
    change (encode indent level (PyDict ((k, x) :: d)))
      with ("{" +:+ newline_indent indent (S level)
            +:+ py_join (item_sep indent (S level))
                  (map (encode_entry indent (S level)) ((k, x) :: d))
            +:+ newline_indent indent level +:+ "}").
    cbn [map]. rewrite py_join_cons, !length_append, length_join_tail.
    cbn [String.length map list_sum foldr fold_right fst snd].
    apply Forall_cons in IH as [Hx IH]. cbn [snd] in Hx. specialize (Hx (S level)).
    pose proof (length_item_sep indent (S level)) as Hsep.
    assert (Hentry : ∀ kv, (String.length (encode indent (S level) (snd kv))
                            ≤ String.length (encode_entry indent (S level) kv))%nat).
    { intros kv. unfold encode_entry. rewrite !length_append. lia. }
    pose proof (Hentry (k, x)) as Hkx. cbn [snd] in Hkx.
    assert (list_sum (map (λ kv, S (fuel_of (snd kv))) d)
            ≤ list_sum (map (λ p, String.length (item_sep indent (S level)) + String.length p)
                          (map (encode_entry indent (S level)) d)))%nat as Hsum.
    { clear Hx Hkx. induction IH as [|y ys Hy _ IHys]; [done|].
      cbn [map list_sum foldr fold_right]. specialize (Hy (S level)).
      pose proof (Hentry y). unfold list_sum in IHys. lia. }
    unfold list_sum in *. lia.
Qed.

(** [json.loads(json.dumps(v))] and [json.loads(json.dumps(v, indent=w))]
    give [v] back. *)
Lemma json_loads_encode (indent : option nat) (v : pyval) :
  distinct_keys v = true → json_loads (encode indent 0 v) = Some v.
Proof.
  intros Hkeys. unfold json_loads.
  rewrite <- (append_nil_r (encode indent 0 v)) at 1 2.
  rewrite skip_ws_encode, parse_encode; [done| |done|done].
  rewrite append_nil_r. pose proof (fuel_of_le_length indent v 0). lia.
Qed.

(** ** Stripping *)

Lemma rstrip_by_append (p : ascii → bool) (a b : string) :
  rstrip_by p (a +:+ b) =
  match rstrip_by p b with
  | EmptyString => rstrip_by p a
  | b' => a +:+ b'
  end.
Proof.
  induction a as [|c a IH].
  - rewrite append_nil_l. by destruct (rstrip_by p b).
  - rewrite append_cons. cbn [rstrip_by]. rewrite IH.
    destruct (rstrip_by p b) as [|d b'] eqn:Hb; [done|].
    rewrite append_cons. by destruct a.
Qed.

Lemma clean_end_append (a b : string) : clean_end b → clean_end (a +:+ b).
Proof.
  intros [Hne Hb]. split.
  - destruct a; [by rewrite append_nil_l|done].
  - rewrite rstrip_by_append, Hb. by destruct b.
Qed.

Lemma clean_end_char (c : ascii) : py_isspace c = false → clean_end (String c "").
Proof. intros Hc. split; [done|]. cbn. by rewrite Hc. Qed.

Lemma clean_end_cons (c : ascii) (s : string) : clean_end s → clean_end (String c s).
Proof. intros H. by apply (clean_end_append (String c "") s). Qed.

Lemma is_ws_isspace (c : ascii) : is_ws c = true → py_isspace c = true.
Proof. destruct c as [[] [] [] [] [] [] [] []]; vm_compute; intros; done. Qed.

Lemma skip_ws_decomp (s : string) :
  ∃ w, s = w +:+ skip_ws s
       ∧ (∀ t, skip_ws (w +:+ t) = skip_ws t)
       ∧ (∀ t, lstrip_by py_isspace (w +:+ t) = lstrip_by py_isspace t).
Proof.
  induction s as [|c s (w & Hs & Hw & Hl)].
  - by exists "".
  - unfold skip_ws. cbn [lstrip_by]. destruct (is_ws c) eqn:Hc.
    + exists (String c w). rewrite append_cons. split; [by f_equal|]. split.
      * intros t. rewrite append_cons. unfold skip_ws. cbn [lstrip_by]. rewrite Hc. apply Hw.
      * intros t. rewrite append_cons. cbn [lstrip_by].
        rewrite (is_ws_isspace _ Hc). apply Hl.
    + by exists "".
Qed.

Lemma skip_ws_result_head (s : string) (c : ascii) (t : string) :
  skip_ws s = String c t → is_ws c = false.
Proof.
  unfold skip_ws. induction s as [|d s IH]; [done|]. cbn [lstrip_by].
  destruct (is_ws d) eqn:Hd; [exact IH|]. by intros [= <- _].
Qed.

Lemma skip_ws_empty_rstrip (s : string) :
  skip_ws s = "" → rstrip_by py_isspace s = "".
Proof.
  unfold skip_ws. induction s as [|d s IH]; [done|]. cbn [lstrip_by rstrip_by].
  destruct (is_ws d) eqn:Hd; [|done]. intros H. rewrite (IH H).
  by rewrite (is_ws_isspace _ Hd).
Qed.

Lemma startswith_split (p s : string) :
  startswith p s = true → s = p +:+ str_drop (String.length p) s.
Proof.
  revert s. induction p as [|a p IH]; intros s; [done|].
  destruct s as [|b s]; [done|]. cbn [startswith]. intros [Hab Hp]%andb_prop.
  apply Ascii.eqb_eq in Hab as ->. rewrite append_cons. cbn. f_equal. by apply IH.
Qed.

(** ** JSON: what a successful scan has read *)

Lemma scanstring_core (n : nat) :
  ∀ s t r,
    (String.length s ≤ n)%nat →
    scanstring s = Some (t, r) →
    ∃ core, s = core +:+ r ∧ clean_end core
            ∧ ∀ r', scanstring (core +:+ r') = Some (t, r').
Proof.
  induction n as [|n IH]; intros s t r Hlen Hs.
  { destruct s; [done|]. cbn in Hlen. lia. }
  destruct s as [|c s]; [done|]. cbn [scanstring] in Hs. cbn [String.length] in Hlen.
  destruct (Ascii.eqb c dquote) eqn:Hq.
  { injection Hs as <- <-. apply Ascii.eqb_eq in Hq as ->.
    exists (String dquote ""). split; [done|]. split; [by apply clean_end_char|]. done. }
  destruct (Ascii.eqb c "\") eqn:Hb.
  - destruct s as [|e s1]; [done|]. cbn [String.length] in Hlen.
    destruct (Ascii.eqb e "u") eqn:Hu.
    + destruct s1 as [|h1 [|h2 [|h3 [|h4 s2]]]]; try done. cbn [String.length] in Hlen.
      destruct (hex4 h1 h2 h3 h4) as [x|] eqn:Hx; [|done].
      destruct (x <? 256)%N eqn:Hlt; [|done].
      destruct (scanstring s2) as [[t' r0]|] eqn:Hs2; [|done]. injection Hs as <- <-.
      destruct (IH s2 t' r0 ltac:(lia) Hs2) as (core & -> & Hclean & Hre).
      exists (String c (String e (String h1 (String h2 (String h3 (String h4 core)))))).
      split; [done|]. split; [by do 6 apply clean_end_cons|].
      intros r'. rewrite !append_cons. cbn [scanstring].
      by rewrite Hq, Hb, Hu, Hx, Hlt, Hre.
    + destruct (unescape e) as [ch|] eqn:He; [|done].
      destruct (scanstring s1) as [[t' r0]|] eqn:Hs1; [|done]. injection Hs as <- <-.
      destruct (IH s1 t' r0 ltac:(lia) Hs1) as (core & -> & Hclean & Hre).
      exists (String c (String e core)).
      split; [done|]. split; [by do 2 apply clean_end_cons|].
      intros r'. rewrite !append_cons. cbn [scanstring].
      by rewrite Hq, Hb, Hu, He, Hre.
  - destruct (code c <? 32)%N eqn:Hctl; [done|].
    destruct (scanstring s) as [[t' r0]|] eqn:Hs1; [|done]. injection Hs as <- <-.
    destruct (IH s t' r0 ltac:(lia) Hs1) as (core & -> & Hclean & Hre).
    exists (String c core). split; [done|]. split; [by apply clean_end_cons|].
    intros r'. rewrite !append_cons. cbn [scanstring].
    by rewrite Hq, Hb, Hctl, Hre.
Qed.

Lemma all_ws_ends_value (w : string) :
  (∀ t, skip_ws (w +:+ t) = skip_ws t) →
  ∀ t, ends_value t = true → ends_value (w +:+ t) = true.
Proof.
  intros Hw t Ht. destruct w as [|c w]; [done|]. rewrite append_cons.
  apply ends_value_head. specialize (Hw "1"). rewrite append_cons in Hw.
  unfold skip_ws in Hw. cbn [lstrip_by] in Hw. destruct (is_ws c); [done|].
  exfalso. assert (String.length (String c (w +:+ "1")) = 1%nat) as Hl by (by rewrite Hw).
  cbn [String.length] in Hl. rewrite length_append in Hl. cbn in Hl. lia.
Qed.

Lemma digit_cons_spec (c : ascii) (d d' : Decimal.uint) :
  digit_cons c d = Some d' → digits_string d' = String c (digits_string d).
Proof.
  destruct c as [[] [] [] [] [] [] [] []]; cbn; intros [= <-]; reflexivity.
Qed.

Lemma scan_digits_core (s : string) :
  ∀ d rest, scan_digits s = (d, rest) → s = digits_string d +:+ rest.
Proof.
  induction s as [|c s IH]; intros d rest; cbn [scan_digits].
  - by intros [= <- <-].
  - destruct (is_digit c); [|by intros [= <- <-]].
    destruct (scan_digits s) as [d0 rest0]. specialize (IH d0 rest0 eq_refl).
    destruct (digit_cons c d0) as [d'|] eqn:Hd; [|by intros [= <- <-]].
    intros [= <- <-]. rewrite (digit_cons_spec _ _ _ Hd), append_cons. by f_equal.
Qed.

Lemma digits_string_clean (d : Decimal.uint) :
  d ≠ Decimal.Nil →
  clean_end (digits_string d)
  ∧ ∃ c t, digits_string d = String c t ∧ is_digit c = true.
Proof.
  intros Hd. split; [split|].
  - by destruct d.
  - clear Hd. unfold digits_string.
    induction d; cbn [NilEmpty.string_of_uint]; [done|..];
      cbn [rstrip_by]; rewrite IHd; by destruct (NilEmpty.string_of_uint d).
  - destruct d; [done|..]; by eexists _, _.
Qed.

Lemma scan_nat_core (s : string) (z : Z) (rest : string) :
  scan_nat s = Some (z, rest) →
  ∃ core, s = core +:+ rest ∧ clean_end core
          ∧ (∃ c t, core = String c t ∧ is_digit c = true)
          ∧ ∀ r', ends_value r' = true → scan_nat (core +:+ r') = Some (z, r').
Proof.
  unfold scan_nat. destruct (scan_digits s) as [d rest0] eqn:Hs.
  apply scan_digits_core in Hs as ->.
  destruct (uint_eqb (Decimal.unorm d) d) eqn:Hnorm.
  2:{ by destruct d. }
  intros H. assert (d ≠ Decimal.Nil ∧ z = Z.of_uint d ∧ rest = rest0) as (Hd & -> & ->).
  { destruct d; [done|..]; (split; [done|]);
      destruct rest0 as [|c t]; try (by injection H as <- <-);
      destruct (is_digit c || Ascii.eqb c "." || Ascii.eqb c "e" || Ascii.eqb c "E");
      try done; by injection H as <- <-. }
  clear H. destruct (digits_string_clean d Hd) as (Hclean & Hhead).
  exists (digits_string d). split; [done|]. split; [done|]. split; [done|].
  intros r' Hr'. rewrite scan_digits_digits_string by (by apply ends_value_not_digit).
  rewrite Hnorm. destruct d; [done|..];
    (destruct r' as [|c t]; [done|]); cbn in Hr';
    apply negb_true_iff in Hr'; by rewrite Hr'.
Qed.

Lemma scan_number_core (s : string) (v : pyval) (rest : string) :
  scan_number s = Some (v, rest) →
  distinct_keys v = true
  ∧ ∃ core, s = core +:+ rest ∧ clean_end core
            ∧ (∃ c t, core = String c t ∧ (is_digit c || Ascii.eqb c "-") = true)
            ∧ ∀ r', ends_value r' = true → scan_number (core +:+ r') = Some (v, r').
Proof.
  unfold scan_number. destruct s as [|c s]; [done|].
  destruct (Ascii.eqb c "-") eqn:Hc.
  - apply Ascii.eqb_eq in Hc as ->.
    destruct (scan_nat s) as [[z r0]|] eqn:Hs; [|done]. intros [= <- <-].
    destruct (scan_nat_core _ _ _ Hs) as (core & -> & Hclean & _ & Hre).
    split; [done|]. exists (String "-" core). split; [done|].
    split; [by apply clean_end_cons|]. split; [by eexists _, _|].
    intros r' Hr'. rewrite append_cons. cbn [Ascii.eqb Bool.eqb]. by rewrite Hre.
  - destruct (scan_nat (String c s)) as [[z r0]|] eqn:Hs; [|done]. intros [= <- <-].
    destruct (scan_nat_core _ _ _ Hs) as (core & Heq & Hclean & (c' & t & -> & Hd) & Hre).
    rewrite append_cons in Heq. injection Heq as <- ->.
    split; [done|]. exists (String c t). split; [done|]. split; [done|].
    split; [exists c, t; by rewrite Hd|].
    intros r' Hr'. specialize (Hre r' Hr'). rewrite append_cons in *. by rewrite Hc, Hre.
Qed.

(** ** What [dict_set] keeps *)

Lemma dict_set_keys (k : string) (v : pyval) (acc : list (string * pyval)) :
  map fst (dict_set k v acc) =
  if decide (k ∈ map fst acc) then map fst acc else map fst acc ++ [k].
Proof.
  induction acc as [|[k' v'] acc IH]; [done|]. cbn [dict_set map fst].
  destruct (String.eqb_spec k k') as [->|Hne].
  - cbn [map fst]. rewrite decide_True; [done|]. apply elem_of_cons. by left.
  - cbn [map fst]. rewrite IH. destruct (decide (k ∈ map fst acc)) as [Hin|Hin].
    + rewrite decide_True; [done|]. apply elem_of_cons. by right.
    + rewrite decide_False; [done|]. by intros [?| ?]%elem_of_cons.
Qed.

Lemma dict_set_NoDup (k : string) (v : pyval) (acc : list (string * pyval)) :
  NoDup (map fst acc) → NoDup (map fst (dict_set k v acc)).
Proof.
  intros H. rewrite dict_set_keys. destruct (decide (k ∈ map fst acc)); [done|].
  apply NoDup_app. split; [done|]. split; [|apply NoDup_singleton].
  intros x Hx Hk%list_elem_of_singleton. by subst.
Qed.

Lemma dict_set_values (P : pyval → bool) (k : string) (v : pyval)
    (acc : list (string * pyval)) :
  P v = true →
  forallb (λ kv, P (snd kv)) acc = true →
  forallb (λ kv, P (snd kv)) (dict_set k v acc) = true.
Proof.
  intros Hv. induction acc as [|[k' v'] acc IH]; cbn [dict_set forallb snd].
  - by rewrite Hv.
  - intros [H1 H2]%andb_prop. destruct (String.eqb k k'); cbn [forallb snd].
    + by rewrite Hv, H2.
    + by rewrite H1, IH.
Qed.

Lemma set_all_distinct (pairs acc : list (string * pyval)) :
  NoDup (map fst acc) →
  forallb (λ kv, distinct_keys (snd kv)) acc = true →
  forallb (λ kv, distinct_keys (snd kv)) pairs = true →
  distinct_keys (PyDict (set_all acc pairs)) = true.
Proof.
  revert acc. induction pairs as [|[k v] pairs IH]; intros acc Hnd Hacc Hp.
  - cbn [set_all foldl distinct_keys]. by rewrite bool_decide_eq_true_2, Hacc.
  - cbn [forallb snd] in Hp. apply andb_prop in Hp as [Hv Hp].
    change (set_all acc ((k, v) :: pairs)) with (set_all (dict_set k v acc) pairs).
    apply IH; [by apply dict_set_NoDup|by apply dict_set_values|done].
Qed.

Lemma skip_ws_core (s core r : string) :
  skip_ws s = core +:+ r → core ≠ "" →
  ∀ r', skip_ws (core +:+ r') = core +:+ r'.
Proof.
  intros Hs Hne r'. destruct core as [|c t]; [done|]. rewrite append_cons in *.
  apply skip_ws_head. by apply skip_ws_result_head in Hs.
Qed.

Ltac len_solve :=
  repeat (progress (rewrite ?length_append in *; cbn [String.length] in * ));
  lia.

(** ** JSON: what a successful parse has read *)

Section ParseStep.
Variable n : nat.

Hypothesis IHv : ∀ s v r,
  parse_value n s = Some (v, r) →
  distinct_keys v = true ∧ ∃ core, s = core +:+ r ∧ value_core core v.

Hypothesis IHe : ∀ s acc v r,
  parse_elems n s acc = Some (v, r) →
  ∃ l core, v = PyList (acc ++ l) ∧ forallb distinct_keys l = true
            ∧ s = core +:+ r ∧ elems_core core l.

Hypothesis IHm : ∀ s acc v r,
  parse_members n s acc = Some (v, r) →
  ∃ pairs core, v = PyDict (set_all acc pairs)
                ∧ forallb (λ kv, distinct_keys (snd kv)) pairs = true
                ∧ s = core +:+ r ∧ members_core core pairs.

Lemma parse_value_step (s : string) (v : pyval) (r : string) :
  parse_value (S n) s = Some (v, r) →
  distinct_keys v = true ∧ ∃ core, s = core +:+ r ∧ value_core core v.
Proof.
  cbn [parse_value]. destruct s as [|c s]; [done|].
  destruct (Ascii.eqb c dquote) eqn:Hq.
  { destruct (scanstring s) as [[t rest]|] eqn:Hs; [|done]. intros [= <- <-].
    destruct (scanstring_core _ _ _ _ (le_n _) Hs) as (core & -> & Hclean & Hre).
    split; [done|]. exists (String c core). split; [done|].
    split; [by apply clean_end_cons|]. split.
    { exists c, core. split; [done|]. unfold value_start. by rewrite Hq. }
    intros m r' Hm _. destruct m as [|m]; [cbn in Hm; lia|].
    rewrite append_cons. cbn [parse_value]. by rewrite Hq, Hre. }
  destruct (Ascii.eqb c "{") eqn:Hb.
  { destruct (skip_ws_decomp s) as (w & Hs & Hw & _).
    destruct (skip_ws s) as [|c1 r1] eqn:Hsk; [done|].
    pose proof (skip_ws_result_head _ _ _ Hsk) as Hc1ws.
    assert (value_start c = true) as Hstart by (unfold value_start; by rewrite Hq, Hb).
    destruct (Ascii.eqb c1 "}") eqn:Hc1.
    - intros [= <- <-]. split; [done|].
      exists (String c (w +:+ String c1 "")). split.
      { rewrite Hs. by rewrite append_cons, append_assoc. }
      split.
      { apply clean_end_cons, clean_end_append, clean_end_char.
        apply Ascii.eqb_eq in Hc1 as ->. done. }
      split; [by exists c, (w +:+ String c1 "")|].
      intros m r' Hm _. destruct m as [|m]; [cbn in Hm; lia|].
      rewrite append_cons, append_assoc. cbn [parse_value].
      rewrite Hq, Hb, Hw, append_cons, append_nil_l, skip_ws_head by done.
      by rewrite Hc1.
    - destruct (Ascii.eqb c1 dquote) eqn:Hc1q; [|done]. intros Hm.
      destruct (IHm _ _ _ _ Hm) as (pairs & core & -> & Hdk & -> & Hclean & Hre).
      split; [apply set_all_distinct; [apply NoDup_nil_2|done|done]|].
      exists (String c (w +:+ String c1 core)). split.
      { rewrite Hs. by rewrite !append_cons, append_assoc, append_cons. }
      split; [by apply clean_end_cons, clean_end_append, clean_end_cons|].
      split; [by exists c, (w +:+ String c1 core)|].
      intros m r' Hlen _. destruct m as [|m]; [cbn in Hlen; lia|].
      rewrite append_cons, append_assoc, append_cons. cbn [parse_value].
      rewrite Hq, Hb, Hw, skip_ws_head, Hc1, Hc1q by done.
      apply Hre. len_solve. }
  destruct (Ascii.eqb c "[") eqn:Hk.
  { destruct (skip_ws_decomp s) as (w & Hs & Hw & _).
    destruct (skip_ws s) as [|c1 r1] eqn:Hsk; [done|].
    pose proof (skip_ws_result_head _ _ _ Hsk) as Hc1ws.
    assert (value_start c = true) as Hstart by (unfold value_start; by rewrite Hq, Hb, Hk).
    destruct (Ascii.eqb c1 "]") eqn:Hc1.
    - intros [= <- <-]. split; [done|].
      exists (String c (w +:+ String c1 "")). split.
      { rewrite Hs. by rewrite append_cons, append_assoc. }
      split.
      { apply clean_end_cons, clean_end_append, clean_end_char.
        apply Ascii.eqb_eq in Hc1 as ->. done. }
      split; [by exists c, (w +:+ String c1 "")|].
      intros m r' Hm _. destruct m as [|m]; [cbn in Hm; lia|].
      rewrite append_cons, append_assoc. cbn [parse_value].
      rewrite Hq, Hb, Hk, Hw, append_cons, append_nil_l, skip_ws_head by done.
      by rewrite Hc1.
    - intros He.
      destruct (IHe _ _ _ _ He) as (l & core & -> & Hdk & Hcore & Hclean & Hre).
      split; [done|]. destruct core as [|c2 t2]; [by destruct Hclean|].
      rewrite append_cons in Hcore. injection Hcore as <- ->.
      exists (String c (w +:+ String c1 t2)). split.
      { rewrite Hs. by rewrite !append_cons, append_assoc, append_cons. }
      split; [by apply clean_end_cons, clean_end_append|].
      split; [by exists c, (w +:+ String c1 t2)|].
      intros m r' Hlen _. destruct m as [|m]; [cbn in Hlen; lia|].
      rewrite append_cons, append_assoc, append_cons. cbn [parse_value].
      rewrite Hq, Hb, Hk, Hw, skip_ws_head, Hc1 by done.
      rewrite <- append_cons. apply Hre. len_solve. }
  destruct (startswith "null" (String c s)) eqn:Hnull.
  { intros [= <- <-]. split; [done|]. exists "null".
    split; [by apply startswith_split in Hnull|].
    split; [by split|]. split; [by eexists _, _|].
    intros m r' Hlen _. destruct m as [|m]; [cbn in Hlen; lia|]. reflexivity. }
  destruct (startswith "true" (String c s)) eqn:Htrue.
  { intros [= <- <-]. split; [done|]. exists "true".
    split; [by apply startswith_split in Htrue|].
    split; [by split|]. split; [by eexists _, _|].
    intros m r' Hlen _. destruct m as [|m]; [cbn in Hlen; lia|]. reflexivity. }
  destruct (startswith "false" (String c s)) eqn:Hfalse.
  { intros [= <- <-]. split; [done|]. exists "false".
    split; [by apply startswith_split in Hfalse|].
    split; [by split|]. split; [by eexists _, _|].
    intros m r' Hlen _. destruct m as [|m]; [cbn in Hlen; lia|]. reflexivity. }
  intros Hnum.
  destruct (scan_number_core _ _ _ Hnum)
    as (Hdk & core & Hcore & Hclean & (c' & t & -> & Hstart) & Hre).
  rewrite append_cons in Hcore. injection Hcore as <- ->.
  destruct (number_start_facts _ Hstart) as (Hvs & _ & _ & _ & Hn & Ht & Hf).
  split; [done|]. exists (String c t). split; [done|]. split; [done|].
  split; [by exists c, t|].
  intros m r' Hlen Hr'. destruct m as [|m]; [cbn in Hlen; lia|].
  rewrite append_cons. cbn [parse_value startswith].
  rewrite Hq, Hb, Hk, Hn, Ht, Hf. cbn [andb].
  rewrite <- append_cons. by apply Hre.
Qed.

Lemma parse_elems_step (s : string) (acc : list pyval) (v : pyval) (r : string) :
  parse_elems (S n) s acc = Some (v, r) →
  ∃ l core, v = PyList (acc ++ l) ∧ forallb distinct_keys l = true
            ∧ s = core +:+ r ∧ elems_core core l.
Proof.
  cbn [parse_elems]. destruct (parse_value n s) as [[x r0]|] eqn:Hx; [|done].
  destruct (IHv _ _ _ Hx) as (Hdx & cx & -> & Hcx & Hhx & Hrx).
  destruct (skip_ws_decomp r0) as (w & Hr0 & Hw & _).
  destruct (skip_ws r0) as [|c r1] eqn:Hsk; [done|].
  pose proof (skip_ws_result_head _ _ _ Hsk) as Hcws.
  destruct (Ascii.eqb c "]") eqn:Hc.
  - intros [= <- <-]. exists [x], (cx +:+ w +:+ String c "").
    split; [done|]. split; [cbn; by rewrite Hdx|]. split.
    { rewrite Hr0. by rewrite !append_assoc. }
    split.
    { rewrite <- append_assoc. apply clean_end_append, clean_end_char.
      apply Ascii.eqb_eq in Hc as ->. done. }
    intros m r' acc' Hlen. destruct m as [|m]; [len_solve|].
    cbn [parse_elems]. rewrite !append_assoc, Hrx.
    + rewrite Hw, append_cons, append_nil_l, skip_ws_head by done. by rewrite Hc.
    + len_solve.
    + apply all_ws_ends_value; [done|]. rewrite append_cons.
      apply ends_value_head. by rewrite Hc, ?orb_true_r.
  - destruct (Ascii.eqb c ",") eqn:Hc2; [|done]. intros He.
    destruct (IHe _ _ _ _ He) as (l & ce & -> & Hdl & Hsk1 & Hce & Hre).
    destruct (skip_ws_decomp r1) as (w1 & Hr1 & Hw1 & _). rewrite Hsk1 in Hr1.
    exists (x :: l), (cx +:+ w +:+ String c (w1 +:+ ce)).
    split; [by rewrite <- app_assoc|]. split; [cbn; by rewrite Hdx|]. split.
    { rewrite Hr0, Hr1. by rewrite !append_assoc, append_cons, append_assoc. }
    split.
    { rewrite <- append_assoc. by apply clean_end_append, clean_end_cons, clean_end_append. }
    intros m r' acc' Hlen. destruct m as [|m]; [len_solve|].
    cbn [parse_elems]. rewrite !append_assoc, append_cons, append_assoc, Hrx.
    + rewrite Hw, skip_ws_head, Hc, Hc2, Hw1 by done.
      rewrite (skip_ws_core _ _ _ Hsk1) by apply Hce.
      rewrite Hre by len_solve. by rewrite <- app_assoc.
    + len_solve.
    + apply all_ws_ends_value; [done|].
      apply ends_value_head. by rewrite Hc2, ?orb_true_r.
Qed.

Lemma parse_members_step (s : string) (acc : list (string * pyval)) (v : pyval)
    (r : string) :
  parse_members (S n) s acc = Some (v, r) →
  ∃ pairs core, v = PyDict (set_all acc pairs)
                ∧ forallb (λ kv, distinct_keys (snd kv)) pairs = true
                ∧ s = core +:+ r ∧ members_core core pairs.
Proof.
  cbn [parse_members]. destruct (scanstring s) as [[key r0]|] eqn:Hkey; [|done].
  destruct (scanstring_core _ _ _ _ (le_n _) Hkey) as (ck & -> & Hck & Hrk).
  destruct (skip_ws_decomp r0) as (w0 & Hr0 & Hw0 & _).
  destruct (skip_ws r0) as [|c0 r0'] eqn:Hsk0; [done|].
  pose proof (skip_ws_result_head _ _ _ Hsk0) as Hc0ws.
  destruct (Ascii.eqb c0 ":") eqn:Hc0; [|done].
  destruct (parse_value n (skip_ws r0')) as [[x r1]|] eqn:Hx; [|done].
  destruct (IHv _ _ _ Hx) as (Hdx & cx & Hskx & Hcx & Hhx & Hrx).
  destruct (skip_ws_decomp r0') as (w1 & Hr0' & Hw1 & _). rewrite Hskx in Hr0'.
  destruct (skip_ws_decomp r1) as (w2 & Hr1 & Hw2 & _).
  destruct (skip_ws r1) as [|c r2] eqn:Hsk2; [done|].
  pose proof (skip_ws_result_head _ _ _ Hsk2) as Hcws.
  destruct (Ascii.eqb c "}") eqn:Hc.
  - intros [= <- <-].
    exists [(key, x)], (ck +:+ w0 +:+ String c0 (w1 +:+ cx +:+ w2 +:+ String c "")).
    split; [done|]. split; [cbn; by rewrite Hdx|]. split.
    { rewrite Hr0, Hr0', Hr1.
      by rewrite !append_assoc, append_cons, !append_assoc. }
    split.
    { rewrite <- append_assoc. apply clean_end_append, clean_end_cons.
      rewrite <- !append_assoc. apply clean_end_append, clean_end_char.
      apply Ascii.eqb_eq in Hc as ->. done. }
    intros m r' acc' Hlen. destruct m as [|m]; [len_solve|].
    cbn [parse_members].
    rewrite !append_assoc, Hrk, Hw0, append_cons, !append_assoc, skip_ws_head, Hc0 by done.
    rewrite Hw1, (skip_ws_core _ _ _ Hskx) by apply Hcx. rewrite Hrx.
    + rewrite Hw2, append_cons, append_nil_l, skip_ws_head by done. by rewrite Hc.
    + len_solve.
    + apply all_ws_ends_value; [done|]. rewrite append_cons.
      apply ends_value_head. by rewrite Hc, ?orb_true_r.
  - destruct (Ascii.eqb c ",") eqn:Hc2; [|done].
    destruct (skip_ws_decomp r2) as (w3 & Hr2 & Hw3 & _).
    destruct (skip_ws r2) as [|c' r3] eqn:Hsk3; [done|].
    pose proof (skip_ws_result_head _ _ _ Hsk3) as Hc'ws.
    destruct (Ascii.eqb c' dquote) eqn:Hc'; [|done]. intros Hm.
    destruct (IHm _ _ _ _ Hm) as (pairs & cm & -> & Hdp & -> & Hcm & Hrm).
    exists ((key, x) :: pairs),
      (ck +:+ w0 +:+ String c0 (w1 +:+ cx +:+ w2 +:+ String c (w3 +:+ String c' cm))).
    split; [done|]. split; [cbn; by rewrite Hdx|]. split.
    { rewrite Hr0, Hr0', Hr1, Hr2.
      by rewrite !append_assoc, append_cons, !append_assoc, append_cons,
           append_assoc, append_cons. }
    split.
    { rewrite <- append_assoc. apply clean_end_append, clean_end_cons.
      rewrite <- !append_assoc. apply clean_end_append, clean_end_cons.
      by apply clean_end_append, clean_end_cons. }
    intros m r' acc' Hlen. destruct m as [|m]; [len_solve|].
    cbn [parse_members].
    rewrite !append_assoc, Hrk, Hw0, append_cons, !append_assoc, skip_ws_head, Hc0 by done.
    rewrite Hw1, (skip_ws_core _ _ _ Hskx) by apply Hcx. rewrite Hrx.
    + rewrite Hw2, append_cons, append_assoc, append_cons, skip_ws_head, Hc, Hc2 by done.
      rewrite Hw3, skip_ws_head, Hc' by done. rewrite Hrm by len_solve. done.
    + len_solve.
    + apply all_ws_ends_value; [done|]. rewrite append_cons.
      apply ends_value_head. by rewrite Hc2, ?orb_true_r.
Qed.
End ParseStep.

Lemma parse_core (n : nat) :
  (∀ s v r,
     parse_value n s = Some (v, r) →
     distinct_keys v = true ∧ ∃ core, s = core +:+ r ∧ value_core core v)
  ∧ (∀ s acc v r,
       parse_elems n s acc = Some (v, r) →
       ∃ l core, v = PyList (acc ++ l) ∧ forallb distinct_keys l = true
                 ∧ s = core +:+ r ∧ elems_core core l)
  ∧ (∀ s acc v r,
       parse_members n s acc = Some (v, r) →
       ∃ pairs core, v = PyDict (set_all acc pairs)
                     ∧ forallb (λ kv, distinct_keys (snd kv)) pairs = true
                     ∧ s = core +:+ r ∧ members_core core pairs).
Proof.
  induction n as [|n (IHv & IHe & IHm)]; [done|].
  split; [|split].
  - by apply parse_value_step.
  - by apply parse_elems_step.
  - by apply parse_members_step.
Qed.

(** ** The output normalizer *)

(** A text [json.loads] accepts is, once stripped, a text without a Markdown
    fence that [json.loads] reads as the same value; and that value has no
    key twice. *)
Lemma json_loads_clean (text : string) (v : pyval) :
  json_loads text = Some v →
  distinct_keys v = true ∧ json_loads (strip_fence (py_strip text)) = Some v.
Proof.
  unfold json_loads at 1. cbv zeta.
  destruct (skip_ws_decomp text) as (w & Ht & _ & Hwl).
  destruct (parse_value (S (String.length (skip_ws text))) (skip_ws text))
    as [[v' rest]|] eqn:Hp; [|done].
  destruct (skip_ws rest) eqn:Hrest; [|done]. intros [= ->].
  destruct (parse_core (S (String.length (skip_ws text)))) as (Hv & _ & _).
  destruct (Hv _ _ _ Hp) as (Hdk & core & Hs1 & Hclean & (c & t & -> & Hstart) & Hre).
  split; [done|].
  destruct (value_start_facts _ Hstart) as (Hws & Hsp & _ & _ & Hbq).
  assert (py_strip text = String c t) as ->.
  { unfold py_strip, strip_by. rewrite Ht, Hwl, Hs1, append_cons.
    cbn [lstrip_by]. rewrite Hsp, <- append_cons, rstrip_by_append.
    rewrite (skip_ws_empty_rstrip _ Hrest). apply Hclean. }
  unfold strip_fence. cbn [startswith]. rewrite Ascii.eqb_sym, Hbq. cbn [andb].
  unfold json_loads. cbv zeta. rewrite skip_ws_head by done.
  pose proof (Hre (S (String.length (String c t))) "" ltac:(lia) eq_refl) as H.
  rewrite append_nil_r in H. by rewrite H.
Qed.



(* ===================================================================== *)
(** * Further properties of the code                                      *)
(* ===================================================================== *)

(** ** The two copies of the envelope parser *)

Lemma search_go_json_object_bol (s : string) :
  ∀ b b', search_go json_object b s = search_go json_object b' s.
Proof.
  induction s as [|c t IH]; intros b b'; cbn [search_go];
    rewrite !match_at_json_object; [done|].
  destruct (Ascii.eqb c "{"); [by destruct (after_last_close t)|].
  apply (IH false false).
Qed.

Lemma search_json_object_lstrip (p : ascii → bool) (s : string) :
  p "{"%char = false →
  search json_object (lstrip_by p s) = search json_object s.
Proof.
  intros Hp. unfold search. induction s as [|c t IH]; [done|].
  cbn [lstrip_by]. destruct (p c) eqn:Hc; [|done].
  rewrite IH. cbn [search_go]. rewrite match_at_json_object.
  destruct (Ascii.eqb_spec c "{") as [->|_]; [congruence|].
  apply search_go_json_object_bol.
Qed.

Lemma rstrip_by_keeps (p : ascii → bool) (a : string) (c : ascii) (b : string) :
  p c = false →
  rstrip_by p (a +:+ String c b) = a +:+ String c (rstrip_by p b).
Proof.
  intros Hc. rewrite rstrip_by_append.
  assert (rstrip_by p (String c b) = String c (rstrip_by p b)) as ->; [|done].
  cbn [rstrip_by]. destruct (rstrip_by p b); by rewrite ?Hc.
Qed.

Lemma rstrip_by_decomp (p : ascii → bool) (s : string) :
  ∃ w, s = rstrip_by p s +:+ w ∧ all_chars p w = true.
Proof.
  induction s as [|c t (w & Ht & Hw)]; [by exists ""|].
  cbn [rstrip_by]. destruct (rstrip_by p t) as [|d t'] eqn:Hr.
  - destruct (p c) eqn:Hc.
    + exists (String c w). rewrite append_nil_l in *. split; [by f_equal|].
      cbn. by rewrite Hc, Hw.
    + exists w. rewrite append_cons. split; [by f_equal|done].
  - exists w. rewrite append_cons. split; [by f_equal|done].
Qed.

Lemma mem_rstrip_by (p : ascii → bool) (c : ascii) (s : string) :
  mem c s = false → mem c (rstrip_by p s) = false.
Proof.
  induction s as [|d t IH]; [done|]. cbn [mem rstrip_by].
  intros [Hd Ht]%orb_false_elim. specialize (IH Ht).
  destruct (rstrip_by p t); [destruct (p d); cbn; by rewrite ?Hd|].
  cbn [mem] in *. by rewrite Hd, IH.
Qed.

Lemma mem_append (c : ascii) (a b : string) :
  mem c (a +:+ b) = mem c a || mem c b.
Proof.
  induction a as [|d a IH]; [done|]. rewrite append_cons. cbn [mem].
  by rewrite IH, orb_assoc.
Qed.

Lemma mem_all_chars (p : ascii → bool) (c : ascii) (w : string) :
  p c = false → all_chars p w = true → mem c w = false.
Proof.
  intros Hc. induction w as [|d w IH]; [done|]. cbn [all_chars mem].
  intros [Hd Hw]%andb_prop. rewrite (IH Hw), orb_false_r.
  destruct (Ascii.eqb_spec c d) as [->|]; [congruence|done].
Qed.

Lemma search_json_object_rstrip (p : ascii → bool) (s : string) :
  p "}"%char = false →
  search json_object (rstrip_by p s) = search json_object s.
Proof.
  intros Hp. unfold search.
  destruct (search_go json_object true s) as [m|] eqn:Hs.
  - destruct (search_json_object_greedy _ _ _ Hs) as (pre & mid & post & -> & -> & Hpre & Hpost).
    replace (pre +:+ "{" +:+ mid +:+ "}" +:+ post)
      with ((pre +:+ "{" +:+ mid) +:+ String "}" post)
      by (by rewrite !append_assoc).
    rewrite rstrip_by_keeps by done.
    replace ((pre +:+ "{" +:+ mid) +:+ String "}" (rstrip_by p post))
      with (pre +:+ "{" +:+ mid +:+ "}" +:+ rstrip_by p post)
      by (by rewrite !append_assoc).
    apply search_json_object_found; [done|]. by apply mem_rstrip_by.
  - destruct (search_go json_object true (rstrip_by p s)) as [m|] eqn:Hr; [|done].
    destruct (search_json_object_greedy _ _ _ Hr) as (pre & mid & post & Hdec & -> & Hpre & Hpost).
    destruct (rstrip_by_decomp p s) as (w & Hw & Hall).
    rewrite Hdec in Hw. rewrite Hw in Hs.
    replace ((pre +:+ "{" +:+ mid +:+ "}" +:+ post) +:+ w)
      with (pre +:+ "{" +:+ mid +:+ "}" +:+ (post +:+ w)) in Hs
      by (by rewrite !append_assoc).
    rewrite search_json_object_found in Hs; [done|done|].
    rewrite mem_append, Hpost. by apply (mem_all_chars p).
Qed.

Lemma search_json_object_strip (p : ascii → bool) (s : string) :
  p "{"%char = false → p "}"%char = false →
  search json_object (strip_by p s) = search json_object s.
Proof.
  intros Ho Hc. unfold strip_by.
  by rewrite search_json_object_rstrip, search_json_object_lstrip.
Qed.

Lemma decode_object_unfence (part : string) :
  decode_object (unfence part) = decode_object part.
Proof.
  unfold decode_object, unfence, py_strip, py_rstrip, py_lstrip.
  by rewrite search_json_object_strip, search_json_object_rstrip,
    search_json_object_lstrip, search_json_object_strip.
Qed.

(** X1.  The fence stripping of a2a_server.py never changes what is decoded:
    the two copies of [extract_a2ui_messages] return the same messages on
    every text. *)
Theorem envelope_parsers_agree (text : string) :
  server_extract_a2ui_messages text = extract_a2ui_messages text.
Proof.
  unfold server_extract_a2ui_messages, extract_a2ui_messages, extract_with.
  generalize (@nil pyval) as acc.
  induction (py_split a2ui_delimiter text) as [|part parts IH]; intros acc; [done|].
  cbn [foldl]. rewrite IH. f_equal.
  unfold server_step, agent_step. by rewrite decode_object_unfence.
Qed.

(** ** What the profiler's callbacks store *)

Lemma decode_object_dict (part : string) (m : pyval) :
  decode_object part = Some m → is_dict m = true ∧ distinct_keys m = true.
Proof.
  unfold decode_object. destruct (search json_object part) as [j|]; [|done].
  destruct (json_loads j) as [v|] eqn:Hv; [|done].
  destruct (is_dict v) eqn:Hd; [|done]. intros [= <-]. split; [done|].
  by apply json_loads_clean in Hv as [? _].
Qed.

Lemma extract_a2ui_messages_dicts (text : string) :
  Forall (λ m, is_dict m = true ∧ distinct_keys m = true) (extract_a2ui_messages text).
Proof.
  unfold extract_a2ui_messages, extract_with.
  assert (Hnil : Forall (λ m, is_dict m = true ∧ distinct_keys m = true) (@nil pyval)) by done.
  revert Hnil. generalize (@nil pyval) as acc.
  induction (py_split a2ui_delimiter text) as [|part parts IH]; intros acc Hacc; [done|].
  cbn [foldl]. apply IH. unfold agent_step.
  destruct (String.eqb _ _); [done|].
  destruct (decode_object _) as [m|] eqn:Hm; [|done].
  apply Forall_app. split; [done|]. constructor; [|done]. by eapply decode_object_dict.
Qed.

Lemma forallb_Forall_distinct (l : list pyval) :
  Forall (λ m, distinct_keys m = true) l → forallb distinct_keys l = true.
Proof. induction 1 as [|m l Hm _ IH]; [done|]. cbn. by rewrite Hm, IH. Qed.



Lemma shard_items_distinct (st : state) (i : nat) :
  Forall (λ m, distinct_keys m = true) (shard_items st i).
Proof.
  unfold shard_items, combine_step.
  destruct (get st (shard_key i) (PyStr "[]")) as [| | |text| |]; try done.
  destruct (json_loads text) as [v|] eqn:Hv; [|done].
  apply json_loads_clean in Hv as [Hk _].
  destruct v as [| | | |l|]; try done. cbn [app].
  cbn [distinct_keys] in Hk. induction l as [|x l IH]; [done|].
  cbn [forallb] in Hk. apply andb_prop in Hk as [? ?]. constructor; auto.
Qed.


(** ** The market identifier's callback *)

Lemma json_loads_head (text : string) (v : pyval) :
  json_loads text = Some v →
  ∃ c r, skip_ws text = String c r ∧ value_start c = true.
Proof.
  unfold json_loads. cbv zeta.
  destruct (parse_value _ (skip_ws text)) as [[v' rest]|] eqn:Hp; [|done]. intros _.
  destruct (parse_core (S (String.length (skip_ws text)))) as (Hv & _ & _).
  destruct (Hv _ _ _ Hp) as (_ & core & Hs & _ & (c & t & -> & Hc) & _).
  rewrite Hs, append_cons. by eexists _, _.
Qed.

Lemma never_json_loads (text : string) :
  never_json text = true → json_loads text = None.
Proof.
  intros Hn. destruct (json_loads text) as [v|] eqn:Hv; [|done].
  destruct (json_loads_head _ _ Hv) as (c & r & Hs & Hc).
  unfold never_json in Hn. rewrite Hs, Hc in Hn. done.
Qed.

Lemma json_loads_not_error (text : string) (v : pyval) :
  json_loads text = Some v → startswith "ERROR:" text = false.
Proof.
  intros Hv. destruct (json_loads_head _ _ Hv) as (c & r & Hs & Hc).
  destruct text as [|d t]; [done|]. cbn [startswith].
  destruct (Ascii.eqb_spec "E" d) as [<-|]; [|done].
  rewrite skip_ws_head in Hs by done. injection Hs as <- _. done.
Qed.

Lemma forallb_take {A} (f : A → bool) (n : nat) (l : list A) :
  forallb f l = true → forallb f (take n l) = true.
Proof.
  revert n. induction l as [|x l IH]; intros [|n]; try done.
  cbn. intros [Hx Hl]%andb_prop. by rewrite Hx, IH.
Qed.

Lemma ensure_company_list_ok (st : state) :
  ∃ v, ensure_company_list st !! "company_list" = Some v ∧ truthy v = true.
Proof.
  unfold ensure_company_list. destruct (st !! "company_list") as [v|] eqn:Hv.
  - destruct (truthy v) eqn:Ht; [by exists v|].
    exists (PyStr "[]"). by simplify_map_eq.
  - exists (PyStr "[]"). by simplify_map_eq.
Qed.

(** X4.  Whatever [company_list] held, after
    [validate_market_identifier_output] the key is present and holds a
    truthy value: a missing, empty or falsy list becomes the text of the
    empty array, so the gatherers always find the key. *)
Theorem company_list_always_present (st : state) :
  ∃ v, validate_market_identifier_output st !! "company_list" = Some v
       ∧ truthy v = true.
Proof.
  unfold validate_market_identifier_output.
  destruct (get st "company_list" (PyStr "")) as [| | |text| |] eqn:Hget;
    try apply ensure_company_list_ok.
  destruct (startswith "ERROR:" text || py_in "No companies found" text) eqn:Herr;
    [|apply ensure_company_list_ok].
  exists (PyStr text). rewrite lookup_insert_ne by done.
  unfold get in Hget. destruct (st !! "company_list") as [v|]; [|by injection Hget as <-].
  subst v. split; [done|]. by destruct text.
Qed.

(** X5.  A JSON array of companies is cut to its first fifteen items and
    stored again as JSON text, which [json.loads] reads back as those
    items; [pipeline_error] and every other key are left alone. *)
Theorem company_list_cut_to_fifteen (st : state) (text : string) (companies : list pyval) :
  get st "company_list" (PyStr "") = PyStr text →
  json_loads text = Some (PyList companies) →
  companies ≠ [] →
  py_in "No companies found" text = false →
  validate_market_identifier_output st
  = <["company_list" := PyStr (json_dumps (PyList (take 15 companies)))]> st
  ∧ json_loads (json_dumps (PyList (take 15 companies))) = Some (PyList (take 15 companies))
  ∧ (length (take 15 companies) ≤ 15)%nat
  ∧ ((length companies ≤ 15)%nat → take 15 companies = companies).
Proof.
  intros Hget Hv Hne Hno. unfold validate_market_identifier_output.
  rewrite Hget, (json_loads_not_error _ _ Hv), Hno, Hv. cbn [orb].
  pose proof (json_loads_clean _ _ Hv) as [Hk _].
  destruct companies as [|x l]; [done|]. split; [|split; [|split]].
  - unfold ensure_company_list. rewrite lookup_insert_eq.
    destruct (encode_head None 0 (PyList (take 15 (x :: l)))) as (c & t & Henc & _).
    unfold json_dumps. by rewrite Henc.
  - apply json_loads_encode. cbn [distinct_keys] in *. by apply forallb_take.
  - rewrite length_take. lia.
  - intros Hlen. by apply take_ge.
Qed.

Lemma company_list_cut_to_fifteen_witness :
  validate_market_identifier_output long_list
  = <["company_list" := PyStr (json_dumps (PyList (take 15 seventeen)))]> long_list
  ∧ json_loads (json_dumps (PyList (take 15 seventeen))) = Some (PyList (take 15 seventeen))
  ∧ (length (take 15 seventeen) ≤ 15)%nat
  ∧ ((length seventeen ≤ 15)%nat → take 15 seventeen = seventeen).
Proof.
  apply (company_list_cut_to_fifteen long_list (json_dumps_indent 2 (PyList seventeen)));
    [vm_compute; reflexivity | vm_compute; reflexivity | discriminate | vm_compute; reflexivity].
Defined.

(** X6.  A text that is no JSON at all is reported in [pipeline_error] as not
    valid JSON, and is not cleared: [company_list] keeps the text, or
    becomes the text of the empty array when the text was empty. *)
Theorem prose_company_list_is_kept (st : state) (text : string) :
  get st "company_list" (PyStr "") = PyStr text →
  never_json text = true →
  startswith "ERROR:" text = false →
  py_in "No companies found" text = false →
  validate_market_identifier_output st !! "pipeline_error"
  = Some (PyStr "ERROR: Market Identifier output is not valid JSON.")
  ∧ validate_market_identifier_output st !! "company_list"
    = Some (PyStr (if String.eqb text "" then "[]" else text)).
Proof.
  intros Hget Hn He Hno. unfold validate_market_identifier_output.
  rewrite Hget, He, Hno, (never_json_loads _ Hn). cbn [orb].
  unfold ensure_company_list. rewrite lookup_insert_ne by done.
  unfold get in Hget. destruct (st !! "company_list") as [v|] eqn:Hst.
  - subst v. destruct text as [|c t]; cbn [truthy String.eqb negb].
    + by simplify_map_eq.
    + by simplify_map_eq.
  - injection Hget as <-. by simplify_map_eq.
Qed.

Lemma prose_company_list_is_kept_witness :
  validate_market_identifier_output prose_answer !! "pipeline_error"
  = Some (PyStr "ERROR: Market Identifier output is not valid JSON.")
  ∧ validate_market_identifier_output prose_answer !! "company_list"
    = Some (PyStr "Here are the top companies: Apple, Microsoft").
Proof.
  apply (prose_company_list_is_kept prose_answer
           "Here are the top companies: Apple, Microsoft");
    vm_compute; reflexivity.
Defined.

(** ** The input parser's callback *)

(** X7.  When the parser model answers with a JSON array, possibly fenced, the
    names are its truthy items, each turned into text and stripped; the
    callback restarts the position and the processed list whatever the
    state held, and the iterator that runs next selects the first name,
    as company 1 of as many as there are names. *)
Theorem parsed_array_selects_first_company
    (st : state) (text : string) (items : list pyval) (first : pyval) (rest : list pyval) :
  get st "parsed_companies" (PyStr "") = PyStr text →
  json_loads (strip_fence (py_strip text)) = Some (PyList items) →
  filter (λ c, truthy c = true) items = first :: rest →
  ∃ st',
    company_iterator (parse_company_list st)
    = Ok (st', [Event "company_iterator"
                  (ProcessingCompany (PyInt 1) (PyInt (Z.of_nat (S (length rest))))
                     (PyStr (py_strip (py_str first))))
                  false])
    ∧ st' !! "company_name" = Some (PyStr (py_strip (py_str first)))
    ∧ st' !! "company_list" = Some (PyList (company_names items))
    ∧ st' !! "total_companies" = Some (PyInt (Z.of_nat (length (company_names items))))
    ∧ st' !! "current_company_index" = Some (PyInt 0)
    ∧ st' !! "processed_companies" = Some (PyList []).
Proof.
  intros Hget Hv Hitems.
  assert (Hnames : company_names items
                   = PyStr (py_strip (py_str first))
                     :: map (λ c, PyStr (py_strip (py_str c))) rest).
  { unfold company_names. by rewrite Hitems. }
  unfold parse_company_list, output_companies. rewrite Hget, Hv.
  rewrite Hnames. cbn [or_user_input]. rewrite <- Hnames.
  set (st1 := <["processed_companies" := _]> _).
  assert (Hl : get st1 "company_list" (PyList []) = PyList (company_names items))
    by (unfold get, st1; by simplify_map_eq).
  assert (Hi : get st1 "current_company_index" (PyInt 0) = PyInt 0)
    by (unfold get, st1; by simplify_map_eq).
  assert (Ht : ∀ d, get st1 "total_companies" d
                    = PyInt (Z.of_nat (length (company_names items))))
    by (intros d; unfold get, st1; by simplify_map_eq).
  unfold company_iterator. rewrite Hl, Hi.
  cbn [py_len mbind result_bind mret result_ret]. rewrite Ht.
  assert (Hlen : length (company_names items) = S (length rest))
    by (by rewrite Hnames; cbn [length]; rewrite length_map).
  rewrite Hlen. unfold py_ge. cbn [as_int].
  destruct (Z.leb_spec (Z.of_nat (S (length rest))) 0) as [Hle|_]; [lia|].
  cbn [mbind result_bind mret result_ret].
  unfold py_index. cbn [as_int]. rewrite Hlen.
  change (0 <? 0) with false. cbv iota. change (0 <=? 0) with true. cbn [andb].
  destruct (Z.ltb_spec 0 (Z.of_nat (S (length rest)))) as [_|Hlt]; [|lia].
  change (Z.to_nat 0) with 0%nat. rewrite Hnames.
  cbn [lookup list_lookup mbind result_bind mret result_ret py_add as_int Z.add].
  eexists. split; [reflexivity|].
  unfold st1. rewrite <- ?Hnames, <- ?Hlen. repeat split; by simplify_map_eq.
Qed.

Lemma parsed_array_selects_first_company_witness :
  ∃ st',
    company_iterator (parse_company_list names_given)
    = Ok (st', [Event "company_iterator"
                  (ProcessingCompany (PyInt 1) (PyInt 3) (PyStr "Apple Inc.")) false])
    ∧ st' !! "company_name" = Some (PyStr "Apple Inc.")
    ∧ st' !! "company_list"
      = Some (PyList [PyStr "Apple Inc."; PyStr "12"; PyStr "Tesla, Inc."])
    ∧ st' !! "total_companies" = Some (PyInt 3)
    ∧ st' !! "current_company_index" = Some (PyInt 0)
    ∧ st' !! "processed_companies" = Some (PyList []).
Proof.
  apply (parsed_array_selects_first_company names_given fenced_names
           [PyStr " Apple Inc. "; PyStr ""; PyInt 12; PyNone; PyStr "Tesla, Inc."]
           (PyStr " Apple Inc. ") [PyInt 12; PyStr "Tesla, Inc."]);
    vm_compute; reflexivity.
Defined.



Lemma json_loads_blank (text : string) :
  py_strip text = "" → json_loads (strip_fence (py_strip text)) = None.
Proof. by intros ->. Qed.

(** X9.  With a blank answer and no usable user input the callback records
    the error and writes nothing else; in a session that holds no list
    yet, the iterator that runs next ends the outer loop at once, with
    zero companies. *)
Theorem no_names_ends_the_run (st : state) (text : string) (user_input : pyval) :
  get st "parsed_companies" (PyStr "") = PyStr text →
  py_strip text = "" →
  get st "user_input" (PyStr "") = user_input →
  match user_input with PyStr u => py_strip u = "" | _ => True end →
  parse_company_list st
  = <["pipeline_error" := PyStr "ERROR: No company names provided."]> st
  ∧ (st !! "company_list" = None →
     st !! "current_company_index" = None →
     st !! "total_companies" = None →
     company_iterator (parse_company_list st)
     = Ok (parse_company_list st,
           [Event "company_iterator"
              (AllProcessed (PyInt 0) (get st "processed_companies" (PyList []))) true])).
Proof.
  intros Hget Hblank Huser Hu.
  assert (Hparse : parse_company_list st
                   = <["pipeline_error" := PyStr "ERROR: No company names provided."]> st).
  { unfold parse_company_list, output_companies, or_user_input.
    rewrite Hget, Huser, (json_loads_blank _ Hblank), Hblank. cbn.
    destruct user_input as [| | |u| |]; try done. by rewrite Hu. }
  split; [done|]. intros Hl Hi Ht. rewrite Hparse. unfold company_iterator.
  unfold get. rewrite !lookup_insert_ne by done. rewrite Hl, Hi, Ht.
  reflexivity.
Qed.

Lemma no_names_ends_the_run_witness :
  parse_company_list nothing_given
  = <["pipeline_error" := PyStr "ERROR: No company names provided."]> nothing_given
  ∧ (nothing_given !! "company_list" = None →
     nothing_given !! "current_company_index" = None →
     nothing_given !! "total_companies" = None →
     company_iterator (parse_company_list nothing_given)
     = Ok (parse_company_list nothing_given,
           [Event "company_iterator"
              (AllProcessed (PyInt 0) (get nothing_given "processed_companies" (PyList [])))
              true])).
Proof.
  apply (no_names_ends_the_run nothing_given "  " (PyStr ""));
    [vm_compute; reflexivity | vm_compute; reflexivity | vm_compute; reflexivity
    | vm_compute; reflexivity].
Defined.

(** X10.  An answer that is JSON but no array (a quoted name, an object, a
    number) gives no name at all: the callback falls back on the user's
    own input, taken whole as one name. *)
Theorem json_scalar_falls_back_on_user_input
    (st : state) (text user_input : string) (v : pyval) :
  get st "parsed_companies" (PyStr "") = PyStr text →
  json_loads (strip_fence (py_strip text)) = Some v →
  is_list v = false →
  get st "user_input" (PyStr "") = PyStr user_input →
  py_strip user_input ≠ "" →
  parse_company_list st
  = <["processed_companies" := PyList []]>
    (<["total_companies" := PyInt 1]>
    (<["current_company_index" := PyInt 0]>
    (<["company_list" := PyList [PyStr (py_strip user_input)]]> st))).
Proof.
  intros Hget Hv Hlist Huser Hne. unfold parse_company_list, output_companies.
  rewrite Hget, Hv.
  assert (or_user_input st match v with PyList parsed => company_names parsed | _ => [] end
          = [PyStr (py_strip user_input)]) as ->; [|done].
  destruct v; try discriminate Hlist; unfold or_user_input; rewrite Huser;
    by destruct (String.eqb_spec (py_strip user_input) "").
Qed.

Lemma json_scalar_falls_back_on_user_input_witness :
  parse_company_list quoted_name
  = <["processed_companies" := PyList []]>
    (<["total_companies" := PyInt 1]>
    (<["current_company_index" := PyInt 0]>
    (<["company_list" := PyList [PyStr "analyse Apple"]]> quoted_name))).
Proof.
  apply (json_scalar_falls_back_on_user_input quoted_name (q "'Apple'") " analyse Apple "
           (PyStr "Apple"));
    [vm_compute; reflexivity | vm_compute; reflexivity | reflexivity
    | vm_compute; reflexivity | discriminate].
Defined.

(** ** loop_tools.py *)

(** X11.  [reset_company_state] leaves each of its ten keys with a falsy value
    and every other key as it was; run twice it does what it does
    once, state and returned dict alike. *)
Theorem reset_company_state_idempotent (st : state) :
  reset_company_state (reset_company_state st).1 = reset_company_state st
  ∧ Forall (λ k, ∃ v, (reset_company_state st).1 !! k = Some v ∧ truthy v = false)
      reset_keys
  ∧ (∀ k, k ∉ reset_keys → (reset_company_state st).1 !! k = st !! k).
Proof.
  split; [|split].
  - unfold reset_company_state. cbn [fst]. f_equal.
    + apply map_eq. intros k. rewrite !lookup_insert. by repeat case_decide.
    + unfold get. by rewrite !lookup_insert_ne by done.
  - unfold reset_company_state, reset_keys. cbn [fst].
    repeat constructor; eexists; (split; [by simplify_map_eq|done]).
  - intros k Hk. unfold reset_company_state. cbn [fst].
    assert (Hne : ∀ k', k' ∈ reset_keys → k' ≠ k) by (intros k' Hin <-; done).
    rewrite !lookup_insert_ne; [done|..]; apply Hne; solve_keys.
Qed.

(** X12.  [reset_company_state] does not write [download_success] (the
    iterator does): when the tool alone is used between two companies,
    the success of the first is still in the state, and the checker ends
    the next company's retry loop at once with its success message. *)
Theorem reset_keeps_download_success (st : state) :
  truthy (get st "download_success" (PyBool false)) = true →
  (reset_company_state st).1 !! "download_success" = st !! "download_success"
  ∧ download_checker (reset_company_state st).1
    = Ok ((reset_company_state st).1,
          [Event "download_checker" (Text "PDF found and downloaded successfully.") true]).
Proof.
  intros Hs.
  assert (Hk : (reset_company_state st).1 !! "download_success" = st !! "download_success").
  { unfold reset_company_state. cbn [fst]. by rewrite !lookup_insert_ne by done. }
  split; [done|]. unfold download_checker.
  unfold get in *. rewrite Hk. by rewrite Hs.
Qed.

Lemma reset_keeps_download_success_witness :
  (reset_company_state after_success).1 !! "download_success"
  = after_success !! "download_success"
  ∧ download_checker (reset_company_state after_success).1
    = Ok ((reset_company_state after_success).1,
          [Event "download_checker" (Text "PDF found and downloaded successfully.") true]).
Proof.
  apply (reset_keeps_download_success after_success). vm_compute. reflexivity.
Defined.

Lemma list_contains_str (u : string) (urls : list string) :
  list_contains (PyStr u) (PyStr <$> urls) = bool_decide (u ∈ urls).
Proof.
  unfold list_contains. induction urls as [|x l IH]; [done|].
  rewrite fmap_cons. cbn [existsb]. rewrite IH. cbn [py_eqb].
  destruct (String.eqb_spec u x) as [->|Hne].
  - symmetry. apply bool_decide_eq_true_2, elem_of_cons. by left.
  - cbn [orb]. apply bool_decide_ext. rewrite elem_of_cons.
    split; [by right|]. by intros [?|?].
Qed.

(** X13.  One call of [increment_retry_counter] on a counter [a] and a list of
    tried URLs without repetition: the counter becomes [a + 1], the tool
    reports [5 - (a + 1)] retries left (below zero once the counter
    passes 5: the tool sets no cap) and [should_continue] exactly while
    that is positive; the tried list still holds no URL twice and now
    holds the current URL, when there is one. *)
Theorem increment_retry_counter_step (st : state) (a : Z) (urls : list string) (url : string) :
  get st "pdf_find_attempt" (PyInt 0) = PyInt a →
  get st "tried_urls" (PyList []) = PyList (PyStr <$> urls) →
  get st "pdf_url" (PyStr "") = PyStr url →
  NoDup urls →
  ∃ st' urls',
    increment_retry_counter st
    = Ok (st', PyDict [("attempt", PyInt (a + 1));
                       ("max_retries", PyInt 5);
                       ("remaining_retries", PyInt (5 - (a + 1)));
                       ("should_continue", PyBool (bool_decide (a + 1 < 5)));
                       ("tried_urls", PyList (PyStr <$> urls'))])
    ∧ st' !! "pdf_find_attempt" = Some (PyInt (a + 1))
    ∧ get st' "tried_urls" (PyList []) = PyList (PyStr <$> urls')
    ∧ NoDup urls'
    ∧ urls' = (if bool_decide (url = "" ∨ url ∈ urls) then urls else urls ++ [url]).
Proof.
  intros Ha Ht Hu Hnd. unfold increment_retry_counter.
  rewrite Ha. unfold py_add. cbn [as_int mbind result_bind mret result_ret].
  rewrite !get_insert_ne by done. rewrite Ht, Hu. cbn [truthy].
  assert (Hsc : (0 <? 5 - (a + 1)) = bool_decide (a + 1 < 5)).
  { destruct (Z.ltb_spec 0 (5 - (a + 1))); symmetry;
      [apply bool_decide_eq_true_2|apply bool_decide_eq_false_2]; lia. }
  destruct (String.eqb_spec url "") as [->|Hne]; cbn [negb].
  - cbn [mbind result_bind mret result_ret as_int]. rewrite Hsc.
    exists (<["pdf_find_attempt" := PyInt (a + 1)]> st), urls.
    split; [done|]. split; [by simplify_map_eq|].
    split; [by rewrite get_insert_ne|]. split; [done|].
    rewrite bool_decide_eq_true_2; [done|by left].
  - cbn [py_contains mbind result_bind mret result_ret].
    rewrite list_contains_str. destruct (decide (url ∈ urls)) as [Hin|Hin].
    + rewrite (bool_decide_eq_true_2 _ Hin).
      cbn [negb mbind result_bind mret result_ret as_int]. rewrite Hsc.
      exists (<["pdf_find_attempt" := PyInt (a + 1)]> st), urls.
      split; [done|]. split; [by simplify_map_eq|].
      split; [by rewrite get_insert_ne|]. split; [done|].
      rewrite bool_decide_eq_true_2; [done|by right].
    + rewrite (bool_decide_eq_false_2 _ Hin).
      cbn [negb py_append mbind result_bind mret result_ret as_int]. rewrite Hsc.
      exists (<["tried_urls" := PyList ((PyStr <$> urls) ++ [PyStr url])]>
                (<["pdf_find_attempt" := PyInt (a + 1)]> st)), (urls ++ [url]).
      rewrite fmap_app. split; [done|]. split; [by simplify_map_eq|].
      split; [by rewrite get_insert_eq|]. split.
      * apply NoDup_app. split; [done|]. split; [|apply NoDup_singleton].
        intros x Hx Hx'%list_elem_of_singleton. by subst.
      * rewrite bool_decide_eq_false_2; [done|]. by intros [?|?].
Qed.

Lemma increment_retry_counter_step_witness :
  ∃ st' urls',
    increment_retry_counter second_try
    = Ok (st', PyDict [("attempt", PyInt (1 + 1));
                       ("max_retries", PyInt 5);
                       ("remaining_retries", PyInt (5 - (1 + 1)));
                       ("should_continue", PyBool (bool_decide (1 + 1 < 5)));
                       ("tried_urls", PyList (PyStr <$> urls'))])
    ∧ st' !! "pdf_find_attempt" = Some (PyInt (1 + 1))
    ∧ get st' "tried_urls" (PyList []) = PyList (PyStr <$> urls')
    ∧ NoDup urls'
    ∧ urls' = (if bool_decide ("https://b.example/r.pdf" = "" ∨
                               "https://b.example/r.pdf" ∈ ["https://a.example/r.pdf"])
               then ["https://a.example/r.pdf"]
               else ["https://a.example/r.pdf"] ++ ["https://b.example/r.pdf"]).
Proof.
  apply (increment_retry_counter_step second_try 1 ["https://a.example/r.pdf"]
           "https://b.example/r.pdf");
    [vm_compute; reflexivity | vm_compute; reflexivity | vm_compute; reflexivity
    | apply NoDup_singleton].
Defined.

(** ** The outer iteration *)

Lemma track_processed_company_frame (st st' : state) (k : string) :
  track_processed_company st = Ok st' →
  k ∉ ["processed_companies"; "current_company_index"] →
  st' !! k = st !! k.
Proof.
  unfold track_processed_company. intros H Hk.
  assert (Hne : ∀ k', k' ∈ ["processed_companies"; "current_company_index"] → k' ≠ k)
    by (intros k' Hin <-; done).
  destruct (truthy _); cbn [mbind result_bind mret result_ret] in H.
  - destruct (py_contains _ _) as [[]|]; cbn [negb mbind result_bind mret result_ret] in H;
      [| |done].
    + destruct (py_add _ _); [|done]. injection H as <-.
      rewrite lookup_insert_ne; [done|]. apply Hne; solve_keys.
    + destruct (py_append _ _); cbn [mbind result_bind mret result_ret] in H; [|done].
      destruct (py_add _ _); [|done]. injection H as <-.
      rewrite !lookup_insert_ne; [done|..]; apply Hne; solve_keys.
  - destruct (py_add _ _); [|done]. injection H as <-.
    rewrite lookup_insert_ne; [done|]. apply Hne; solve_keys.
Qed.

Lemma select_and_track_step (names : list string) (i : nat) (x : string) (st : state) :
  NoDup names → names !! i = Some x → x ≠ "" →
  at_position names i st →
  ∃ st', select_and_track st = Ok st'
         ∧ at_position names (S i) st'
         ∧ st' !! "company_name" = Some (PyStr x).
Proof.
  intros Hnd Hx Hne (Hl & Ht & Hi & Hp).
  pose proof (lookup_lt_Some _ _ _ Hx) as Hlt.
  unfold select_and_track, company_iterator, get. rewrite Hl, Hi.
  cbn [py_len mbind result_bind mret result_ret]. rewrite Ht, ?length_fmap.
  unfold py_ge. cbn [as_int].
  destruct (Z.leb_spec (Z.of_nat (length names)) (Z.of_nat i)) as [?|_]; [lia|].
  cbn [mbind result_bind mret result_ret]. unfold py_index. cbn [as_int].
  rewrite length_fmap.
  destruct (Z.ltb_spec (Z.of_nat i) 0) as [?|_]; [lia|].
  destruct (Z.leb_spec 0 (Z.of_nat i)) as [_|?]; [|lia].
  destruct (Z.ltb_spec (Z.of_nat i) (Z.of_nat (length names))) as [_|?]; [|lia].
  cbn [andb]. rewrite Nat2Z.id, list_lookup_fmap, Hx.
  cbn [fmap option_fmap option_map mbind result_bind mret result_ret py_add as_int].
  set (st1 := <["final_summary" := _]> _).
  assert (H1 : ∀ k, k ∈ ["company_list"; "total_companies"; "current_company_index";
                         "processed_companies"] → st1 !! k = st !! k).
  { intros k Hk. unfold st1. rewrite !lookup_insert_ne; [done|..]; intros <-;
      revert Hk; solve_keys. }
  assert (Hname : st1 !! "company_name" = Some (PyStr x))
    by (unfold st1; by simplify_map_eq).
  destruct (track_spec st1 (PyStr <$> take i names) (Z.of_nat i))
    as (st' & Hrun & Hidx & Hproc & _).
  { unfold get. rewrite H1 by solve_keys. by rewrite Hp. }
  { unfold get. rewrite H1 by solve_keys. by rewrite Hi. }
  exists st'. split; [done|].
  assert (Hnew : x ∉ take i names).
  { intros (j & Hj & Hji)%elem_of_take.
    assert (j = i) by (eapply NoDup_lookup; eauto). lia. }
  unfold get in Hproc. rewrite Hname in Hproc. cbn [truthy] in Hproc.
  rewrite list_contains_str, (bool_decide_eq_false_2 _ Hnew) in Hproc.
  destruct (String.eqb_spec x "") as [|_]; [done|]. cbn [negb andb] in Hproc.
  split; [|by rewrite (track_processed_company_frame _ _ _ Hrun) by solve_keys].
  split; [|split; [|split]].
  - rewrite (track_processed_company_frame _ _ _ Hrun) by solve_keys.
    rewrite H1 by solve_keys. done.
  - rewrite (track_processed_company_frame _ _ _ Hrun) by solve_keys.
    rewrite H1 by solve_keys. done.
  - rewrite Hidx. do 2 f_equal. lia.
  - destruct (st' !! "processed_companies") as [v|];
      [|injection Hproc as Hproc; by destruct (PyStr <$> take i names)]. subst v.
    by rewrite (take_S_r _ _ _ Hx), fmap_app.
Qed.

Lemma rounds_visit (names : list string) (k : nat) :
  NoDup names → "" ∉ names →
  ∀ i st, (i + k ≤ length names)%nat →
          at_position names i st →
          ∃ st', rounds k st = Ok st' ∧ at_position names (i + k) st'.
Proof.
  intros Hnd Hne. induction k as [|k IH]; intros i st Hle Hat.
  - exists st. by rewrite Nat.add_0_r.
  - destruct (lookup_lt_is_Some_2 names i ltac:(lia)) as [x Hx].
    destruct (select_and_track_step names i x st Hnd Hx) as (st1 & Hrun & Hat1 & _);
      [|done|].
    { intros ->. by apply Hne, (list_elem_of_lookup_2 _ i). }
    destruct (IH (S i) st1 ltac:(lia) Hat1) as (st' & Hr & Hat').
    exists st'. cbn [rounds]. rewrite Hrun. cbn [mbind result_bind].
    split; [done|]. by replace (i + S k)%nat with (S i + k)%nat by lia.
Qed.

(** X14.  Run in turn over a list of distinct, non-empty names, the iterator
    and the tracking callback visit each name once and in order: after as
    many rounds as there are names the processed list is the work list
    itself, the position is its length, and the iterator's next run
    asks the outer loop to stop without changing the state. *)
Theorem iteration_visits_every_company (names : list string) (st : state) :
  NoDup names → "" ∉ names →
  at_position names 0 st →
  ∃ st',
    rounds (length names) st = Ok st'
    ∧ st' !! "processed_companies" = Some (PyList (PyStr <$> names))
    ∧ st' !! "current_company_index" = Some (PyInt (Z.of_nat (length names)))
    ∧ company_iterator st'
      = Ok (st', [Event "company_iterator"
                    (AllProcessed (PyInt (Z.of_nat (length names)))
                       (PyList (PyStr <$> names)))
                    true]).
Proof.
  intros Hnd Hne Hat.
  destruct (rounds_visit names (length names) Hnd Hne 0%nat st ltac:(lia) Hat)
    as (st' & Hr & Hl & Ht & Hi & Hp).
  cbn [Nat.add] in *. rewrite firstn_all in Hp.
  exists st'. split; [done|]. split; [done|]. split; [done|].
  unfold company_iterator, get. rewrite Hl, Hi.
  cbn [py_len mbind result_bind mret result_ret]. rewrite Ht, Hp, ?length_fmap.
  unfold py_ge. cbn [as_int]. rewrite Z.leb_refl. reflexivity.
Qed.

Lemma iteration_visits_every_company_witness :
  ∃ st',
    rounds (length ["Apple Inc."; "12"; "Tesla, Inc."]) (parse_company_list names_given)
    = Ok st'
    ∧ st' !! "processed_companies"
      = Some (PyList (PyStr <$> ["Apple Inc."; "12"; "Tesla, Inc."]))
    ∧ st' !! "current_company_index"
      = Some (PyInt (Z.of_nat (length ["Apple Inc."; "12"; "Tesla, Inc."])))
    ∧ company_iterator st'
      = Ok (st', [Event "company_iterator"
                    (AllProcessed
                       (PyInt (Z.of_nat (length ["Apple Inc."; "12"; "Tesla, Inc."])))
                       (PyList (PyStr <$> ["Apple Inc."; "12"; "Tesla, Inc."])))
                    true]).
Proof.
  apply (iteration_visits_every_company ["Apple Inc."; "12"; "Tesla, Inc."]
           (parse_company_list names_given)).
  - compute_done.
  - compute_done.
  - repeat split; vm_compute; reflexivity.
Defined.

(** ** The retry loop on a success *)

Section RetrySuccess.
Variable path_exists : string → bool.

Lemma succeeding_pass (r : replies) (st : state) (n : Z) (path : pyval) :
  get st "pdf_find_attempt" (PyInt 0) = PyInt n →
  acquisition_succeeds r path →
  ∃ st' evs,
    run_sub_agents (pass_agents path_exists r) st = Ok (st', evs ++ [found_message], true)
    ∧ Forall (λ e, escalate e = false) evs
    ∧ st' !! "download_success" = Some (PyBool true)
    ∧ st' !! "pdf_file_path" = Some path
    ∧ get st' "pdf_find_attempt" (PyInt 0) = PyInt n.
Proof.
  intros Hn (m & result & Hm & Hres & Hok & Hpath & Htruthy).
  unfold pass_agents, run_sub_agents, alternative_finder_agent, url_validator_agent,
    downloader_agent, llm_agent, pure_callback, no_callback.
  cbn [mbind result_bind mret result_ret existsb escalate orb].
  set (st1 := process_finder_output _).
  set (st2 := <["url_validation_result" := _]> st1).
  set (st3 := process_download_output _ _).
  assert (Hst3 : st3 = <["download_success" := PyBool true]>
                         (<["pdf_file_size" := obj_get result "file_size_mb" (PyInt 0)]>
                         (<["pdf_file_path" := path]>
                         (<["download_success" := PyBool false]>
                         (<["pdf_file_path" := PyStr ""]>
                         (<["download_result" := PyStr (downloader_reply r)]> st2)))))).
  { unfold st3, process_download_output. rewrite get_insert_eq, Hm, Hres, Hok, Hpath, Htruthy.
    done. }
  assert (Hatt : get st3 "pdf_find_attempt" (PyInt 0) = PyInt n).
  { rewrite Hst3. unfold get. rewrite !lookup_insert_ne by done. unfold st2.
    rewrite lookup_insert_ne by done. unfold st1.
    rewrite process_finder_output_frame by solve_keys.
    rewrite lookup_insert_ne by done. exact Hn. }
  assert (Hdl : get st3 "download_success" (PyBool false) = PyBool true)
    by (by rewrite Hst3, get_insert_eq).
  unfold download_checker. rewrite Hdl. cbn [truthy].
  cbn [mbind result_bind mret result_ret existsb escalate orb app].
  exists st3, [Event "alternative_finder" (Text (finder_reply r)) false;
               Event "url_validator" (Text (validator_reply r)) false;
               Event "pdf_downloader" (Text (downloader_reply r)) false].
  split; [done|]. split; [by repeat constructor|].
  split; [by rewrite Hst3, lookup_insert_eq|].
  split; [|done]. rewrite Hst3. by simplify_map_eq.
Qed.

Lemma loop_until_success (oracle : nat → replies) (path : pyval) (k : nat) :
  ∀ (t remaining : nat) (st : state) (n : Z),
    get st "pdf_find_attempt" (PyInt 0) = PyInt n →
    n + Z.of_nat k ≤ 5 →
    (k < remaining)%nat →
    (∀ i, (t ≤ i < t + k)%nat → acquisition_fails path_exists (oracle i)) →
    acquisition_succeeds (oracle (t + k)%nat) path →
    ∃ r,
      loop_agent (λ i, pass_agents path_exists (oracle i)) remaining t st = Ok r
      ∧ passes r = S (t + k)
      ∧ exit r = Escalated
      ∧ last (events r) = Some found_message
      ∧ length (filter (λ e, escalate e = true) (events r)) = 1%nat
      ∧ final_state r !! "download_success" = Some (PyBool true)
      ∧ final_state r !! "pdf_file_path" = Some path
      ∧ get (final_state r) "pdf_find_attempt" (PyInt 0) = PyInt (n + Z.of_nat k).
Proof.
  induction k as [|k IH]; intros t remaining st n Hn Hle Hrem Hfail Hok.
  - destruct remaining as [|remaining]; [lia|]. rewrite Nat.add_0_r in *.
    destruct (succeeding_pass _ st n path Hn Hok) as (st' & evs & Hrun & Hevs & Hs & Hp & Ha).
    cbn [loop_agent]. rewrite Hrun. cbn [mbind result_bind mret result_ret].
    eexists. split; [reflexivity|]. cbn [passes exit events final_state].
    split; [done|]. split; [done|]. split; [by rewrite last_snoc|].
    split; [|by rewrite Z.add_0_r].
    rewrite filter_app, length_app. cbn.
    assert (filter (λ e, escalate e = true) evs = []) as ->; [|done].
    clear -Hevs. induction Hevs as [|e l He _ IHl]; [done|].
    rewrite filter_cons, decide_False by (by rewrite He). done.
  - destruct remaining as [|remaining]; [lia|].
    destruct (failing_pass path_exists (oracle t) st n Hn ltac:(lia) (Hfail t ltac:(lia)))
      as (st1 & Hpass & Hn1).
    destruct (IH (S t) remaining st1 (n + 1) Hn1 ltac:(lia) ltac:(lia))
      as (r & Hr & Hp & He & Hlast & Hone & Hs & Hpath & Ha).
    { intros i Hi. apply Hfail. lia. }
    { by replace (S t + k)%nat with (t + S k)%nat by lia. }
    cbn [loop_agent]. rewrite Hpass. cbn [mbind result_bind mret result_ret].
    rewrite Hr. cbn [mbind result_bind mret result_ret].
    eexists. split; [reflexivity|]. cbn [passes exit events final_state].
    split; [lia|]. split; [done|]. split.
    { rewrite last_app, Hlast. done. }
    split; [by rewrite filter_app, length_app, Hone|].
    split; [done|]. split; [done|]. rewrite Ha. f_equal. lia.
Qed.

End RetrySuccess.



(** ** The Pinecone namespaces *)

Lemma lower_char_idem (c : ascii) : lower_char (lower_char c) = lower_char c.
Proof. destruct c as [[] [] [] [] [] [] [] []]; reflexivity. Qed.

Lemma py_lower_idem (s : string) : py_lower (py_lower s) = py_lower s.
Proof. induction s as [|c t IH]; [done|]. cbn. by rewrite lower_char_idem, IH. Qed.

Lemma namespace_char_fixed (c : ascii) :
  namespace_char c = true → lower_char c = c ∧ namespace_keep c = true.
Proof. destruct c as [[] [] [] [] [] [] [] []]; vm_compute; intros; done. Qed.

Lemma namespace_chars_fixed (s : string) :
  all_chars namespace_char s = true →
  py_lower s = s ∧ underscore_others s = s.
Proof.
  induction s as [|c t IH]; [done|]. cbn [all_chars py_lower underscore_others].
  intros [Hc Ht]%andb_prop. destruct (IH Ht) as [-> ->].
  destruct (namespace_char_fixed c Hc) as [-> ->]. done.
Qed.

Lemma store_namespace_chars (name : string) :
  store_namespace name = py_strip_chars "_" (underscore_others (py_lower name))
  ∧ all_chars namespace_char (store_namespace name) = true.
Proof.
  unfold store_namespace. rewrite sub_not_namespace_char. split; [done|].
  unfold py_strip_chars, strip_by.
  apply all_chars_rstrip, all_chars_lstrip, underscore_lower_chars.
Qed.

(** X16.  What is stored under a company name is searched under the same
    namespace; the namespace does not depend on the case of the name's
    letters; and a namespace is its own namespace. *)
Theorem namespace_is_stable (name : string) :
  search_namespace name = store_namespace name
  ∧ store_namespace (py_lower name) = store_namespace name
  ∧ store_namespace (store_namespace name) = store_namespace name.
Proof.
  split; [|split].
  - unfold search_namespace, store_namespace.
    by destruct (String.eqb_spec name "") as [->|_].
  - unfold store_namespace. by rewrite py_lower_idem.
  - destruct (store_namespace_chars name) as [Heq Hall].
    destruct (store_namespace_chars (store_namespace name)) as [-> _].
    destruct (namespace_chars_fixed _ Hall) as [-> ->].
    rewrite Heq. apply strip_by_idem.
Qed.

(** ** The A2A server: which part is the query *)

Lemma find_query_skip (pre rest : list pyval) :
  Forall (λ p, silent_part p = true) pre →
  find_query (pre ++ rest) = find_query rest.
Proof.
  induction 1 as [|part parts Hp _ IH]; [done|].
  destruct part as [| | | |l|d]; try discriminate Hp.
  cbn [app find_query py_get mbind result_bind].
  cbn [silent_part] in Hp.
  destruct (dict_get "kind" d) as [kind|] eqn:Hk.
  - rewrite !py_eqb_str_r. destruct kind as [| | |kind| |]; try exact IH.
    destruct (String.eqb kind "text"); [discriminate|].
    destruct (String.eqb kind "data"); [|exact IH].
    destruct (dict_get "data" d) as [[| | | | |payload]|]; try discriminate Hp.
    + cbn. destruct (dict_get "userAction" payload); [discriminate|]. exact IH.
    + cbn. exact IH.
  - cbn. exact IH.
Qed.

(** X17.  The query is read off the first part that is a text part or a data
    part with a [userAction], whatever follows it: a text part gives its
    text (the empty text when it has none, and then the request is
    refused even if a later part has content), a data part the JSON
    dump of its payload. *)
Theorem first_speaking_part_is_the_query
    (pre rest : list pyval) (d payload : list (string * pyval)) :
  Forall (λ p, silent_part p = true) pre →
  (dict_get "kind" d = Some (PyStr "text") →
   find_query (pre ++ PyDict d :: rest) = Ok (default (PyStr "") (dict_get "text" d)))
  ∧ (dict_get "kind" d = Some (PyStr "data") →
     dict_get "data" d = Some (PyDict payload) →
     is_Some (dict_get "userAction" payload) →
     find_query (pre ++ PyDict d :: rest) = Ok (PyStr (json_dumps (PyDict payload)))).
Proof.
  intros Hpre. rewrite (find_query_skip _ _ Hpre). split.
  - intros Hk. cbn [find_query py_get mbind result_bind]. rewrite Hk. cbn.
    by destruct (dict_get "text" d).
  - intros Hk Hd [x Hx]. cbn [find_query py_get mbind result_bind]. rewrite Hk, Hd.
    cbn. by rewrite Hx.
Qed.

Lemma first_speaking_part_is_the_query_witness :
  (dict_get "kind" [("kind", PyStr "text"); ("text", PyStr "Profile the EV market")]
   = Some (PyStr "text") →
   find_query mixed_parts = Ok (PyStr "Profile the EV market"))
  ∧ (dict_get "kind" [("kind", PyStr "text"); ("text", PyStr "Profile the EV market")]
     = Some (PyStr "data") →
     dict_get "data" [("kind", PyStr "text"); ("text", PyStr "Profile the EV market")]
     = Some (PyDict []) →
     is_Some (dict_get "userAction" []) →
     find_query mixed_parts = Ok (PyStr (json_dumps (PyDict [])))).
Proof.
  apply (first_speaking_part_is_the_query
           [PyDict [("kind", PyStr "file")]]
           [PyDict [("kind", PyStr "data");
                    ("data", PyDict [("userAction", PyDict [("name", PyStr "open")])])]]
           [("kind", PyStr "text"); ("text", PyStr "Profile the EV market")] []).
  repeat constructor.
Defined.

(** ** The A2A server: which response is the answer *)

Lemma last_response_decisive (ev : run_event) (rest : list run_event) (final : option string) :
  decisive ev = true →
  last_response (ev :: rest) final = Some (response_text ev).
Proof.
  unfold decisive, response_text. intros [[Hf Hp]%andb_prop Hd]%andb_prop.
  cbn [last_response]. rewrite Hf. destruct (ev_parts ev) as [|p ps]; [done|].
  by rewrite Hd.
Qed.

Lemma last_response_not_decisive (ev : run_event) (rest : list run_event)
    (final : option string) :
  decisive ev = false →
  ∃ final', last_response (ev :: rest) final = last_response rest final'.
Proof.
  unfold decisive, response_text. intros Hd. cbn [last_response].
  destruct (is_final_response ev); [|by eexists].
  destruct (ev_parts ev) as [|p ps]; [by eexists|]. cbn [andb] in Hd. rewrite Hd.
  destruct final as [[|c s]|]; by eexists.
Qed.

(** X18.  The reading of the run stops at the first final response that holds
    the A2UI delimiter or comes from the A2UI generator: its text, the
    non-empty parts joined by line feeds, is the answer, whatever
    earlier events said and whatever follows. *)
Theorem first_decisive_response_wins
    (pre post : list run_event) (ev : run_event) (final : option string) :
  Forall (λ e, decisive e = false) pre →
  decisive ev = true →
  last_response (pre ++ ev :: post) final = Some (response_text ev).
Proof.
  intros Hpre Hev. revert final.
  induction Hpre as [|e pre He _ IH]; intros final.
  - by apply last_response_decisive.
  - cbn [app]. destruct (last_response_not_decisive e (pre ++ ev :: post) final He)
      as [final' ->]. apply IH.
Qed.

Lemma first_decisive_response_wins_witness :
  last_response cards_run None
  = Some ("Here you go" +:+ newline +:+ "---a2ui_JSON---{}").
Proof.
  apply (first_decisive_response_wins
           [RunEvent true "market_identifier" ["Tesla, BYD"]]
           [RunEvent true "a2ui_generator" ["late"]]
           (RunEvent true "a2ui_generator" ["Here you go"; ""; "---a2ui_JSON---{}"])
           None).
  - repeat constructor.
  - reflexivity.
Defined.

Lemma last_response_no_answer (evs : list run_event) :
  Forall (λ e, no_answer e = true) evs →
  ∀ final, last_response evs final = final.
Proof.
  induction 1 as [|e evs He _ IH]; intros final; [done|].
  cbn [last_response]. unfold no_answer in He.
  destruct (is_final_response e); [|apply IH].
  destruct (ev_parts e); [apply IH|done].
Qed.

(** X19.  A request with a query runs the agent once, on that query.  When the
    run yields no final response with content, the caller still gets a
    task reply, status 200, whose one part is the apology text: the
    missing answer is not reported as a JSON-RPC error. *)
Theorem run_without_answer_apologises
    (URI MIME : string) (run_agent : string → string + list run_event)
    (req : request) (body : pyval) (parts : list pyval) (query : string)
    (evs : list run_event) :
  json_body req = inr body →
  message_parts body = Ok (PyList parts) →
  find_query parts = Ok (PyStr query) →
  query ≠ "" →
  run_agent query = inr evs →
  Forall (λ e, no_answer e = true) evs →
  ∃ request_id task_id,
    handle_message URI MIME run_agent req
    = Ok (Handled
            (task_reply request_id task_id (fresh_context_id req) [text_part apology])
            [query]).
Proof.
  intros Hbody Hparts Hq Hne Hrun Hevs. unfold handle_message. rewrite Hbody.
  unfold message_parts in Hparts.
  destruct body as [| | | | |b]; try discriminate Hparts.
  cbn [py_get mbind result_bind] in *.
  destruct (match dict_get "params" b with Some v => v | None => PyDict [] end)
    as [| | | | |params] eqn:Hparams; try discriminate Hparts.
  cbn [py_get mbind result_bind] in *.
  destruct (match dict_get "message" params with Some v => v | None => PyDict [] end)
    as [| | | | |message_data]; try discriminate Hparts.
  cbn [py_get mbind result_bind] in *. injection Hparts as Hparts. rewrite Hparts.
  cbn [py_iter mbind result_bind]. rewrite Hq. cbn [mbind result_bind truthy].
  destruct (String.eqb_spec query "") as [|_]; [done|]. cbn [negb].
  rewrite Hrun, (last_response_no_answer _ Hevs). by eexists _, _.
Qed.

Lemma run_without_answer_apologises_witness :
  ∃ request_id task_id,
    handle_message "https://a2ui.example/ext" "application/json+a2ui" silent_run
      (Request (inr text_request) "https://a2ui.example/ext" "fresh-1" "fresh-2" "fresh-3")
    = Ok (Handled
            (task_reply request_id task_id "fresh-3" [text_part apology])
            ["Profile the EV market"]).
Proof.
  apply (run_without_answer_apologises "https://a2ui.example/ext" "application/json+a2ui"
           silent_run
           (Request (inr text_request) "https://a2ui.example/ext" "fresh-1" "fresh-2" "fresh-3")
           text_request mixed_parts "Profile the EV market"
           [RunEvent false "market_identifier" ["thinking"];
            RunEvent true "data_summarizer" []]).
  - reflexivity.
  - vm_compute. reflexivity.
  - vm_compute. reflexivity.
  - discriminate.
  - reflexivity.
  - repeat constructor.
Defined.

(** ** The matcher against the language of its patterns *)

Lemma rx_sound (r : regex) :
  ∀ (b : bool) (s : string) (k : bool → string → option string) (x : string),
    rx r b s k = Some x →
    ∃ m s' b', matches r m ∧ s = m +:+ s' ∧ k b' s' = Some x.
Proof.
  induction r as [|p|r1 IH1 r2 IH2|r1 IH1 r2 IH2|r1 IH1| |]; intros b s k x; cbn [rx].
  - intros H. exists "", s, b. split; [constructor|done].
  - destruct s as [|c t]; [done|]. destruct (p c) eqn:Hc; [|done]. intros H.
    exists (String c ""), t, false. split; [by constructor|done].
  - intros H. apply IH1 in H as (m1 & s1 & b1 & Hm1 & -> & H).
    apply IH2 in H as (m2 & s2 & b2 & Hm2 & -> & H).
    exists (m1 +:+ m2), s2, b2. split; [by constructor|]. by rewrite append_assoc.
  - destruct (rx r1 b s k) as [y|] eqn:H1.
    + intros [= <-]. apply IH1 in H1 as (m & s' & b' & Hm & -> & H).
      exists m, s', b'. split; [by apply matches_alt_l|done].
    + intros H. apply IH2 in H as (m & s' & b' & Hm & -> & H).
      exists m, s', b'. split; [by apply matches_alt_r|done].
  - generalize (String.length s) as n. intros n. revert b s.
    induction n as [|n IHn]; intros b s.
    + intros H. exists "", s, b. split; [constructor|done].
    + destruct (rx r1 b s _) as [y|] eqn:H1.
      * intros [= <-]. apply IH1 in H1 as (m1 & s1 & b1 & Hm1 & -> & H).
        destruct (_ <? _)%nat; [|done].
        apply IHn in H as (m2 & s2 & b2 & Hm2 & -> & H).
        exists (m1 +:+ m2), s2, b2. split; [by constructor|]. by rewrite append_assoc.
      * intros H. exists "", s, b. split; [constructor|done].
  - destruct b; [|done]. intros H. exists "", s, true. split; [constructor|done].
  - intros H. exists "", s, b. split; [constructor|].
    destruct s as [|c [|d t]]; [done| |done]. by destruct (Ascii.eqb c "010").
Qed.

Lemma match_at_sound (r : regex) (b : bool) (s m rest : string) :
  match_at r b s = Some (m, rest) → matches r m ∧ s = m +:+ rest.
Proof.
  unfold match_at. destruct (rx r b s _) as [rest'|] eqn:H; [|done].
  intros [= <- <-]. apply rx_sound in H as (m & s' & _ & Hm & -> & [= <-]).
  replace (String.length (m +:+ s') - String.length s')%nat with (String.length m)
    by (rewrite length_append; lia).
  by rewrite str_take_length_append.
Qed.

Lemma findall_sound (r : regex) (s : string) :
  ∀ b skip m, m ∈ findall_go r b skip s → matches r m.
Proof.
  induction s as [|c t IH]; intros b skip m; cbn [findall_go].
  - destruct (match_at r b "") as [[m' rest]|] eqn:H; [|by intros ?%elem_of_nil].
    intros ->%list_elem_of_singleton. by apply match_at_sound in H as [? _].
  - destruct skip as [|skip]; [|apply IH].
    destruct (match_at r b (String c t)) as [[m' rest]|] eqn:H; [|apply IH].
    intros [->|Hm]%elem_of_cons; [|by eapply IH].
    by apply match_at_sound in H as [? _].
Qed.

Lemma py_lower_append (a b : string) : py_lower (a +:+ b) = py_lower a +:+ py_lower b.
Proof. induction a as [|c a IH]; [done|]. rewrite append_cons. cbn. by rewrite IH. Qed.

Lemma matches_lit_ci (w m : string) :
  matches (lit_ci w) m → py_lower m = py_lower w.
Proof.
  revert m. induction w as [|c w IH]; intros m H; cbn [lit_ci] in H.
  - by inversion H.
  - inversion H as [| |? ? a b Ha Hb| | | | | |]; subst.
    inversion Ha as [|? d Hd| | | | | | |]; subst.
    apply Ascii.eqb_eq in Hd. rewrite append_cons, append_nil_l. cbn.
    by rewrite Hd, (IH _ Hb).
Qed.

Lemma matches_plus_nonempty (p : ascii → bool) (m : string) :
  matches (Plus (Chr p)) m → m ≠ "".
Proof.
  unfold Plus. intros H. inversion H as [| |? ? a b Ha Hb| | | | | |]; subst.
  by inversion Ha.
Qed.

Lemma matches_http_scheme (m : string) :
  matches http_scheme m → py_lower m = "http://" ∨ py_lower m = "https://".
Proof.
  unfold http_scheme, Opt. intros H.
  inversion H as [| |? ? a b Ha Hb| | | | | |]; subst.
  inversion Hb as [| |? ? c d Hc Hd| | | | | |]; subst.
  apply (matches_lit_ci "http") in Ha. apply (matches_lit_ci "://") in Hd.
  rewrite !py_lower_append, Ha, Hd.
  inversion Hc as [| | |? ? ? Hs|? ? ? Hs| | | |]; subst.
  - right. unfold chr_ci in Hs. inversion Hs as [|? e He| | | | | | |]; subst.
    apply Ascii.eqb_eq in He. cbn. by rewrite He.
  - left. by inversion Hs.
Qed.

Lemma url_trailing_keeps_f (c : ascii) :
  lower_char c = "f"%char → mem c url_trailing = false ∧ mem c ".,;:!?" = false.
Proof. destruct c as [[] [] [] [] [] [] [] []]; vm_compute; intros; done. Qed.

Lemma lower_ext_last (ext : string) :
  py_lower ext = ".pdf" →
  ∃ e c, ext = e +:+ String c "" ∧ lower_char c = "f"%char.
Proof.
  destruct ext as [|c1 [|c2 [|c3 [|c4 [|c5 t]]]]]; try done. cbn.
  intros [= _ _ _ H4]. by exists (String c1 (String c2 (String c3 ""))), c4.
Qed.

Lemma rstrip_after_ext (p : ascii → bool) (pre ext tail : string) :
  (∀ c, lower_char c = "f"%char → p c = false) →
  py_lower ext = ".pdf" →
  rstrip_by p (pre +:+ ext +:+ tail) = pre +:+ ext +:+ rstrip_by p tail.
Proof.
  intros Hp Hext. destruct (lower_ext_last _ Hext) as (e & c & -> & Hc).
  replace (pre +:+ (e +:+ String c "") +:+ tail)
    with ((pre +:+ e) +:+ String c tail)
    by (by rewrite !append_assoc).
  rewrite rstrip_by_keeps by (by apply Hp). by rewrite !append_assoc.
Qed.

(** What each of the three patterns of [process_finder_output] matches is
    a PDF link, and so it is once the trailing punctuation is off. *)
Lemma pdf_patterns_links (pattern : regex) (m : string) :
  pattern ∈ pdf_patterns → matches pattern m → pdf_link (py_rstrip url_trailing m).
Proof.
  intros Hin Hm.
  assert (Hshape : ∃ scheme body ext tail,
             m = scheme +:+ body +:+ ext +:+ tail
             ∧ (py_lower scheme = "http://" ∨ py_lower scheme = "https://")
             ∧ body ≠ "" ∧ py_lower ext = ".pdf").
  { unfold pdf_patterns in Hin.
    apply elem_of_cons in Hin as [->|Hin]; [|apply elem_of_cons in Hin as [->|Hin];
      [|apply list_elem_of_singleton in Hin as ->]].
    - inversion Hm as [| |? ? a b Ha Hb| | | | | |]; subst.
      inversion Hb as [| |? ? c d Hc Hd| | | | | |]; subst.
      inversion Hd as [| |? ? e f He Hf| | | | | |]; subst.
      exists a, c, e, f. split; [done|]. split; [by apply matches_http_scheme|].
      split; [by eapply matches_plus_nonempty|by apply (matches_lit_ci ".pdf") in He].
    - inversion Hm as [| |? ? a b Ha Hb| | | | | |]; subst.
      inversion Hb as [| |? ? c d Hc Hd| | | | | |]; subst.
      inversion Hd as [| |? ? e f He Hf| | | | | |]; subst.
      inversion Hf as [| |? ? g h Hg Hh| | | | | |]; subst.
      exists a, (c +:+ e +:+ g), h, "". split; [by rewrite !append_assoc, append_nil_r|].
      split; [by apply matches_http_scheme|]. split; [|by apply (matches_lit_ci ".pdf") in Hh].
      apply matches_plus_nonempty in Hc. by destruct c.
    - inversion Hm as [| |? ? a b Ha Hb| | | | | |]; subst.
      inversion Hb as [| |? ? c d Hc Hd| | | | | |]; subst.
      inversion Hd as [| |? ? e f He Hf| | | | | |]; subst.
      inversion Hf as [| |? ? g h Hg Hh| | | | | |]; subst.
      exists a, (c +:+ e +:+ g), h, "". split; [by rewrite !append_assoc, append_nil_r|].
      split; [by apply matches_http_scheme|]. split; [|by apply (matches_lit_ci ".pdf") in Hh].
      apply matches_plus_nonempty in Hc. by destruct c. }
  destruct Hshape as (scheme & body & ext & tail & -> & Hs & Hb & He).
  exists scheme, body, ext, (rstrip_by (λ c, mem c url_trailing) tail).
  split; [|done]. unfold py_rstrip.
  replace (scheme +:+ body +:+ ext +:+ tail) with ((scheme +:+ body) +:+ ext +:+ tail)
    by (by rewrite !append_assoc).
  rewrite rstrip_after_ext; [by rewrite !append_assoc| |done].
  intros c Hc. by apply url_trailing_keeps_f.
Qed.

(** ** The URL the finder's callback stores *)

Lemma existsb_eqb_elem (u : string) (l : list string) :
  existsb (String.eqb u) l = bool_decide (u ∈ l).
Proof.
  induction l as [|x l IH]; [done|]. cbn [existsb]. rewrite IH.
  destruct (String.eqb_spec u x) as [->|Hne].
  - symmetry. apply bool_decide_eq_true_2, elem_of_cons. by left.
  - cbn [orb]. apply bool_decide_ext. rewrite elem_of_cons.
    split; [by right|]. by intros [?|?].
Qed.

Lemma add_url_inv (P : string → Prop) (found : list string) (m : string) :
  NoDup found → Forall P found → P (py_rstrip url_trailing m) →
  NoDup (add_url found m) ∧ Forall P (add_url found m).
Proof.
  intros Hnd Hall Hm. unfold add_url. rewrite existsb_eqb_elem.
  destruct (decide (py_rstrip url_trailing m ∈ found)) as [Hin|Hin].
  - by rewrite (bool_decide_eq_true_2 _ Hin).
  - rewrite (bool_decide_eq_false_2 _ Hin). split.
    + apply NoDup_app. split; [done|]. split; [|apply NoDup_singleton].
      intros x Hx Hx'%list_elem_of_singleton. by subst.
    + apply Forall_app. by split; [|constructor].
Qed.

Lemma foldl_add_url_inv (P : string → Prop) (ms : list string) :
  ∀ found,
    NoDup found → Forall P found →
    Forall (λ m, P (py_rstrip url_trailing m)) ms →
    NoDup (foldl add_url found ms) ∧ Forall P (foldl add_url found ms).
Proof.
  induction ms as [|m ms IH]; intros found Hnd Hall Hms; [done|].
  apply Forall_cons in Hms as [Hm Hms]. cbn [foldl].
  destruct (add_url_inv P found m Hnd Hall Hm) as [? ?]. by apply IH.
Qed.

Lemma collect_urls_links (text : string) :
  NoDup (collect_urls text) ∧ Forall pdf_link (collect_urls text).
Proof.
  unfold collect_urls.
  assert (Hinv : ∀ patterns found,
             (∀ p, p ∈ patterns → p ∈ pdf_patterns) →
             NoDup found → Forall pdf_link found →
             NoDup (foldl (λ found pattern, foldl add_url found (findall pattern text))
                      found patterns)
             ∧ Forall pdf_link
                 (foldl (λ found pattern, foldl add_url found (findall pattern text))
                    found patterns)).
  { induction patterns as [|p ps IH]; intros found Hps Hnd Hall; [done|].
    cbn [foldl].
    destruct (foldl_add_url_inv pdf_link (findall p text) found Hnd Hall) as [? ?].
    { apply Forall_forall. intros m Hm. apply (pdf_patterns_links p).
      - apply Hps. by left.
      - by eapply findall_sound. }
    apply IH; [|done|done]. intros p' Hp'. apply Hps. by right. }
  apply Hinv; [done|apply NoDup_nil_2|done].
Qed.

Lemma choose_best_url_elem (first : string) (rest : list string) :
  choose_best_url first (first :: rest) ∈ first :: rest.
Proof.
  rewrite choose_best_url_last.
  destruct (last (filter (λ u, trusted u = true) (first :: rest))) as [u|] eqn:Hl.
  - apply last_Some in Hl as [l' Hl]. cbn [default].
    assert (u ∈ filter (λ u, trusted u = true) (first :: rest)) as Hu.
    { rewrite Hl. apply elem_of_app. right. by left. }
    by apply list_elem_of_filter in Hu as [_ ?].
  - by left.
Qed.

Lemma pdf_link_nonempty (u : string) : pdf_link u → u ≠ "".
Proof.
  intros (scheme & body & ext & tail & -> & Hs & _ & _) H.
  destruct scheme; [by destruct Hs|done].
Qed.

(** X20.  On an answer without an error marker, [process_finder_output] finds
    no URL twice, and what it finds are PDF links: [http://] or
    [https://] in any letter case, at least one more character, then
    [.pdf] in any letter case.  With no link found [pdf_url] is left
    empty and [finder_error] says so; otherwise [pdf_url] is one of the
    links found, and [finder_error] keeps whatever an earlier pass
    wrote. *)
Theorem stored_pdf_url_is_a_link (st : state) (text : string) :
  get st "pdf_url_raw" (PyStr "") = PyStr text →
  py_in "ERROR:" text || py_in "no pdf" (py_lower text) = false →
  NoDup (collect_urls text)
  ∧ Forall pdf_link (collect_urls text)
  ∧ (collect_urls text = [] →
     process_finder_output st !! "pdf_url" = Some (PyStr "")
     ∧ process_finder_output st !! "finder_error"
       = Some (PyStr "No PDF URL found in search results"))
  ∧ (collect_urls text ≠ [] →
     ∃ u, process_finder_output st !! "pdf_url" = Some (PyStr u)
          ∧ u ∈ collect_urls text
          ∧ pdf_link u
          ∧ process_finder_output st !! "finder_error" = st !! "finder_error").
Proof.
  intros Hraw Hok. destruct (collect_urls_links text) as [Hnd Hall].
  split; [done|]. split; [done|]. unfold process_finder_output. rewrite Hraw, Hok.
  split.
  - intros ->. by simplify_map_eq.
  - intros Hne. destruct (collect_urls text) as [|first rest] eqn:Hc; [done|].
    exists (choose_best_url first (first :: rest)).
    pose proof (choose_best_url_elem first rest) as Hin.
    split; [by simplify_map_eq|]. split; [done|].
    split; [|by simplify_map_eq].
    by apply (proj1 (Forall_forall _ _) Hall).
Qed.

Lemma stored_pdf_url_is_a_link_witness :
  NoDup (collect_urls finder_answer)
  ∧ Forall pdf_link (collect_urls finder_answer)
  ∧ (collect_urls finder_answer = [] →
     process_finder_output finder_replied !! "pdf_url" = Some (PyStr "")
     ∧ process_finder_output finder_replied !! "finder_error"
       = Some (PyStr "No PDF URL found in search results"))
  ∧ (collect_urls finder_answer ≠ [] →
     ∃ u, process_finder_output finder_replied !! "pdf_url" = Some (PyStr u)
          ∧ u ∈ collect_urls finder_answer
          ∧ pdf_link u
          ∧ process_finder_output finder_replied !! "finder_error"
            = finder_replied !! "finder_error").
Proof.
  apply (stored_pdf_url_is_a_link finder_replied finder_answer);
    vm_compute; reflexivity.
Defined.

(** ** The downloader's callback *)

Lemma search_go_sound (r : regex) (s : string) :
  ∀ b m, search_go r b s = Some m → matches r m.
Proof.
  induction s as [|c t IH]; intros b m; cbn [search_go].
  - destruct (match_at r b "") as [[m' rest]|] eqn:H; [|done].
    intros [= <-]. by apply match_at_sound in H as [? _].
  - destruct (match_at r b (String c t)) as [[m' rest]|] eqn:H; [|apply IH].
    intros [= <-]. by apply match_at_sound in H as [? _].
Qed.

Lemma windows_pdf_path_nonempty (m : string) : matches windows_pdf_path m → m ≠ "".
Proof.
  unfold windows_pdf_path. intros H.
  inversion H as [| |? ? a b Ha Hb| | | | | |]; subst. by inversion Ha.
Qed.


(** ** custom_tools.py: the URL tools *)

Lemma punctuation_keeps (c : ascii) :
  lower_char c = "f"%char ∨ lower_char c = "/"%char → mem c ".,;:!?" = false.
Proof. destruct c as [[] [] [] [] [] [] [] []]; vm_compute; intros [?|?]; done. Qed.

Lemma lower_slash_last (w : string) :
  py_lower w = "/pdf/" →
  ∃ e c, w = e +:+ String c "" ∧ lower_char c = "/"%char.
Proof.
  destruct w as [|c1 [|c2 [|c3 [|c4 [|c5 [|c6 t]]]]]]; try done. cbn.
  intros [= _ _ _ _ H5]. by exists (String c1 (String c2 (String c3 (String c4 "")))), c5.
Qed.

Lemma url_pattern_links (m : string) :
  matches url_pattern m → web_link (py_rstrip ".,;:!?" m).
Proof.
  unfold url_pattern, url_body. intros Hm.
  assert (Hshape : ∃ scheme body e c tail,
             m = (scheme +:+ body +:+ e) +:+ String c tail
             ∧ (py_lower scheme = "http://" ∨ py_lower scheme = "https://")
             ∧ body ≠ ""
             ∧ mem c ".,;:!?" = false).
  { inversion Hm as [| | |? ? ? Hl|? ? ? Hr| | | |]; subst.
    - inversion Hl as [| |? ? a b Ha Hb| | | | | |]; subst.
      inversion Hb as [| |? ? c d Hc Hd| | | | | |]; subst.
      inversion Hd as [| |? ? e f He Hf| | | | | |]; subst.
      apply (matches_lit_ci ".pdf") in He.
      destruct (lower_ext_last _ He) as (e' & x & -> & Hx).
      exists a, c, e', x, f. split; [by rewrite !append_assoc|].
      split; [by apply matches_http_scheme|].
      split; [by eapply matches_plus_nonempty|]. apply punctuation_keeps. by left.
    - inversion Hr as [| |? ? a b Ha Hb| | | | | |]; subst.
      inversion Hb as [| |? ? c d Hc Hd| | | | | |]; subst.
      inversion Hd as [| |? ? e f He Hf| | | | | |]; subst.
      apply (matches_lit_ci "/pdf/") in He.
      destruct (lower_slash_last _ He) as (e' & x & -> & Hx).
      exists a, c, e', x, f. split; [by rewrite !append_assoc|].
      split; [by apply matches_http_scheme|].
      split; [by eapply matches_plus_nonempty|]. apply punctuation_keeps. by right. }
  destruct Hshape as (scheme & body & e & c & tail & -> & Hs & Hb & Hc).
  unfold py_rstrip. rewrite rstrip_by_keeps by done.
  exists scheme, (body +:+ e +:+ String c (rstrip_by (λ c, mem c ".,;:!?") tail)).
  split; [by rewrite !append_assoc|]. split; [done|]. by destruct body.
Qed.

Lemma cleaned_urls_links (search_results : string) :
  Forall web_link (cleaned_urls search_results).
Proof.
  unfold cleaned_urls. apply Forall_fmap, Forall_forall. intros m Hm.
  apply url_pattern_links. by eapply findall_sound.
Qed.

(** X22.  [extract_pdf_url_from_search_results] reports failure exactly when
    the text holds no match.  Otherwise every URL it has cleaned is a web
    link ([http://] or [https://] in any letter case, then more);
    [pdf_url] is one of them, one that ends in [.pdf] whenever there is
    such a one and the first URL otherwise; and [all_urls] holds the
    first five, so [pdf_url] need not be among them. *)
Theorem extracted_pdf_url (search_results : string) :
  Forall web_link (cleaned_urls search_results)
  ∧ (cleaned_urls search_results = [] ↔
     extract_pdf_url_from_search_results search_results
     = PyDict [("success", PyBool false);
               ("error", PyStr "No PDF URLs found in search results");
               ("all_urls", PyList [])])
  ∧ (cleaned_urls search_results ≠ [] →
     ∃ best,
       extract_pdf_url_from_search_results search_results
       = PyDict [("success", PyBool true);
                 ("pdf_url", PyStr best);
                 ("all_urls", PyList (PyStr <$> take 5 (cleaned_urls search_results)))]
       ∧ best ∈ cleaned_urls search_results
       ∧ (length (take 5 (cleaned_urls search_results)) ≤ 5)%nat
       ∧ ((∃ u, u ∈ cleaned_urls search_results ∧ is_pdf_url u = true) →
          is_pdf_url best = true)
       ∧ ((∀ u, u ∈ cleaned_urls search_results → is_pdf_url u = false) →
          head (cleaned_urls search_results) = Some best)).
Proof.
  split; [apply cleaned_urls_links|].
  unfold extract_pdf_url_from_search_results.
  destruct (cleaned_urls search_results) as [|first rest] eqn:Hc.
  { split; [done|]. by intros ?. }
  split; [split; [done|discriminate]|]. intros _.
  destruct (filter (λ u, is_pdf_url u = true) (first :: rest)) as [|u us] eqn:Hf.
  - exists first. split; [done|]. split; [by left|].
    split; [rewrite length_take; lia|]. split; [|done].
    intros (u & Hu & Hpdf).
    assert (u ∈ filter (λ u, is_pdf_url u = true) (first :: rest)) as Hin
      by (by apply list_elem_of_filter).
    rewrite Hf in Hin. by apply elem_of_nil in Hin.
  - assert (u ∈ filter (λ u, is_pdf_url u = true) (first :: rest)) as Hin
      by (rewrite Hf; by left).
    apply list_elem_of_filter in Hin as [Hpdf Hin].
    exists u. split; [done|]. split; [done|].
    split; [rewrite length_take; lia|]. split; [done|].
    intros Hnone. by rewrite (Hnone u Hin) in Hpdf.
Qed.

(** X23.  [validate_pdf_url] sends nothing for a URL that does not start with
    [http://] or [https://] in lower case, and calls it not valid.
    A URL it calls valid was answered with status 200, by the HEAD
    request or, when that was answered 405, by the GET request that
    follows it, and is a PDF by its [Content-Type] or by its own
    ending. *)
Theorem valid_url_was_fetched
    (http_head http_get : string → http_reply) (url : string) :
  (has_http_scheme url = false →
   (validate_pdf_url http_head http_get url).2 = []
   ∧ obj_get (validate_pdf_url http_head http_get url).1 "valid" PyNone = PyBool false)
  ∧ (obj_get (validate_pdf_url http_head http_get url).1 "valid" PyNone = PyBool true →
     has_http_scheme url = true
     ∧ obj_get (validate_pdf_url http_head http_get url).1 "status_code" PyNone = PyInt 200
     ∧ obj_get (validate_pdf_url http_head http_get url).1 "accessible" PyNone = PyBool true
     ∧ (∃ content_type,
          obj_get (validate_pdf_url http_head http_get url).1 "content_type" PyNone
          = PyStr content_type
          ∧ py_in "pdf" content_type || endswith ".pdf" (py_lower url) = true)
     ∧ ((validate_pdf_url http_head http_get url).2 = [("HEAD", url)]
        ∨ (∃ header, http_head url = HttpResponse 405 header)
          ∧ (validate_pdf_url http_head http_get url).2 = [("HEAD", url); ("GET", url)])).
Proof.
  unfold validate_pdf_url. split.
  - intros ->. by rewrite orb_true_r.
  - destruct (String.eqb url "" || negb (has_http_scheme url)) eqn:Hguard; [done|].
    apply orb_false_elim in Hguard as [_ Hs%negb_false_iff]. intros Hvalid.
    split; [done|].
    assert (Hfinal : ∀ r, obj_get (validation url r) "valid" PyNone = PyBool true →
              obj_get (validation url r) "status_code" PyNone = PyInt 200
              ∧ obj_get (validation url r) "accessible" PyNone = PyBool true
              ∧ ∃ content_type,
                  obj_get (validation url r) "content_type" PyNone = PyStr content_type
                  ∧ py_in "pdf" content_type || endswith ".pdf" (py_lower url) = true).
    { intros [status header| |e|e]; try discriminate. cbn.
      intros [= [Hpdf Hacc]%andb_prop]. rewrite Hacc.
      apply Z.eqb_eq in Hacc as ->. split; [done|]. split; [done|]. by eexists. }
    destruct (http_head url) as [status header| |e|e] eqn:Hh; try discriminate Hvalid.
    destruct (Z.eqb_spec status 405) as [->|Hne].
    + cbn [fst snd] in *. destruct (Hfinal _ Hvalid) as (? & ? & ?).
      repeat split; try done. right. split; [by eexists|done].
    + cbn [fst snd] in *. destruct (Hfinal _ Hvalid) as (? & ? & ?).
      repeat split; try done. by left.
Qed.

(** ** The outer loop on a success *)

Ltac sub_keys :=
  let k := fresh "k" in
  let Hin := fresh "Hin" in
  intros k Hin;
  repeat (apply elem_of_cons in Hin as [->|Hin]; [solve_keys|]);
  by apply elem_of_nil in Hin.

Section Orchestrator.
Variable path_exists : string → bool.

Lemma download_checker_frame (st st' : state) (evs : list event) (k : string) :
  download_checker st = Ok (st', evs) → k ≠ "pdf_find_attempt" → st' !! k = st !! k.
Proof.
  unfold download_checker. intros H Hk.
  destruct (truthy _); [by injection H as <- _|].
  destruct (py_ge _ _) as [[]|]; cbn [mbind result_bind mret result_ret] in H;
    [by injection H as <- _| |done].
  destruct (py_add _ _); cbn [mbind result_bind mret result_ret] in H; [|done].
  injection H as <- _. by rewrite lookup_insert_ne.
Qed.

Lemma pass_frame (r : replies) (st st' : state) (evs : list event) (esc : bool)
    (k : string) :
  run_sub_agents (pass_agents path_exists r) st = Ok (st', evs, esc) →
  k ∉ retry_keys → st' !! k = st !! k.
Proof.
  intros H Hk.
  assert (Hne : ∀ k', k' ∈ retry_keys → k' ≠ k) by (intros k' Hin <-; done).
  unfold pass_agents, run_sub_agents, alternative_finder_agent, url_validator_agent,
    downloader_agent, llm_agent, pure_callback, no_callback in H.
  cbn [mbind result_bind mret result_ret existsb escalate orb] in H.
  destruct (download_checker _) as [[st4 evs4]|] eqn:Hck;
    cbn [mbind result_bind mret result_ret] in H; [|done].
  assert (st' = st4) as ->.
  { destruct (existsb escalate evs4); cbn [mbind result_bind mret result_ret] in H;
      unfold mret, result_ret in H; by inversion H. }
  assert (Hsub : ∀ l : list string, (∀ k', k' ∈ l → k' ∈ retry_keys) → k ∉ l)
    by (intros l Hl Hin; apply Hk; by apply Hl).
  rewrite (download_checker_frame _ _ _ _ Hck) by (intros ->; apply Hk; solve_keys).
  rewrite process_download_output_frame by (apply Hsub; sub_keys).
  rewrite lookup_insert_ne by (apply Hne; solve_keys).
  rewrite lookup_insert_ne by (apply Hne; solve_keys).
  rewrite process_finder_output_frame by (apply Hsub; sub_keys).
  by rewrite lookup_insert_ne by (apply Hne; solve_keys).
Qed.

Lemma loop_frame (oracle : nat → replies) (k : string) (remaining : nat) :
  ∀ (t : nat) (st : state) (r : loop_run),
    loop_agent (λ i, pass_agents path_exists (oracle i)) remaining t st = Ok r →
    k ∉ retry_keys → final_state r !! k = st !! k.
Proof.
  induction remaining as [|remaining IH]; intros t st r H Hk; cbn [loop_agent] in H.
  - by injection H as <-.
  - destruct (run_sub_agents _ st) as [[[st1 evs] esc]|] eqn:Hpass;
      cbn [mbind result_bind mret result_ret] in H; [|done].
    pose proof (pass_frame _ _ _ _ _ _ Hpass Hk) as H1.
    destruct esc; [by injection H as <-|].
    destruct (loop_agent _ remaining (S t) st1) as [r1|] eqn:Hr;
      cbn [mbind result_bind mret result_ret] in H; [|done].
    injection H as <-. cbn [final_state]. by rewrite (IH _ _ _ Hr Hk).
Qed.

End Orchestrator.

Lemma iterator_selects (names : list string) (i : nat) (x : string) (st : state) :
  at_position names i st → names !! i = Some x →
  ∃ st1,
    company_iterator st
    = Ok (st1, [Event "company_iterator"
                  (ProcessingCompany (PyInt (Z.of_nat i + 1))
                     (PyInt (Z.of_nat (length names))) (PyStr x))
                  false])
    ∧ st1 !! "company_name" = Some (PyStr x)
    ∧ get st1 "pdf_find_attempt" (PyInt 0) = PyInt 0
    ∧ (∀ k, k ∈ ["company_list"; "total_companies"; "current_company_index";
                 "processed_companies"] → st1 !! k = st !! k).
Proof.
  intros (Hl & Ht & Hi & Hp) Hx.
  pose proof (lookup_lt_Some _ _ _ Hx) as Hlt.
  unfold company_iterator, get. rewrite Hl, Hi.
  cbn [py_len mbind result_bind mret result_ret]. rewrite Ht, ?length_fmap.
  unfold py_ge. cbn [as_int].
  destruct (Z.leb_spec (Z.of_nat (length names)) (Z.of_nat i)) as [?|_]; [lia|].
  cbn [mbind result_bind mret result_ret]. unfold py_index. cbn [as_int].
  rewrite length_fmap.
  destruct (Z.ltb_spec (Z.of_nat i) 0) as [?|_]; [lia|].
  destruct (Z.leb_spec 0 (Z.of_nat i)) as [_|?]; [|lia].
  destruct (Z.ltb_spec (Z.of_nat i) (Z.of_nat (length names))) as [_|?]; [|lia].
  cbn [andb]. rewrite Nat2Z.id, list_lookup_fmap, Hx.
  cbn [fmap option_fmap option_map mbind result_bind mret result_ret py_add as_int].
  eexists. split; [reflexivity|]. split; [by simplify_map_eq|].
  split; [by simplify_map_eq|].
  intros k Hk. rewrite !lookup_insert_ne; [done|..]; intros <-; revert Hk; solve_keys.
Qed.

Lemma last_escalates (evs : list event) (ev : event) :
  last evs = Some ev → escalate ev = true → existsb escalate evs = true.
Proof.
  intros [l ->]%last_Some Hev. by rewrite existsb_app, (orb_comm _ _); cbn; rewrite Hev.
Qed.

(** X24.  [LoopAgent] ends as soon as an event its sub-agent yields carries
    [escalate], and a [SequentialAgent] hands on the events of the agents
    it holds, those of a nested loop included.  So when the first
    company's download succeeds, the checker's success event, which ends
    the retry loop, ends the outer loop as well: the orchestrator makes one
    pass and stops by escalation with the first company still selected,
    however many companies the work list holds. *)
Theorem orchestrator_stops_after_first_success
    (path_exists : string → bool) (oracle : nat → company_replies) (st : state)
    (name : string) (others : list string) (k : nat) (path : pyval) :
  at_position (name :: others) 0 st →
  name ≠ "" →
  (k < 5)%nat →
  (∀ i, (i < k)%nat → acquisition_fails path_exists (retry_replies (oracle 0%nat) i)) →
  acquisition_succeeds (retry_replies (oracle 0%nat) k) path →
  ∃ r,
    company_orchestrator_loop path_exists oracle st = Ok r
    ∧ passes r = 1%nat
    ∧ exit r = Escalated
    ∧ final_state r !! "company_name" = Some (PyStr name)
    ∧ final_state r !! "company_list" = Some (PyList (PyStr <$> name :: others))
    ∧ final_state r !! "total_companies"
      = Some (PyInt (Z.of_nat (S (length others)))).
Proof.
  intros Hat Hname Hk Hfail Hok.
  destruct (iterator_selects (name :: others) 0 name st Hat eq_refl)
    as (st1 & Hiter & Hn1 & Ha1 & Hf1).
  destruct (loop_until_success path_exists (retry_replies (oracle 0%nat)) path k 0 5 st1 0
              Ha1 ltac:(lia) Hk)
    as (r1 & Hr1 & _ & _ & Hlast & _ & _ & _ & _);
    [intros i Hi; apply Hfail; lia|done|].
  pose proof (λ key, loop_frame path_exists (retry_replies (oracle 0%nat)) key 5 0 st1 r1 Hr1)
    as Hf2.
  destruct Hat as (Hl & Ht & Hi & Hp).
  set (st4 := <["storage_result" := PyStr (storage_reply (oracle 0%nat))]>
                (format_final_output
                   (<["final_summary" := PyStr (summarizer_reply (oracle 0%nat))]>
                      (combine_analysis_results
                         (<["raw_analysis" := PyStr (analyst_reply (oracle 0%nat))]>
                            (final_state r1)))))).
  assert (Hf4 : ∀ key, key ∈ ["company_list"; "total_companies"; "current_company_index";
                              "processed_companies"; "company_name"] →
                       st4 !! key = st1 !! key).
  { intros key Hkey.
    assert (Hkeep : (key ∉ retry_keys)
                    ∧ (key ∉ ["storage_result"; "structured_output"; "final_summary";
                              "financial_analysis"; "raw_analysis"])).
    { repeat (apply elem_of_cons in Hkey as [->|Hkey]; [split; solve_keys|]).
      by apply elem_of_nil in Hkey. }
    destruct Hkeep as [Hretry Hstage].
    assert (Hne : ∀ k', k' ∈ ["storage_result"; "structured_output"; "final_summary";
                              "financial_analysis"; "raw_analysis"] → k' ≠ key)
      by (intros k' Hin <-; done).
    unfold st4, format_final_output, combine_analysis_results.
    rewrite get_insert_eq.
    rewrite lookup_insert_ne by (apply Hne; solve_keys).
    destruct (json_loads _);
      rewrite !lookup_insert_ne by (apply Hne; solve_keys);
      by apply Hf2. }
  destruct (track_spec st4 [] 0) as (st5 & Htrack & _).
  { unfold get. rewrite Hf4 by solve_keys. rewrite Hf1 by solve_keys. by rewrite Hp. }
  { unfold get. rewrite Hf4 by solve_keys. rewrite Hf1 by solve_keys. by rewrite Hi. }
  pose proof (λ key, track_processed_company_frame st4 st5 key Htrack) as Hf5.
  unfold company_orchestrator_loop. cbn [loop_agent run_sub_agents].
  unfold single_company_pipeline. cbn [sequential_agent]. rewrite Hiter.
  cbn [mbind result_bind mret result_ret]. unfold loop_as_agent.
  change (pdf_find_retry_loop path_exists (retry_replies (oracle 0%nat)) st1)
    with (loop_agent (λ i, pass_agents path_exists (retry_replies (oracle 0%nat) i)) 5 0 st1).
  rewrite Hr1. cbn [mbind result_bind mret result_ret].
  unfold analyst_agent, summarizer_agent, storage_agent, llm_agent, pure_callback.
  cbn [mbind result_bind mret result_ret]. fold st4. rewrite Htrack.
  cbn [mbind result_bind mret result_ret].
  rewrite existsb_app, (orb_comm _ _), existsb_app,
    (last_escalates _ _ Hlast eq_refl).
  cbn [orb mbind result_bind mret result_ret].
  eexists. split; [reflexivity|]. cbn [passes exit final_state].
  split; [done|]. split; [done|].
  split; [|split].
  - rewrite Hf5 by solve_keys. rewrite Hf4 by solve_keys. done.
  - rewrite Hf5 by solve_keys. rewrite Hf4 by solve_keys. rewrite Hf1 by solve_keys. done.
  - rewrite Hf5 by solve_keys. rewrite Hf4 by solve_keys. rewrite Hf1 by solve_keys.
    rewrite Ht. done.
Qed.

Lemma orchestrator_stops_after_first_success_witness :
  ∃ r,
    company_orchestrator_loop no_files first_found two_companies = Ok r
    ∧ passes r = 1%nat
    ∧ exit r = Escalated
    ∧ final_state r !! "company_name" = Some (PyStr "A Corp")
    ∧ final_state r !! "company_list" = Some (PyList (PyStr <$> ["A Corp"; "B Corp"]))
    ∧ final_state r !! "total_companies" = Some (PyInt (Z.of_nat (S (length ["B Corp"])))).
Proof.
  apply (orchestrator_stops_after_first_success no_files first_found two_companies
           "A Corp" ["B Corp"] 2 (PyStr "/tmp/ar.pdf")).
  - repeat split; vm_compute; reflexivity.
  - discriminate.
  - lia.
  - intros i Hi. destruct i as [|[|i]]; [vm_compute; reflexivity..|lia].
  - exists (q "{'success': true, 'file_path': '/tmp/ar.pdf'}"),
      (PyDict [("success", PyBool true); ("file_path", PyStr "/tmp/ar.pdf")]).
    repeat split; vm_compute; reflexivity.
Defined.
